(** * Pypiper's PipelineManager: the run-and-lock execution engine

    A shallow embedding of [pypiper/manager.py] (class [PipelineManager]):
    the [run] decision procedure, the lock and recovery files, the child
    process supervisor ([callprint], [_memory_usage]), the status flags and
    the failure path ([fail_pipeline], [_cleanup]).

    Conventions of the embedding.
    - Python 2 semantics, as the source is written for it: [IOError] (raised
      by [open]) is not an [OSError] (raised by [os.open], [os.remove],
      [subprocess.Popen]).
    - The file system is a finite map from paths to nodes.  Other processes
      (sibling pipelines, the children, the kernel maintaining [/proc]) are
      the environment: before every system call of the manager the
      environment may rewrite the file system ([w_env]).
    - Every system call the manager makes is recorded in a trace.
    - Standard output is not modelled: [print] calls are dropped.
    - Wall-clock time is the logical clock counting system calls; floats that
      are only compared and maximised (peak memory, sleep times) are exact
      rationals.
    - Opening a file for writing or appending always succeeds; the modelled
      failures are the ones the source distinguishes or meets on its paths:
      exclusive creation ([EEXIST] and any other [errno]), [os.remove] of a
      missing file, opening and reading [/proc/<pid>/status], [Popen], and
      the Python exceptions of indexing and parsing.
    - Asynchronous signal delivery is not modelled; [fail_pipeline] with
      [dynamic_recover] set is what the handlers call. *)

From stdpp Require Import base strings list gmap pretty.
From Stdlib Require Import Ascii String ZArith QArith.

Open Scope string_scope.

(** ** Python strings *)

Module Py.

Definition is_space (c : ascii) : bool :=
  (Ascii.eqb c " " || Ascii.eqb c "009" || Ascii.eqb c "010"
   || Ascii.eqb c "011" || Ascii.eqb c "012" || Ascii.eqb c "013")%bool.

(** [s.startswith(pre)] *)
Fixpoint startswith (pre s : string) : bool :=
  match pre, s with
  | EmptyString, _ => true
  | String a p, String b t => Ascii.eqb a b && startswith p t
  | String _ _, EmptyString => false
  end.

(** [s.endswith("/")] and friends: the last character satisfies [f]. *)
Fixpoint last_char_is (f : ascii → bool) (s : string) : bool :=
  match s with
  | EmptyString => false
  | String c EmptyString => f c
  | String _ t => last_char_is f t
  end.

(** [sub in s] *)
Fixpoint contains (sub s : string) : bool :=
  startswith sub s ||
  match s with
  | EmptyString => false
  | String _ t => contains sub t
  end.

(** [s.replace(old, new)] for a non-empty [old]: the occurrences are found
    from the left and do not overlap.  [skip] counts the characters of an
    occurrence still to be dropped. *)
Fixpoint replace_from (old new : string) (skip : nat) (s : string) : string :=
  match s with
  | EmptyString => EmptyString
  | String c t =>
      match skip with
      | S k => replace_from old new k t
      | O =>
          if startswith old s
          then new +:+ replace_from old new (String.length old - 1) t
          else String c (replace_from old new 0 t)
      end
  end.

Definition replace (old new s : string) : string := replace_from old new 0 s.

(** [s.split()]: the maximal runs of non-blank characters. *)
Fixpoint split_from (cur : string) (s : string) : list string :=
  match s with
  | EmptyString => match cur with EmptyString => [] | _ => [cur] end
  | String c t =>
      if is_space c
      then match cur with
           | EmptyString => split_from EmptyString t
           | _ => cur :: split_from EmptyString t
           end
      else split_from (cur +:+ String c EmptyString) t
  end.

Definition split (s : string) : list string := split_from EmptyString s.

(** [s[i:]] *)
Fixpoint drop_chars (i : nat) (s : string) : string :=
  match i, s with
  | O, _ => s
  | S _, EmptyString => EmptyString
  | S k, String _ t => drop_chars k t
  end.

(** [s[:-1]] *)
Fixpoint drop_last (s : string) : string :=
  match s with
  | EmptyString => EmptyString
  | String _ EmptyString => EmptyString
  | String c t => String c (drop_last t)
  end.

Definition lower_char (c : ascii) : ascii :=
  let n := nat_of_ascii c in
  if (65 <=? n)%nat && (n <=? 90)%nat then ascii_of_nat (n + 32) else c.

(** [s.lower()] *)
Fixpoint lower (s : string) : string :=
  match s with
  | EmptyString => EmptyString
  | String c t => String (lower_char c) (lower t)
  end.

Definition digit_of (c : ascii) : option Z :=
  let n := nat_of_ascii c in
  if (48 <=? n)%nat && (n <=? 57)%nat then Some (Z.of_nat (n - 48)) else None.

Fixpoint digits_from (acc : Z) (s : string) : option Z :=
  match s with
  | EmptyString => Some acc
  | String c t =>
      match digit_of c with
      | Some d => digits_from (10 * acc + d) t
      | None => None
      end
  end.

(** [int(s)] on a token without blanks: an optional sign and at least one
    digit; [None] stands for [ValueError]. *)
Definition int (s : string) : option Z :=
  match s with
  | EmptyString => None
  | String c t =>
      if Ascii.eqb c "-" then
        match t with EmptyString => None | _ => Z.opp <$> digits_from 0 t end
      else if Ascii.eqb c "+" then
        match t with EmptyString => None | _ => digits_from 0 t end
      else digits_from 0 s
  end.

(** [l.remove(x)]: drops the first occurrence; [None] stands for
    [ValueError] (no occurrence). *)
Fixpoint list_remove (x : string) (l : list string) : option (list string) :=
  match l with
  | [] => None
  | y :: t => if String.eqb x y then Some t else cons y <$> list_remove x t
  end.

(** [x in l] *)
Definition list_in (x : string) (l : list string) : bool :=
  existsb (String.eqb x) l.

(** [max(a, b)] keeps its first argument unless the second is larger. *)
Definition maxQ (a b : Q) : Q := if Qle_bool b a then a else b.
Definition minQ (a b : Q) : Q := if Qle_bool a b then a else b.
Definition maxZ (a b : Z) : Z := if (b <=? a)%Z then a else b.

End Py.

(** ** [os.path] (posixpath) *)

Module OsPath.

Definition is_sep (c : ascii) : bool := Ascii.eqb c "/".

Definition isabs (p : string) : bool := Py.startswith "/" p.

(** [p[:i], p[i:]] for [i = p.rfind('/') + 1]. *)
Fixpoint cut_at_last_sep (p : string) : string * string :=
  match p with
  | EmptyString => (EmptyString, EmptyString)
  | String c t =>
      let '(h, n) := cut_at_last_sep t in
      match h with
      | String _ _ => (String c h, n)
      | EmptyString =>
          if is_sep c then (String c EmptyString, t) else (EmptyString, String c t)
      end
  end.

(** [s.rstrip('/')] *)
Fixpoint rstrip_sep (s : string) : string :=
  match s with
  | EmptyString => EmptyString
  | String c t =>
      match rstrip_sep t with
      | EmptyString => if is_sep c then EmptyString else String c EmptyString
      | r => String c r
      end
  end.

(** [os.path.split]: the head loses its trailing separators unless it
    consists of separators only. *)
Definition split (p : string) : string * string :=
  let '(h, n) := cut_at_last_sep p in
  match rstrip_sep h with
  | EmptyString => (h, n)
  | h' => (h', n)
  end.

Definition basename (p : string) : string := snd (cut_at_last_sep p).

(** [os.path.join(a, b)] *)
Definition join (a b : string) : string :=
  if Py.startswith "/" b then b
  else match a with
       | EmptyString => b
       | _ => if Py.last_char_is is_sep a then a +:+ b else a +:+ "/" +:+ b
       end.

End OsPath.

(** ** Exceptions, files, processes *)

Inductive Errno :=
  EEXIST | ENOENT | EACCES | ENOSPC | EIO | EROFS | ESRCH | EISDIR | ENOTEMPTY.

#[global] Instance Errno_eq_dec : EqDecision Errno.
Proof. solve_decision. Defined.

(** The exception classes that occur in [manager.py].  [OSError] carries
    [e.errno], which is [None] for [OSError("message")]. *)
Inductive Exn :=
  | OSError (errno : option Errno) (msg : string)
  | IOError (errno : Errno)
  | CalledProcessError
  | IndexError
  | ValueError
  | AttributeError
  | UnboundLocalError
  | PyException (msg : string)
  | KeyboardInterrupt (sig : string).

Inductive Node := File (content : string) | Dir.

(** The command handed to [subprocess.Popen]: a string run by the shell, or
    an argument vector. *)
Inductive Argv := ShellCmd (cmd : string) | DirectCmd (argv : list string).

(** A child as the supervisor sees it: [p.poll()] answers [None] [c_polls]
    times, then the child is reaped with [p.returncode = c_returncode]. *)
Record Child := { c_pid : Z; c_polls : nat; c_returncode : Z }.

Inductive SpawnResult := SpawnError (e : Errno) | Spawned (c : Child).

(** The system calls of the manager, in the order they were made. *)
Inductive Ev :=
  | EvCreate (p : string)
  | EvCreateExcl (p : string)
  | EvAppend (p text : string)
  | EvRemove (p : string)
  | EvRmdir (p : string)
  | EvPopen (a : Argv)
  | EvKill (pid : Z)
  | EvSleep (secs : Q)
  | EvFollow (f : nat).

Record World := {
  w_fs : gmap string Node;
  w_clock : nat;
  (** what the other processes do to the file system before system call [n] *)
  w_env : nat → gmap string Node → gmap string Node;
  (** paths whose exclusive creation is refused, with the [errno] *)
  w_deny : string → option Errno;
  (** what [Popen] answers at time [n] *)
  w_spawn : nat → Argv → SpawnResult;
  (** [docker stats] at time [n]: the memory in kB, or the exception raised
      by the probe or by the parsing of its output *)
  w_docker : nat → string → Exn + Q;
  w_trace : list Ev }.

(** ** The manager *)

(** The status tokens of [pypiper.flags] (not under src/; the tokens are
    those of the flag-file names) and the initial ["initializing"]. *)
Inductive Status := Initializing | Running | Waiting | Paused | Completed | Failed.

#[global] Instance Status_eq_dec : EqDecision Status.
Proof. solve_decision. Defined.

Definition RUN_FLAG := Running.
Definition WAIT_FLAG := Waiting.
Definition PAUSE_FLAG := Paused.
Definition COMPLETE_FLAG := Completed.
Definition FAIL_FLAG := Failed.

Definition status_token (s : Status) : string :=
  match s with
  | Initializing => "initializing"
  | Running => "running"
  | Waiting => "waiting"
  | Paused => "paused"
  | Completed => "completed"
  | Failed => "failed"
  end.

(** An entry of [self.procs]. *)
Record ProcInfo := {
  pi_proc_name : string;
  pi_start_time : nat;
  pi_pre_block : bool;
  pi_container : option string;
  pi_p : Child }.

(** The attributes of [PipelineManager] the engine reads and writes.
    [pm_outfolder] is [os.path.join(outfolder, '')] as [__init__] sets it. *)
Record Manager := {
  pm_name : string;
  pm_outfolder : string;
  pm_overwrite_locks : bool;
  pm_force_follow : bool;
  pm_manual_clean : bool;
  pm_overwrite_checkpoints : bool;
  pm_wait : bool;
  pm_status : Status;
  pm_locks : list string;
  pm_procs : list (Z * ProcInfo);
  pm_peak_memory : Q;
  pm_starttime : nat;
  pm_last_timestamp : nat;
  pm_cleanup_list : list string;
  pm_cleanup_list_conditional : list string;
  pm_stats_dict : list (string * string);
  pm_proc_name : string }.

Record St := { st_pm : Manager; st_os : World }.

Definition set_status (x : Status) (m : Manager) : Manager :=
  {| pm_name := pm_name m; pm_outfolder := pm_outfolder m;
     pm_overwrite_locks := pm_overwrite_locks m; pm_force_follow := pm_force_follow m;
     pm_manual_clean := pm_manual_clean m;
     pm_overwrite_checkpoints := pm_overwrite_checkpoints m; pm_wait := pm_wait m;
     pm_status := x; pm_locks := pm_locks m; pm_procs := pm_procs m;
     pm_peak_memory := pm_peak_memory m; pm_starttime := pm_starttime m;
     pm_last_timestamp := pm_last_timestamp m; pm_cleanup_list := pm_cleanup_list m;
     pm_cleanup_list_conditional := pm_cleanup_list_conditional m;
     pm_stats_dict := pm_stats_dict m; pm_proc_name := pm_proc_name m |}.

Definition set_locks (x : list string) (m : Manager) : Manager :=
  {| pm_name := pm_name m; pm_outfolder := pm_outfolder m;
     pm_overwrite_locks := pm_overwrite_locks m; pm_force_follow := pm_force_follow m;
     pm_manual_clean := pm_manual_clean m;
     pm_overwrite_checkpoints := pm_overwrite_checkpoints m; pm_wait := pm_wait m;
     pm_status := pm_status m; pm_locks := x; pm_procs := pm_procs m;
     pm_peak_memory := pm_peak_memory m; pm_starttime := pm_starttime m;
     pm_last_timestamp := pm_last_timestamp m; pm_cleanup_list := pm_cleanup_list m;
     pm_cleanup_list_conditional := pm_cleanup_list_conditional m;
     pm_stats_dict := pm_stats_dict m; pm_proc_name := pm_proc_name m |}.

Definition set_procs (x : list (Z * ProcInfo)) (m : Manager) : Manager :=
  {| pm_name := pm_name m; pm_outfolder := pm_outfolder m;
     pm_overwrite_locks := pm_overwrite_locks m; pm_force_follow := pm_force_follow m;
     pm_manual_clean := pm_manual_clean m;
     pm_overwrite_checkpoints := pm_overwrite_checkpoints m; pm_wait := pm_wait m;
     pm_status := pm_status m; pm_locks := pm_locks m; pm_procs := x;
     pm_peak_memory := pm_peak_memory m; pm_starttime := pm_starttime m;
     pm_last_timestamp := pm_last_timestamp m; pm_cleanup_list := pm_cleanup_list m;
     pm_cleanup_list_conditional := pm_cleanup_list_conditional m;
     pm_stats_dict := pm_stats_dict m; pm_proc_name := pm_proc_name m |}.

Definition set_peak_memory (x : Q) (m : Manager) : Manager :=
  {| pm_name := pm_name m; pm_outfolder := pm_outfolder m;
     pm_overwrite_locks := pm_overwrite_locks m; pm_force_follow := pm_force_follow m;
     pm_manual_clean := pm_manual_clean m;
     pm_overwrite_checkpoints := pm_overwrite_checkpoints m; pm_wait := pm_wait m;
     pm_status := pm_status m; pm_locks := pm_locks m; pm_procs := pm_procs m;
     pm_peak_memory := x; pm_starttime := pm_starttime m;
     pm_last_timestamp := pm_last_timestamp m; pm_cleanup_list := pm_cleanup_list m;
     pm_cleanup_list_conditional := pm_cleanup_list_conditional m;
     pm_stats_dict := pm_stats_dict m; pm_proc_name := pm_proc_name m |}.

Definition set_last_timestamp (x : nat) (m : Manager) : Manager :=
  {| pm_name := pm_name m; pm_outfolder := pm_outfolder m;
     pm_overwrite_locks := pm_overwrite_locks m; pm_force_follow := pm_force_follow m;
     pm_manual_clean := pm_manual_clean m;
     pm_overwrite_checkpoints := pm_overwrite_checkpoints m; pm_wait := pm_wait m;
     pm_status := pm_status m; pm_locks := pm_locks m; pm_procs := pm_procs m;
     pm_peak_memory := pm_peak_memory m; pm_starttime := pm_starttime m;
     pm_last_timestamp := x; pm_cleanup_list := pm_cleanup_list m;
     pm_cleanup_list_conditional := pm_cleanup_list_conditional m;
     pm_stats_dict := pm_stats_dict m; pm_proc_name := pm_proc_name m |}.

Definition set_cleanup_lists (x y : list string) (m : Manager) : Manager :=
  {| pm_name := pm_name m; pm_outfolder := pm_outfolder m;
     pm_overwrite_locks := pm_overwrite_locks m; pm_force_follow := pm_force_follow m;
     pm_manual_clean := pm_manual_clean m;
     pm_overwrite_checkpoints := pm_overwrite_checkpoints m; pm_wait := pm_wait m;
     pm_status := pm_status m; pm_locks := pm_locks m; pm_procs := pm_procs m;
     pm_peak_memory := pm_peak_memory m; pm_starttime := pm_starttime m;
     pm_last_timestamp := pm_last_timestamp m; pm_cleanup_list := x;
     pm_cleanup_list_conditional := y;
     pm_stats_dict := pm_stats_dict m; pm_proc_name := pm_proc_name m |}.

Definition set_stats_dict (x : list (string * string)) (m : Manager) : Manager :=
  {| pm_name := pm_name m; pm_outfolder := pm_outfolder m;
     pm_overwrite_locks := pm_overwrite_locks m; pm_force_follow := pm_force_follow m;
     pm_manual_clean := pm_manual_clean m;
     pm_overwrite_checkpoints := pm_overwrite_checkpoints m; pm_wait := pm_wait m;
     pm_status := pm_status m; pm_locks := pm_locks m; pm_procs := pm_procs m;
     pm_peak_memory := pm_peak_memory m; pm_starttime := pm_starttime m;
     pm_last_timestamp := pm_last_timestamp m; pm_cleanup_list := pm_cleanup_list m;
     pm_cleanup_list_conditional := pm_cleanup_list_conditional m;
     pm_stats_dict := x; pm_proc_name := pm_proc_name m |}.

Definition set_proc_name (x : string) (m : Manager) : Manager :=
  {| pm_name := pm_name m; pm_outfolder := pm_outfolder m;
     pm_overwrite_locks := pm_overwrite_locks m; pm_force_follow := pm_force_follow m;
     pm_manual_clean := pm_manual_clean m;
     pm_overwrite_checkpoints := pm_overwrite_checkpoints m; pm_wait := pm_wait m;
     pm_status := pm_status m; pm_locks := pm_locks m; pm_procs := pm_procs m;
     pm_peak_memory := pm_peak_memory m; pm_starttime := pm_starttime m;
     pm_last_timestamp := pm_last_timestamp m; pm_cleanup_list := pm_cleanup_list m;
     pm_cleanup_list_conditional := pm_cleanup_list_conditional m;
     pm_stats_dict := pm_stats_dict m; pm_proc_name := x |}.

Definition set_fs (fs : gmap string Node) (w : World) : World :=
  {| w_fs := fs; w_clock := w_clock w; w_env := w_env w; w_deny := w_deny w;
     w_spawn := w_spawn w; w_docker := w_docker w; w_trace := w_trace w |}.

Definition log_ev (e : Ev) (w : World) : World :=
  {| w_fs := w_fs w; w_clock := w_clock w; w_env := w_env w; w_deny := w_deny w;
     w_spawn := w_spawn w; w_docker := w_docker w; w_trace := (w_trace w ++ [e])%list |}.

(** One step of the rest of the system, then the clock advances. *)
Definition tick (w : World) : World :=
  {| w_fs := w_env w (w_clock w) (w_fs w); w_clock := S (w_clock w);
     w_env := w_env w; w_deny := w_deny w; w_spawn := w_spawn w;
     w_docker := w_docker w; w_trace := w_trace w |}.

(** ** The monad of the embedding: state, exceptions, fuel *)

Inductive Res (A : Type) :=
  | Ret (a : A)
  | Raise (e : Exn)
  | OutOfFuel.
Arguments Ret {A} a.
Arguments Raise {A} e.
Arguments OutOfFuel {A}.

Definition M (A : Type) : Type := St → Res A * St.

Definition ret {A} (a : A) : M A := fun s => (Ret a, s).
Definition raise {A} (e : Exn) : M A := fun s => (Raise e, s).
Definition out_of_fuel {A} : M A := fun s => (OutOfFuel, s).

Definition bind {A B} (m : M A) (k : A → M B) : M B := fun s =>
  match m s with
  | (Ret a, s') => k a s'
  | (Raise e, s') => (Raise e, s')
  | (OutOfFuel, s') => (OutOfFuel, s')
  end.

Declare Scope py_scope.
Delimit Scope py_scope with py.
Notation "x <- c1 ;; c2" := (bind c1 (fun x => c2))
  (at level 100, c1 at next level, right associativity) : py_scope.
Notation "c1 ;; c2" := (bind c1 (fun _ => c2))
  (at level 100, right associativity) : py_scope.
Open Scope py_scope.

(** [try: m except <classes selected by h>: handler] *)
Definition try_except {A} (m : M A) (h : Exn → option (M A)) : M A := fun s =>
  match m s with
  | (Raise e, s') => match h e with Some k => k s' | None => (Raise e, s') end
  | r => r
  end.

(** [try: m finally: f] *)
Definition try_finally {A} (m : M A) (f : M unit) : M A := fun s =>
  match m s with
  | (OutOfFuel, s') => (OutOfFuel, s')
  | (r, s') =>
      match f s' with
      | (Ret _, s'') => (r, s'')
      | (Raise e, s'') => (Raise e, s'')
      | (OutOfFuel, s'') => (OutOfFuel, s'')
      end
  end.

Definition get_pm : M Manager := fun s => (Ret (st_pm s), s).
Definition get_os : M World := fun s => (Ret (st_os s), s).

Definition mod_pm (f : Manager → Manager) : M unit := fun s =>
  (Ret tt, {| st_pm := f (st_pm s); st_os := st_os s |}).

(** A system call: the environment moves first. *)
Definition sys {A} (f : World → Res A * World) : M A := fun s =>
  let '(r, w) := f (tick (st_os s)) in (r, {| st_pm := st_pm s; st_os := w |}).

(** [time.time()] *)
Definition time_time : M nat := fun s => (Ret (w_clock (st_os s)), s).

(** *** System calls *)

Definition is_file (fs : gmap string Node) (p : string) : bool :=
  match fs !! p with Some (File _) => true | _ => false end.

Definition is_dir (fs : gmap string Node) (p : string) : bool :=
  match fs !! p with Some Dir => true | _ => false end.

Definition path_exists (fs : gmap string Node) (p : string) : bool :=
  match fs !! p with Some _ => true | None => false end.

Definition os_path_isfile (p : string) : M bool :=
  sys (fun w => (Ret (is_file (w_fs w) p), w)).

Definition os_path_isdir (p : string) : M bool :=
  sys (fun w => (Ret (is_dir (w_fs w) p), w)).

Definition os_path_exists (p : string) : M bool :=
  sys (fun w => (Ret (path_exists (w_fs w) p), w)).

(** [os.remove(p)] *)
Definition os_remove (p : string) : M unit :=
  sys (fun w =>
    match w_fs w !! p with
    | Some (File _) => (Ret tt, log_ev (EvRemove p) (set_fs (delete p (w_fs w)) w))
    | Some Dir => (Raise (OSError (Some EISDIR) "Is a directory"), w)
    | None => (Raise (OSError (Some ENOENT) "No such file or directory"), w)
    end).

Definition has_entries (fs : gmap string Node) (d : string) : bool :=
  existsb (fun kv => Py.startswith (d +:+ "/") (fst kv)) (map_to_list fs).

(** [os.rmdir(p)] *)
Definition os_rmdir (p : string) : M unit :=
  sys (fun w =>
    match w_fs w !! p with
    | Some Dir =>
        if has_entries (w_fs w) p
        then (Raise (OSError (Some ENOTEMPTY) "Directory not empty"), w)
        else (Ret tt, log_ev (EvRmdir p) (set_fs (delete p (w_fs w)) w))
    | _ => (Raise (OSError (Some ENOENT) "No such file or directory"), w)
    end).

(** [with open(p, 'w') as f: f.write('')] *)
Definition open_w (p : string) : M unit :=
  sys (fun w => (Ret tt, log_ev (EvCreate p) (set_fs (<[p := File EmptyString]> (w_fs w)) w))).

(** [with open(p, 'a') as f: f.write(text)] *)
Definition open_a (p text : string) : M unit :=
  sys (fun w =>
    let old := match w_fs w !! p with Some (File c) => c | _ => EmptyString end in
    (Ret tt, log_ev (EvAppend p text) (set_fs (<[p := File (old +:+ text)]> (w_fs w)) w))).

(** [os.open(p, os.O_CREAT | os.O_EXCL | os.O_WRONLY)] *)
Definition os_open_excl (p : string) : M unit :=
  sys (fun w =>
    match w_fs w !! p with
    | Some _ => (Raise (OSError (Some EEXIST) "File exists"), w)
    | None =>
        match w_deny w p with
        | Some e => (Raise (OSError (Some e) "cannot create"), w)
        | None => (Ret tt, log_ev (EvCreateExcl p) (set_fs (<[p := File EmptyString]> (w_fs w)) w))
        end
    end).

(** [open(p)] for reading *)
Definition open_r (p : string) : M unit :=
  sys (fun w =>
    match w_fs w !! p with
    | Some (File _) => (Ret tt, w)
    | Some Dir => (Raise (IOError EISDIR), w)
    | None => (Raise (IOError ENOENT), w)
    end).

Fixpoint lines_from (cur : string) (s : string) : list string :=
  match s with
  | EmptyString => match cur with EmptyString => [] | _ => [cur] end
  | String c t =>
      if Ascii.eqb c "010" then cur :: lines_from EmptyString t
      else lines_from (cur +:+ String c EmptyString) t
  end.

(** [for line in f]: the lines of an open file.  A file of [/proc] that
    went away since [open] makes the read fail. *)
Definition read_lines (p : string) : M (list string) :=
  sys (fun w =>
    match w_fs w !! p with
    | Some (File c) => (Ret (lines_from EmptyString c), w)
    | _ => (Raise (IOError ESRCH), w)
    end).

(** [subprocess.Popen(cmd, shell=shell)] *)
Definition popen (a : Argv) : M Child :=
  sys (fun w =>
    match w_spawn w (w_clock w) a with
    | Spawned c => (Ret c, log_ev (EvPopen a) w)
    | SpawnError e => (Raise (OSError (Some e) "Popen"), log_ev (EvPopen a) w)
    end).

(** One [p.poll()] that answers [None]. *)
Definition poll_running : M unit := sys (fun w => (Ret tt, w)).

Definition time_sleep (secs : Q) : M unit :=
  sys (fun w => (Ret tt, log_ev (EvSleep secs) w)).

(** [os.kill(pid, signal.SIGTERM)] *)
Definition os_kill (pid : Z) : M unit :=
  sys (fun w => (Ret tt, log_ev (EvKill pid) w)).

(** A call of the user's follow-up function, identified by a number. *)
Definition call_user (f : nat) : M unit :=
  sys (fun w => (Ret tt, log_ev (EvFollow f) w)).

(** The whole containerized branch of [_memory_usage]. *)
Definition docker_stats (container : string) : M Q :=
  sys (fun w =>
    match w_docker w (w_clock w) container with
    | inr kb => (Ret kb, w)
    | inl e => (Raise e, w)
    end).

(** ** Code of the package this module imports *)

(** What [manager.py] imports from modules that are not under src/
    ([pypiper.utils], [pypiper.stage]) and from the standard library
    ([shlex], [glob], [str] of floats and time deltas, [time.strftime]). *)
Class Externals := {
  check_shell : string → bool;
  make_lock_name : string → string → string;
  translate_stage_name : string → string;
  (** [None]: [shlex.split] raises [ValueError] *)
  shlex_split : string → option (list string);
  glob_glob : gmap string Node → string → list string;
  str_timedelta : nat → string;
  str_float : Q → string;
  time_strftime : nat → string }.

(** Modelled from the spec: [pypiper.stage.CHECKPOINT_EXTENSION] is not
    under src/; section 3, "Checkpoint file: <stage-name>.checkpoint". *)
Definition CHECKPOINT_EXTENSION : string := ".checkpoint".

(** Modelled from the spec: [pypiper.utils.flag_name] is not under src/;
    section 6, "Flag file naming: {pipeline_name}_{status}.flag" ([manager.py]
    writes the pipeline name and the underscore itself). *)
Definition flag_name (status : string) : string := status +:+ ".flag".

(** Modelled from the spec: [pypiper.pipeline.pipeline_filepath] is not under
    src/; section 4.2, "resolve relative to outfolder", and section 3, "all
    managed files live here or beneath".  The file name is [filename], or the
    pipeline name when only a suffix is given, followed by the suffix. *)
Definition pipeline_filepath (pm : Manager) (filename suffix : option string) : string :=
  OsPath.join (pm_outfolder pm)
    (default (pm_name pm) filename +:+ default EmptyString suffix).

(** The paths [__init__] derives. *)
Definition pipeline_profile_file (pm : Manager) : string :=
  pipeline_filepath pm None (Some "_profile.tsv").
Definition pipeline_stats_file (pm : Manager) : string :=
  pipeline_filepath pm (Some "stats.tsv") None.
Definition pipeline_commands_file (pm : Manager) : string :=
  pipeline_filepath pm None (Some "_commands.sh").
Definition cleanup_file (pm : Manager) : string :=
  pipeline_filepath pm None (Some "_cleanup.sh").

(** ** Lock and recovery paths *)

Definition LOCK_PREFIX : string := "lock.".

Definition _ensure_lock_prefix (lock_name_base : string) : string :=
  if Py.startswith LOCK_PREFIX lock_name_base then lock_name_base
  else LOCK_PREFIX +:+ lock_name_base.

Definition _make_lock_path (pm : Manager) (lock_name_base : string) : string :=
  let '(base, name) := OsPath.split lock_name_base in
  let lock_name := _ensure_lock_prefix name in
  let lock_name :=
    match base with
    | EmptyString => lock_name
    | _ => OsPath.join base lock_name
    end in
  pipeline_filepath pm (Some lock_name) None.

Definition _recoverfile_from_lockfile (pm : Manager) (lockfile : string) : string :=
  let lockfile :=
    if negb (OsPath.isabs lockfile || Py.startswith (pm_outfolder pm) lockfile)
    then _make_lock_path pm lockfile
    else lockfile in
  Py.replace LOCK_PREFIX ("recover." +:+ LOCK_PREFIX) lockfile.

(** [self.completed], [self.failed], [self.halted], [self.has_exit_status] *)
Definition completed (pm : Manager) : bool := bool_decide (pm_status pm = COMPLETE_FLAG).
Definition failed (pm : Manager) : bool := bool_decide (pm_status pm = FAIL_FLAG).
Definition halted (pm : Manager) : bool := bool_decide (pm_status pm = PAUSE_FLAG).
Definition has_exit_status (pm : Manager) : bool :=
  completed pm || halted pm || failed pm.

Definition _flag_file_path (pm : Manager) (status : option Status) : string :=
  let flag_file_name :=
    pm_name pm +:+ "_" +:+ flag_name (status_token (default (pm_status pm) status)) in
  pipeline_filepath pm (Some flag_file_name) None.

Definition TAB : string := String "009" EmptyString.
Definition NL : string := String "010" EmptyString.

(** [str(x)] of a string or [None] *)
Definition str_opt (o : option string) : string := default "None" o.

(** Truth value of an optional string: [None] and the empty string are false. *)
Definition truthy (o : option string) : option string :=
  match o with
  | Some EmptyString => None
  | _ => o
  end.

(** [self.procs[pid] = info], [self.procs[pid]], [del self.procs[pid]] *)
Fixpoint procs_set (pid : Z) (info : ProcInfo) (d : list (Z * ProcInfo)) : list (Z * ProcInfo) :=
  match d with
  | [] => [(pid, info)]
  | (k, v) :: t => if (k =? pid)%Z then (k, info) :: t else (k, v) :: procs_set pid info t
  end.

Fixpoint procs_get (pid : Z) (d : list (Z * ProcInfo)) : option ProcInfo :=
  match d with
  | [] => None
  | (k, v) :: t => if (k =? pid)%Z then Some v else procs_get pid t
  end.

Fixpoint procs_del (pid : Z) (d : list (Z * ProcInfo)) : list (Z * ProcInfo) :=
  match d with
  | [] => []
  | (k, v) :: t => if (k =? pid)%Z then t else (k, v) :: procs_del pid t
  end.

(** The arguments of [run]. *)
Inductive Cmd := CmdStr (c : string) | CmdList (cs : list string).
Inductive Target := TargetNone | TargetStr (t : string) | TargetList (ts : list string).
Inductive ShellArg := ShellGuess | ShellBool (b : bool).
Inductive Follow := FollowNone | FollowNotCallable | FollowCallable (f : nat).
Inductive Category := Hwm | Peak | Rss.

Record RunArgs := {
  a_cmd : Cmd;
  a_target : Target;
  a_lock_name : option string;
  a_shell : ShellArg;
  a_nofail : bool;
  a_errmsg : option string;
  a_clean : bool;
  a_follow : Follow;
  a_container : option string;
  a_checkpoint : option string;
  a_checkpoint_filename : option string;
  a_overwrite_checkpoint : bool }.

(** ** The methods of [PipelineManager] *)

Section Manager.

Context {X : Externals}.

Definition _create_file (file : string) : M unit := open_w file.

Definition _create_file_racefree (file : string) : M unit := os_open_excl file.

Definition timestamp : M unit :=
  now <- time_time ;;
  mod_pm (set_last_timestamp now).

Definition set_status_flag (status : Status) : M unit :=
  pm <- get_pm ;;
  let flag_file_path := _flag_file_path pm None in
  try_except (os_remove flag_file_path) (fun _ => Some (ret tt)) ;;
  mod_pm (set_status status) ;;
  pm <- get_pm ;;
  _create_file (_flag_file_path pm None).

Definition _report_profile (command : string) (lock_name : option string)
    (elapsed_time : nat) (memory : Q) : M unit :=
  let message_raw :=
    command +:+ TAB +:+ " " +:+ str_opt lock_name +:+ TAB +:+
    str_timedelta elapsed_time +:+ TAB +:+ " " +:+ str_float memory in
  pm <- get_pm ;;
  open_a (pipeline_profile_file pm) (message_raw +:+ NL).

Definition _report_command (cmd : string) : M unit :=
  pm <- get_pm ;;
  open_a (pipeline_commands_file pm) (cmd +:+ NL +:+ NL).

(** *** Memory sampling *)

Record MemResult := { r_peak : Z; r_rss : Z; r_hwm : Z }.

(** The body of [for line in status] in [_memory_usage]. *)
Definition status_line (line : string) (result : MemResult) : M MemResult :=
  let parts := Py.split line in
  match parts with
  | [] => raise IndexError
  | p0 :: rest =>
      let key := Py.lower (Py.drop_last (Py.drop_chars 2 p0)) in
      if String.eqb key "peak" || String.eqb key "rss" || String.eqb key "hwm" then
        match rest with
        | [] => raise IndexError
        | p1 :: _ =>
            match Py.int p1 with
            | None => raise ValueError
            | Some v =>
                ret (if String.eqb key "peak" then {| r_peak := v; r_rss := r_rss result; r_hwm := r_hwm result |}
                     else if String.eqb key "rss" then {| r_peak := r_peak result; r_rss := v; r_hwm := r_hwm result |}
                     else {| r_peak := r_peak result; r_rss := r_rss result; r_hwm := v |})
            end
        end
      else ret result
  end.

Fixpoint status_lines (lines : list string) (result : MemResult) : M MemResult :=
  match lines with
  | [] => ret result
  | line :: rest => result <- status_line line result ;; status_lines rest result
  end.

Definition proc_spot (pid : Z) : string := "/proc/" +:+ pretty pid +:+ "/status".

(** [_memory_usage(pid, category, container)], in kB. *)
Definition _memory_usage (pid : Z) (category : Category) (container : option string) : M Q :=
  match truthy container with
  | Some c => docker_stats c
  | None =>
      let result := {| r_peak := 0; r_rss := 0; r_hwm := 0 |} in
      result <- try_finally
        (open_r (proc_spot pid) ;;
         lines <- read_lines (proc_spot pid) ;;
         status_lines lines result)
        (ret tt) ;;
      ret (inject_Z match category with
                    | Hwm => r_hwm result
                    | Peak => r_peak result
                    | Rss => r_rss result
                    end)
  end.

(** [x / 1e6] *)
Definition div_1e6 (x : Q) : Q := Qred (x / inject_Z 1000000).

(** *** Cleanup lists *)

(** [for file in files: ...] of [_cleanup], inside its [try ... except:
    pass].  The value is the loop variable [file] as the loop leaves it:
    it stays bound for the rest of the method. *)
Fixpoint remove_files (files : list string) (file : option string) : M (option string) :=
  match files with
  | [] => ret file
  | f :: rest =>
      ok <- try_except
              (isf <- os_path_isfile f ;;
               (if isf : bool then os_remove f
                else isd <- os_path_isdir f ;;
                     if isd : bool then os_rmdir f else ret tt) ;;
               ret true)
              (fun _ => Some (ret false)) ;;
      if ok : bool then remove_files rest (Some f) else ret (Some f)
  end.

(** [for expr in <list>: try: files = glob.glob(expr) ... except: pass] *)
Fixpoint remove_globs (exprs : list string) (file : option string) : M (option string) :=
  match exprs with
  | [] => ret file
  | expr :: rest =>
      files <- sys (fun w => (Ret (glob_glob (w_fs w) expr), w)) ;;
      file <- remove_files files file ;;
      remove_globs rest file
  end.

(** [for clean_item in items_to_clean: with open(self.cleanup_file, "a")
    ...]: the test is on the variable [file], not on [clean_item]; when no
    loop has bound [file], reading it raises and the [except Exception]
    around the loop ends it. *)
Fixpoint script_items (items : list string) (file : option string) : M unit :=
  match items with
  | [] => ret tt
  | clean_item :: rest =>
      pm <- get_pm ;;
      open_a (cleanup_file pm) EmptyString ;;
      match file with
      | None => raise UnboundLocalError
      | Some f =>
          isf <- os_path_isfile f ;;
          (if isf : bool then open_a (cleanup_file pm) ("rm " +:+ clean_item +:+ NL)
           else isd <- os_path_isdir f ;;
                if isd : bool then open_a (cleanup_file pm) ("rmdir " +:+ clean_item +:+ NL)
                else ret tt) ;;
          script_items rest file
      end
  end.

Definition caught_by_except_Exception (e : Exn) : bool :=
  match e with
  | KeyboardInterrupt _ => false
  | _ => true
  end.

Fixpoint script_globs (cleandirs : list string) (file : option string) : M unit :=
  match cleandirs with
  | [] => ret tt
  | cleandir :: rest =>
      try_except
        (items_to_clean <- sys (fun w => (Ret (glob_glob (w_fs w) cleandir), w)) ;;
         script_items items_to_clean file)
        (fun e => if caught_by_except_Exception e then Some (ret tt) else None) ;;
      script_globs rest file
  end.

Definition _cleanup (dry_run : bool) : M unit :=
  pm <- get_pm ;;
  (if dry_run then
     match pm_cleanup_list pm with
     | [] => ret tt
     | _ =>
         let combined_list := (pm_cleanup_list_conditional pm ++ pm_cleanup_list pm)%list in
         mod_pm (set_cleanup_lists [] combined_list)
     end
   else ret tt) ;;
  pm <- get_pm ;;
  file <- match pm_cleanup_list pm with
          | [] => ret None
          | l => remove_globs l None
          end ;;
  pm <- get_pm ;;
  match pm_cleanup_list_conditional pm with
  | [] => ret tt
  | cond =>
      let run_flag := flag_name (status_token RUN_FLAG) in
      found <- sys (fun w => (Ret (glob_glob (w_fs w) (pm_outfolder pm +:+ flag_name "*")), w)) ;;
      let flag_files :=
        filter (fun fn =>
                  negb (Py.contains (status_token COMPLETE_FLAG) (OsPath.basename fn))
                  && negb (String.eqb (pm_name pm +:+ "_" +:+ run_flag) (OsPath.basename fn)) = true)
               found in
      match flag_files, dry_run with
      | [], false => _ <- remove_globs cond file ;; ret tt
      | _, _ => script_globs cond file
      end
  end.

(** [while regex in l: l.remove(regex)] *)
Definition remove_all (regex : string) (l : list string) : list string :=
  filter (fun x => negb (String.eqb regex x) = true) l.

(** [for file in files: with open(self.cleanup_file, "a") ...] of
    [clean_add] *)
Fixpoint manual_items (files : list string) : M unit :=
  match files with
  | [] => ret tt
  | file :: rest =>
      pm <- get_pm ;;
      open_a (cleanup_file pm) EmptyString ;;
      isf <- os_path_isfile file ;;
      (if isf : bool then open_a (cleanup_file pm) ("rm " +:+ file +:+ NL)
       else isd <- os_path_isdir file ;;
            if isd : bool then
              open_a (cleanup_file pm) ("rm " +:+ file +:+ "/*" +:+ NL) ;;
              open_a (cleanup_file pm) ("rmdir " +:+ file +:+ NL)
            else ret tt) ;;
      manual_items rest
  end.

Definition clean_add (regex : string) (conditional manual : bool) : M unit :=
  pm <- get_pm ;;
  let manual := if pm_manual_clean pm then true else manual in
  if manual then
    try_except
      (files <- sys (fun w => (Ret (glob_glob (w_fs w) regex), w)) ;;
       manual_items files)
      (fun _ => Some (ret tt))
  else if conditional then
    mod_pm (fun pm => set_cleanup_lists (pm_cleanup_list pm)
                        (pm_cleanup_list_conditional pm ++ [regex])%list pm)
  else
    mod_pm (fun pm => set_cleanup_lists (pm_cleanup_list pm ++ [regex])%list
                        (remove_all regex (pm_cleanup_list_conditional pm)) pm).

(** *** The failure path *)

Definition _kill_child_process (child_pid : Z) : M unit := os_kill child_pid.

(** [for pid in self.procs.copy(): ...] *)
Fixpoint terminate_each (copy : list (Z * ProcInfo)) : M unit :=
  match copy with
  | [] => ret tt
  | (pid, _) :: rest =>
      pm <- get_pm ;;
      match procs_get pid (pm_procs pm) with
      | None => raise (PyException "KeyError")
      | Some proc_dict =>
          now <- time_time ;;
          let elapsed_time := (now - pi_start_time proc_dict)%nat in
          kb <- _memory_usage pid Hwm (pi_container proc_dict) ;;
          let process_peak_mem := div_1e6 kb in
          _report_profile (pi_proc_name proc_dict) None elapsed_time process_peak_mem ;;
          _kill_child_process pid ;;
          mod_pm (fun pm => set_procs (procs_del pid (pm_procs pm)) pm) ;;
          terminate_each rest
      end
  end.

Definition _terminate_running_subprocesses : M unit :=
  pm <- get_pm ;;
  terminate_each (pm_procs pm).

(** [for lock_file in self.locks[:]: ...] of [fail_pipeline] *)
Fixpoint recover_each (copy : list string) : M unit :=
  match copy with
  | [] => ret tt
  | lock_file :: rest =>
      pm <- get_pm ;;
      let recover_file := _recoverfile_from_lockfile pm lock_file in
      _create_file_racefree recover_file ;;
      match Py.list_remove lock_file (pm_locks pm) with
      | None => raise ValueError
      | Some l => mod_pm (set_locks l)
      end ;;
      recover_each rest
  end.

Definition fail_pipeline (e : Exn) (dynamic_recover : bool) : M unit :=
  _terminate_running_subprocesses ;;
  (if dynamic_recover then
     pm <- get_pm ;;
     recover_each (pm_locks pm)
   else ret tt) ;;
  _cleanup true ;;
  pm <- get_pm ;;
  (if negb (failed pm) then
     timestamp ;;
     set_status_flag FAIL_FLAG
   else ret tt) ;;
  raise e.

Definition _triage_error (e : Exn) (nofail : bool) : M unit :=
  if negb nofail then fail_pipeline e false
  else
    pm <- get_pm ;;
    if failed pm then raise e else ret tt.

(** [_generic_signal_handler] up to [sys.exit(1)], which is not reached:
    [fail_pipeline] raises. *)
Definition _generic_signal_handler (signal_type : string) : M unit :=
  timestamp ;;
  fail_pipeline (KeyboardInterrupt signal_type) true.

(** *** The subprocess supervisor *)

Definition caught_by_callprint (e : Exn) : bool :=
  match e with
  | OSError _ _ | CalledProcessError => true
  | _ => false
  end.

(** [while p.poll() is None: ...] of [callprint].  An exception of the
    classes its [except] clause names leaves the loop with the value
    [local_maxmem] has at that moment, which [callprint] still returns when
    [_triage_error] lets the pipeline go on. *)
Fixpoint poll_loop (polls : nat) (shell : bool) (pid : Z) (container : option string)
    (local_maxmem sleeptime : Q) : M (Q * option Exn) :=
  match polls with
  | O => poll_running ;; ret (local_maxmem, None)
  | S k =>
      poll_running ;;
      r <- (if shell then ret (inr local_maxmem)
            else try_except
                   (kb <- _memory_usage pid Hwm container ;;
                    ret (inr (Py.maxQ local_maxmem (div_1e6 kb))))
                   (fun e => if caught_by_callprint e then Some (ret (inl e)) else None)) ;;
      match r with
      | inl e => ret (local_maxmem, Some e)
      | inr local_maxmem =>
          time_sleep sleeptime ;;
          poll_loop k shell pid container local_maxmem (Py.minQ (sleeptime + 5) 60)
      end
  end.

Definition callprint (cmd : string) (shell : ShellArg) (nofail : bool)
    (container : option string) (lock_name : option string) : M (Z * Q) :=
  let cmd :=
    match truthy container with
    | Some c => "docker exec " +:+ c +:+ " " +:+ cmd
    | None => cmd
    end in
  _report_command cmd ;;
  match Py.split cmd with
  | [] => raise IndexError
  | proc_name :: _ =>
      mod_pm (set_proc_name proc_name) ;;
      let likely_shell := check_shell cmd in
      let shell := match shell with ShellGuess => likely_shell | ShellBool b => b end in
      argv <- (if shell then ret (ShellCmd cmd)
               else match shlex_split cmd with
                    | None => raise ValueError
                    | Some l => ret (DirectCmd l)
                    end) ;;
      let returncode := (-1)%Z in
      let local_maxmem := (-1)%Q in
      spawned <- try_except (p <- popen argv ;; ret (inr p))
                   (fun e => if caught_by_callprint e then Some (ret (inl e)) else None) ;;
      match spawned with
      | inl e => _triage_error e nofail ;; ret (returncode, local_maxmem)
      | inr p =>
          now <- time_time ;;
          mod_pm (fun pm => set_procs
                    (procs_set (c_pid p)
                       {| pi_proc_name := proc_name; pi_start_time := now;
                          pi_pre_block := true; pi_container := container; pi_p := p |}
                       (pm_procs pm)) pm) ;;
          let sleeptime := (1 # 4)%Q in
          pm <- get_pm ;;
          if negb (pm_wait pm) then ret (0%Z, (-1)%Q)
          else
            polled <- poll_loop (c_polls p) shell (c_pid p) container local_maxmem sleeptime ;;
            match polled with
            | (local_maxmem, Some e) => _triage_error e nofail ;; ret (returncode, local_maxmem)
            | (local_maxmem, None) =>
                let returncode := c_returncode p in
                mod_pm (fun pm => set_peak_memory (Py.maxQ (pm_peak_memory pm) local_maxmem) pm) ;;
                pm <- get_pm ;;
                match procs_get (c_pid p) (pm_procs pm) with
                | None => raise (PyException "KeyError")
                | Some info =>
                    now <- time_time ;;
                    _report_profile (pi_proc_name info) lock_name
                      (now - pi_start_time info)%nat local_maxmem ;;
                    mod_pm (fun pm => set_procs (procs_del (c_pid p) (pm_procs pm)) pm) ;;
                    (if negb (returncode =? 0)%Z then
                       _triage_error (OSError None "Subprocess returned nonzero result.") nofail
                     else ret tt) ;;
                    ret (returncode, local_maxmem)
                end
            end
      end
  end.

(** *** Waiting for a lock *)

(** [while os.path.isfile(lock_file): ...] of [_wait_for_lock]; every turn
    of the loop takes one unit of fuel. *)
Fixpoint wait_loop (fuel : nat) (lock_file : string) (first_message_flag : bool)
    (sleeptime : Q) : M bool :=
  locked <- os_path_isfile lock_file ;;
  if locked : bool then
    match fuel with
    | O => out_of_fuel
    | S fuel =>
        (if negb first_message_flag then timestamp ;; set_status_flag WAIT_FLAG
         else ret tt) ;;
        time_sleep sleeptime ;;
        wait_loop fuel lock_file true (Py.minQ (sleeptime + (5 # 2)) 60)
    end
  else ret first_message_flag.

Definition _wait_for_lock (fuel : nat) (lock_file : string) : M unit :=
  first_message_flag <- wait_loop fuel lock_file false (1 # 2)%Q ;;
  if first_message_flag : bool then timestamp ;; set_status_flag RUN_FLAG
  else ret tt.

(** [e.errno == errno.EEXIST] *)
Definition is_EEXIST (e : Exn) : bool :=
  match e with
  | OSError (Some EEXIST) _ => true
  | _ => false
  end.

Definition is_OSError (e : Exn) : bool :=
  match e with
  | OSError _ _ => true
  | _ => false
  end.

(** [try: <create the lock> except OSError as e: if e.errno ==
    errno.EEXIST: continue]: [true] when the loop is to start again, [false]
    when control falls out of the [try] statement, the lock created or the
    error dropped. *)
Definition create_or_continue (create : M unit) : M bool :=
  try_except (create ;; ret false)
    (fun e => if is_OSError e then Some (ret (is_EEXIST e)) else None).

Definition locks_append (lock_file : string) : M unit :=
  mod_pm (fun pm => set_locks (pm_locks pm ++ [lock_file])%list pm).

Definition locks_remove (lock_file : string) : M unit :=
  pm <- get_pm ;;
  match Py.list_remove lock_file (pm_locks pm) with
  | None => raise ValueError
  | Some l => mod_pm (set_locks l)
  end.

Fixpoint safe_write_loop (fuel : nat) (file lock_file message : string) : M unit :=
  locked <- os_path_isfile lock_file ;;
  if locked : bool then
    match fuel with
    | O => out_of_fuel
    | S fuel =>
        _wait_for_lock fuel lock_file ;;
        safe_write_loop fuel file lock_file message
    end
  else
    again <- create_or_continue (locks_append lock_file ;; _create_file_racefree lock_file) ;;
    if again : bool then
      match fuel with
      | O => out_of_fuel
      | S fuel => safe_write_loop fuel file lock_file message
      end
    else
      open_a file (message +:+ NL) ;;
      os_remove lock_file ;;
      locks_remove lock_file.

Definition _safe_write_to_file (fuel : nat) (file message : string) : M unit :=
  pm <- get_pm ;;
  let target := file in
  let lock_name := make_lock_name target (pm_outfolder pm) in
  let lock_file := _make_lock_path pm lock_name in
  safe_write_loop fuel file lock_file message.

(** [self.stats_dict[key] = value] *)
Fixpoint dict_set (key value : string) (d : list (string * string)) : list (string * string) :=
  match d with
  | [] => [(key, value)]
  | (k, v) :: t => if String.eqb k key then (k, value) :: t else (k, v) :: dict_set key value t
  end.

(** [report_result(key, value, annotation)] for a [value] that is already a
    string without blanks around it, as [stop_pipeline] passes. *)
Definition report_result (fuel : nat) (key value : string) (annotation : option string) : M unit :=
  pm <- get_pm ;;
  let annotation := default (pm_name pm) (truthy annotation) in
  mod_pm (fun pm => set_stats_dict (dict_set key value (pm_stats_dict pm)) pm) ;;
  let message_raw := key +:+ TAB +:+ value +:+ TAB +:+ annotation in
  _safe_write_to_file fuel (pipeline_stats_file pm) message_raw.

Definition stop_pipeline (fuel : nat) (status : Status) : M unit :=
  set_status_flag status ;;
  _cleanup false ;;
  pm <- get_pm ;;
  now <- time_time ;;
  report_result fuel "Time" (str_timedelta (now - pm_starttime pm)) None ;;
  now <- time_time ;;
  report_result fuel "Success" (time_strftime now) None ;;
  timestamp.

Definition complete (fuel : nat) : M unit := stop_pipeline fuel COMPLETE_FLAG.

Definition halt (fuel : nat) : M unit := stop_pipeline fuel PAUSE_FLAG.

(** *** The execution controller: [run] *)

(** The candidate checkpoint file names. *)
Definition check_names (a : RunArgs) : list string :=
  match a_checkpoint_filename a with
  | Some checkpoint_filename => [checkpoint_filename]
  | None =>
      match a_checkpoint a with
      | Some checkpoint =>
          [checkpoint +:+ CHECKPOINT_EXTENSION;
           translate_stage_name checkpoint +:+ CHECKPOINT_EXTENSION]
      | None => []
      end
  end.

(** [for fname in check_names: ...]: [true] for the [return 0], [false]
    when the loop ends or is left by [break]. *)
Fixpoint check_loop (overwrite : bool) (names : list string) : M bool :=
  match names with
  | [] => ret false
  | fname :: rest =>
      pm <- get_pm ;;
      let path_check_file := pipeline_filepath pm (Some fname) None in
      found <- os_path_isfile path_check_file ;;
      if found : bool then
        if overwrite then ret false else ret true
      else check_loop overwrite rest
  end.

(** [call_follow()] as decided before the loop. *)
Definition call_follow (follow : Follow) : M unit :=
  match follow with
  | FollowCallable f => call_user f
  | FollowNone | FollowNotCallable => ret tt
  end.

(** How the tests block of the loop body ends. *)
Inductive Tests := TestsBreak | TestsContinue | TestsProceed (recover_mode : bool).

Definition run_tests (fuel : nat) (a : RunArgs) (target : option string)
    (lock_file recover_file : string) (recover_mode : bool) : M Tests :=
  target_exists <-
    match target with
    | None => ret false
    | Some t =>
        there <- os_path_exists t ;;
        if there : bool then locked <- os_path_isfile lock_file ;; ret (negb locked)
        else ret false
    end ;;
  if target_exists : bool then
    pm <- get_pm ;;
    (if pm_force_follow pm then call_follow (a_follow a) else ret tt) ;;
    ret TestsBreak
  else
    locked <- os_path_isfile lock_file ;;
    if locked : bool then
      pm <- get_pm ;;
      if pm_overwrite_locks pm then ret (TestsProceed recover_mode)
      else
        recoverable <- os_path_isfile recover_file ;;
        if recoverable : bool then
          os_remove recover_file ;;
          ret (TestsProceed true)
        else
          _wait_for_lock fuel lock_file ;;
          ret TestsContinue
    else ret (TestsProceed recover_mode).

(** The lock is entered in [self.locks], then created: [true] when the
    loop is to start again. *)
Definition run_acquire (lock_file : string) (recover_mode : bool) : M bool :=
  locks_append lock_file ;;
  pm <- get_pm ;;
  if pm_overwrite_locks pm || recover_mode then
    _create_file lock_file ;;
    ret false
  else create_or_continue (_create_file_racefree lock_file).

(** [for cmd_i in cmd: ...] *)
Fixpoint run_cmd_list (cmds : list string) (a : RunArgs)
    (process_return_code : Z) (local_maxmem : Q) : M (Z * Q) :=
  match cmds with
  | [] => ret (process_return_code, local_maxmem)
  | cmd_i :: rest =>
      r <- callprint cmd_i (a_shell a) (a_nofail a) (a_container a) None ;;
      let '(list_ret, list_maxmem) := r in
      let local_maxmem := Py.maxQ local_maxmem list_maxmem in
      let process_return_code := Py.maxZ process_return_code list_ret in
      run_cmd_list rest a process_return_code local_maxmem
  end.

(** From "If you make it past these tests" to the [break]. *)
Definition run_execute (a : RunArgs) (target : option string) (lock_file : string)
    (process_return_code : Z) (local_maxmem : Q) : M Z :=
  r <- match a_cmd a with
       | CmdList cmds => run_cmd_list cmds a process_return_code local_maxmem
       | CmdStr cmd => callprint cmd (a_shell a) (a_nofail a) (a_container a) None
       end ;;
  let '(process_return_code, local_maxmem) := r in
  match target with
  | Some t => if a_clean a then clean_add t false false else ret tt
  | None => ret tt
  end ;;
  call_follow (a_follow a) ;;
  os_remove lock_file ;;
  locks_remove lock_file ;;
  ret process_return_code.

(** [while True: ...]; every [continue] takes one unit of fuel. *)
Fixpoint run_loop (fuel : nat) (a : RunArgs) (target : option string)
    (lock_file recover_file : string) (recover_mode : bool)
    (process_return_code : Z) (local_maxmem : Q) : M Z :=
  t <- run_tests fuel a target lock_file recover_file recover_mode ;;
  match t with
  | TestsBreak => ret process_return_code
  | TestsContinue =>
      match fuel with
      | O => out_of_fuel
      | S fuel =>
          run_loop fuel a target lock_file recover_file recover_mode
            process_return_code local_maxmem
      end
  | TestsProceed recover_mode =>
      again <- run_acquire lock_file recover_mode ;;
      if again : bool then
        match fuel with
        | O => out_of_fuel
        | S fuel =>
            run_loop fuel a target lock_file recover_file recover_mode
              process_return_code local_maxmem
        end
      else run_execute a target lock_file process_return_code local_maxmem
  end.

(** [if type(target) == list: target = target[0]] *)
Definition first_target (t : Target) : M (option string) :=
  match t with
  | TargetNone => ret None
  | TargetStr s => ret (Some s)
  | TargetList [] => raise IndexError
  | TargetList (s :: _) => ret (Some s)
  end.

(** [lock_name or make_lock_name(target, self.outfolder)].  The function of
    [pypiper.utils] works on strings; its failure on [None], met only when
    [lock_name] is the empty string, is an [AttributeError]. *)
Definition default_lock_name (lock_name target : option string) : M string :=
  pm <- get_pm ;;
  match truthy lock_name with
  | Some l => ret l
  | None =>
      match target with
      | Some t => ret (make_lock_name t (pm_outfolder pm))
      | None => raise AttributeError
      end
  end.

Definition run (fuel : nat) (a : RunArgs) : M Z :=
  match a_target a, a_lock_name a with
  | TargetNone, None =>
      fail_pipeline (PyException "You must provide either a target or a lock_name.") false
  | _, _ => ret tt
  end ;;
  pm <- get_pm ;;
  skip <- check_loop (pm_overwrite_checkpoints pm || a_overwrite_checkpoint a)
            (check_names a) ;;
  if skip : bool then ret 0%Z
  else
    target <- first_target (a_target a) ;;
    lock_name <- default_lock_name (a_lock_name a) target ;;
    let lock_file := _make_lock_path pm lock_name in
    let recover_file := _recoverfile_from_lockfile pm lock_file in
    let recover_mode := false in
    let process_return_code := 0%Z in
    let local_maxmem := 0%Q in
    run_loop fuel a target lock_file recover_file recover_mode
      process_return_code local_maxmem.

End Manager.

(** ** A reference implementation of the imported code

    The theorems about the manager hold for every [Externals]; the closed
    scenarios below run the manager with this one. *)

Module Reference.

(** Modelled from the spec: [pypiper.utils.check_shell] is not under src/;
    section 4.1, "inspect the command text for shell metacharacters (|, >,
    *, <, etc.)". *)
Definition check_shell (cmd : string) : bool :=
  Py.contains "|" cmd || Py.contains ">" cmd || Py.contains "*" cmd || Py.contains "<" cmd.

(** Modelled from the spec: [pypiper.utils.make_lock_name] is not under
    src/; section 4.1 step 3, "derive from target by replacing path
    separators with a safe delimiter". *)
Definition make_lock_name (original_path path_base_folder : string) : string :=
  Py.replace "/" "__" original_path.

Fixpoint join_with (sep : string) (l : list string) : string :=
  match l with
  | [] => EmptyString
  | [x] => x
  | x :: t => x +:+ sep +:+ join_with sep t
  end.

(** Modelled from the spec: [pypiper.stage.translate_stage_name] is not
    under src/; section 6, "the stage name with whitespace collapsed to a
    single separator and lowercased". *)
Definition translate_stage_name (stage : string) : string :=
  Py.lower (join_with "_" (Py.split stage)).

(** [shlex.split] on commands without quotes or escapes; [None] when the
    command has one. *)
Definition shlex_split (cmd : string) : option (list string) :=
  if Py.contains "'" cmd || Py.contains (String (ascii_of_nat 34) EmptyString) cmd || Py.contains "\" cmd
  then None else Some (Py.split cmd).

(** [fnmatch] with [*] only; a star does not cross a separator. *)
Fixpoint glob_match (pat : string) : string → bool :=
  match pat with
  | EmptyString => fun s => match s with EmptyString => true | _ => false end
  | String c pat' =>
      if Ascii.eqb c "*" then
        fix star (s : string) : bool :=
          glob_match pat' s ||
          match s with
          | EmptyString => false
          | String d s' => negb (OsPath.is_sep d) && star s'
          end
      else fun s =>
        match s with
        | EmptyString => false
        | String d s' => Ascii.eqb c d && glob_match pat' s'
        end
  end.

Definition glob_glob (fs : gmap string Node) (pat : string) : list string :=
  filter (fun p => glob_match pat p = true) (fst <$> map_to_list fs).

Definition two_digits (n : nat) : string :=
  if (n <? 10)%nat then "0" +:+ pretty n else pretty n.

(** [str(datetime.timedelta(seconds=n))] for whole seconds below a day. *)
Definition str_timedelta (n : nat) : string :=
  pretty (n / 3600)%nat +:+ ":" +:+ two_digits ((n / 60) mod 60)%nat +:+ ":" +:+
  two_digits (n mod 60)%nat.

Fixpoint zeros (n : nat) : string :=
  match n with
  | O => EmptyString
  | S k => "0" +:+ zeros k
  end.

Definition pad_left (width : nat) (s : string) : string :=
  zeros (width - String.length s) +:+ s.

(** [str] of a number: the decimal numeral of an integer, and for the other
    values the integer part and six decimals (Python prints the shortest
    float that reads back). *)
Definition str_float (q : Q) : string :=
  let q := Qred q in
  if (Z.pos (Qden q) =? 1)%Z then pretty (Qnum q)
  else
    let micro := (Qnum q * 1000000 / Z.pos (Qden q))%Z in
    (if (micro <? 0)%Z then "-" else EmptyString) +:+
    pretty (Z.abs micro / 1000000)%Z +:+ "." +:+
    pad_left 6 (pretty (Z.abs micro mod 1000000)%Z).

(** [time.strftime] of the logical clock. *)
Definition time_strftime (n : nat) : string := "T" +:+ pretty n.

#[global] Instance externals : Externals :=
  Build_Externals check_shell make_lock_name translate_stage_name shlex_split
    glob_glob str_timedelta str_float time_strftime.

End Reference.

(** ** Worlds and managers for running the model *)

Definition quiet : nat → gmap string Node → gmap string Node := fun _ fs => fs.

Definition world (fs : gmap string Node)
    (env : nat → gmap string Node → gmap string Node)
    (deny : string → option Errno) (spawn : nat → Argv → SpawnResult) : World :=
  {| w_fs := fs; w_clock := 0; w_env := env; w_deny := deny; w_spawn := spawn;
     w_docker := fun _ _ => inl CalledProcessError; w_trace := [] |}.

(** The manager as [__init__] and [start_pipeline] leave it. *)
Definition manager (name outfolder : string) : Manager :=
  {| pm_name := name; pm_outfolder := OsPath.join outfolder EmptyString;
     pm_overwrite_locks := false; pm_force_follow := false; pm_manual_clean := false;
     pm_overwrite_checkpoints := false; pm_wait := true;
     pm_status := Running; pm_locks := []; pm_procs := [];
     pm_peak_memory := 0; pm_starttime := 0; pm_last_timestamp := 0;
     pm_cleanup_list := []; pm_cleanup_list_conditional := [];
     pm_stats_dict := []; pm_proc_name := EmptyString |}.

Definition with_flags (recover force_follow overwrite_checkpoints wait : bool)
    (m : Manager) : Manager :=
  {| pm_name := pm_name m; pm_outfolder := pm_outfolder m;
     pm_overwrite_locks := recover; pm_force_follow := force_follow;
     pm_manual_clean := pm_manual_clean m;
     pm_overwrite_checkpoints := overwrite_checkpoints; pm_wait := wait;
     pm_status := pm_status m; pm_locks := pm_locks m; pm_procs := pm_procs m;
     pm_peak_memory := pm_peak_memory m; pm_starttime := pm_starttime m;
     pm_last_timestamp := pm_last_timestamp m; pm_cleanup_list := pm_cleanup_list m;
     pm_cleanup_list_conditional := pm_cleanup_list_conditional m;
     pm_stats_dict := pm_stats_dict m; pm_proc_name := pm_proc_name m |}.

(** [run(cmd, target=target)] with the defaults of the other arguments. *)
Definition run_args (cmd : Cmd) (target : Target) : RunArgs :=
  {| a_cmd := cmd; a_target := target; a_lock_name := None; a_shell := ShellGuess;
     a_nofail := false; a_errmsg := None; a_clean := false; a_follow := FollowNone;
     a_container := None; a_checkpoint := None; a_checkpoint_filename := None;
     a_overwrite_checkpoint := false |}.

Definition no_deny : string → option Errno := fun _ => None.

(** Every command starts as child [pid], is seen running [polls] times and
    exits with [code]. *)
Definition spawn_ok (pid : Z) (polls : nat) (code : Z) : nat → Argv → SpawnResult :=
  fun _ _ => Spawned {| c_pid := pid; c_polls := polls; c_returncode := code |}.

(** ** Scenarios *)

Definition out_fs : gmap string Node := <["/out/pipe_running.flag" := File EmptyString]> ∅.

Definition pipe : Manager := manager "pipe" "/out".

Definition out_lock : string := "/out/lock.out.txt".

(** [run("echo hi > out.txt", target="out.txt")] *)
Definition echo_args : RunArgs := run_args (CmdStr "echo hi > out.txt") (TargetStr "out.txt").

(** Scenario 1 of the spec: a fresh run of a single command. *)
Definition fresh_state : St :=
  {| st_pm := pipe; st_os := world out_fs quiet no_deny (spawn_ok 10 0 0) |}.

(** *** Recovery paths *)

(** The recovery path in the words of the spec (section 4.2): the prefix
    [lock.] of the filename component becomes [recover.lock.]; the
    directories stay. *)
Definition recover_path_spec (lock_path : string) : string :=
  let '(dir, name) := OsPath.cut_at_last_sep lock_path in
  dir +:+ (if Py.startswith LOCK_PREFIX name then "recover." +:+ name else name).

(** *** Lost races *)

(** Another pipeline creates the lock between the test of the loop and the
    exclusive creation (system call 2), then produces the target and removes
    its lock (system call 3). *)
Definition race_env : nat → gmap string Node → gmap string Node := fun n fs =>
  if (n =? 2)%nat then <[out_lock := File EmptyString]> fs
  else if (n =? 3)%nat then <["out.txt" := File "hi"]> (delete out_lock fs)
  else fs.

Definition race_state : St :=
  {| st_pm := pipe; st_os := world out_fs race_env no_deny (spawn_ok 10 0 0) |}.

(** The other pipeline gives up instead: its lock goes and no target comes. *)
Definition race_env_retry : nat → gmap string Node → gmap string Node := fun n fs =>
  if (n =? 2)%nat then <[out_lock := File EmptyString]> fs
  else if (n =? 3)%nat then delete out_lock fs
  else fs.

Definition race_state_retry : St :=
  {| st_pm := pipe; st_os := world out_fs race_env_retry no_deny (spawn_ok 10 0 0) |}.

(** *** Return codes of command lists *)

Definition nofail_args (cmd : Cmd) : RunArgs :=
  {| a_cmd := cmd; a_target := TargetStr "t"; a_lock_name := None; a_shell := ShellGuess;
     a_nofail := true; a_errmsg := None; a_clean := false; a_follow := FollowNone;
     a_container := None; a_checkpoint := None; a_checkpoint_filename := None;
     a_overwrite_checkpoint := false |}.

(** No program can be started. *)
Definition no_program_state : St :=
  {| st_pm := pipe; st_os := world out_fs quiet no_deny (fun _ _ => SpawnError ENOENT) |}.

(** The child is killed by signal 9 before the first poll. *)
Definition killed_child_state : St :=
  {| st_pm := pipe; st_os := world out_fs quiet no_deny (spawn_ok 77 0 (-9)) |}.

(** *** Profile rows *)

Definition profile_rows (pm : Manager) (trace : list Ev) : list string :=
  omap (fun ev =>
          match ev with
          | EvAppend p text => if String.eqb p (pipeline_profile_file pm) then Some text else None
          | _ => None
          end) trace.

(** *** Checkpoints and follow-ups *)

Definition checkpoint_fs : gmap string Node :=
  <["/out/align_reads.checkpoint" := File EmptyString]>
    (<["out.txt" := File "hi"]> out_fs).

Definition target_fs : gmap string Node := <["out.txt" := File "hi"]> out_fs.

(** [run("echo hi > out.txt", target=target, checkpoint=checkpoint,
    follow=f)] where [f] is the user's function number 1. *)
Definition follow_args (target : Target) (checkpoint : option string) : RunArgs :=
  {| a_cmd := CmdStr "echo hi > out.txt"; a_target := target; a_lock_name := None;
     a_shell := ShellGuess; a_nofail := false; a_errmsg := None; a_clean := false;
     a_follow := FollowCallable 1; a_container := None; a_checkpoint := checkpoint;
     a_checkpoint_filename := None; a_overwrite_checkpoint := false |}.

(** A manager built with [force_follow=True]. *)
Definition forcing_pipe : Manager := with_flags false true false true pipe.

Definition state_of (pm : Manager) (fs : gmap string Node) : St :=
  {| st_pm := pm; st_os := world fs quiet no_deny (spawn_ok 10 0 0) |}.

(** ** Notions used in the statements *)

(** The world after [k] system calls that change nothing themselves. *)
Definition ticks (k : nat) (w : World) : World := Nat.iter k tick w.

(** The other processes leave the paths [ps] as they are. *)
Definition env_keeps (w : World) (ps : list string) : Prop :=
  ∀ n fs p, p ∈ ps → w_env w n fs !! p = fs !! p.

(** The path [run] tests for existence. *)
Definition target_path (t : Target) : option string :=
  match t with
  | TargetNone => None
  | TargetStr s => Some s
  | TargetList ts => head ts
  end.

(** The lock file of a call of [run] whose target is [t]. *)
Definition run_lock_file `{Externals} (pm : Manager) (a : RunArgs) (t : string) : string :=
  _make_lock_path pm (default (make_lock_name t (pm_outfolder pm)) (truthy (a_lock_name a))).

(** The candidate checkpoint files of a call of [run]. *)
Definition checkpoint_paths `{Externals} (pm : Manager) (a : RunArgs) : list string :=
  (fun fname => pipeline_filepath pm (Some fname) None) <$> check_names a.

(** What a call of [call_follow()] adds to the trace. *)
Definition follow_events (follow : Follow) : list Ev :=
  match follow with
  | FollowCallable f => [EvFollow f]
  | FollowNone | FollowNotCallable => []
  end.

(** *** A lock file that cannot be created *)

(** The output folder is not writable for lock files. *)
Definition deny_out_lock : string → option Errno := fun p =>
  if String.eqb p out_lock then Some EACCES else None.

Definition denied_state : St :=
  {| st_pm := pipe; st_os := world out_fs quiet deny_out_lock (spawn_ok 10 0 0) |}.

(** *** Memory sampling without [/proc] *)

Definition status_text : string :=
  "Name:" +:+ TAB +:+ "samtools" +:+ NL +:+
  "VmPeak:" +:+ TAB +:+ "  20480 kB" +:+ NL +:+
  "VmHWM:" +:+ TAB +:+ "   5120 kB" +:+ NL +:+
  "VmRSS:" +:+ TAB +:+ "   4096 kB" +:+ NL.

Definition proc_fs : gmap string Node := <["/proc/4242/status" := File status_text]> out_fs.

(** The child is reaped, and its directory in [/proc] goes, between the
    [open] and the read of the sampler (system call 1). *)
Definition reaping_env : nat → gmap string Node → gmap string Node := fun n fs =>
  if (n =? 1)%nat then delete "/proc/4242/status" fs else fs.

(** *** Judgements on computations *)

(** From [s] to [s'] the manager keeps [f] and adds to the trace only
    events that satisfy [P]. *)
Definition evolves {T} (f : Manager → T) (P : Ev → Prop) (s s' : St) : Prop :=
  f (st_pm s') = f (st_pm s) ∧
  ∃ evs, w_trace (st_os s') = (w_trace (st_os s) ++ evs)%list ∧ Forall P evs.

(** Every run of [m] ends with a result in [Q] and moves the state along
    [R]. *)
Definition post {A} (m : M A) (Q : Res A → Prop) (R : St → St → Prop) : Prop :=
  ∀ s, Q (fst (m s)) ∧ R s (snd (m s)).

Definition returns {A} (r : Res A) : Prop := ∃ a, r = Ret a.

Definition anything {A} (r : Res A) : Prop := True.

Definition is_append (ev : Ev) : Prop := ∃ p text, ev = EvAppend p text.

Definition no_event (ev : Ev) : Prop := False.

(** The manager with one attribute blanked: two managers that agree on it
    differ in that attribute at most. *)
Definition but_procs (m : Manager) : Manager := set_procs [] m.
Definition but_locks (m : Manager) : Manager := set_locks [] m.
Definition but_cleanup_lists (m : Manager) : Manager := set_cleanup_lists [] [] m.
Definition but_status (m : Manager) : Manager :=
  set_status Initializing (set_last_timestamp 0 m).

Definition is_kill (ev : Ev) : Prop := ∃ pid, ev = EvKill pid.

Definition is_create_excl (ev : Ev) : Prop := ∃ p, ev = EvCreateExcl p.

(** The events of [fail_pipeline] before it turns to the status. *)
Definition failure_event (dynamic_recover : bool) (ev : Ev) : Prop :=
  is_append ev ∨ is_kill ev ∨ (dynamic_recover = true ∧ is_create_excl ev).

(** *** Failures of the pipeline *)

(** The state in the middle of [run("sleep 100", target="out.txt")]: the
    lock is held and the child 77 runs. *)
Definition running_pipe : Manager :=
  set_procs [(77%Z, {| pi_proc_name := "sleep"; pi_start_time := 0; pi_pre_block := true;
                       pi_container := None;
                       pi_p := {| c_pid := 77; c_polls := 5; c_returncode := 0 |} |})]
    (set_locks [out_lock] pipe).

Definition running_fs : gmap string Node :=
  <["/proc/77/status" := File status_text]> (<[out_lock := File EmptyString]> out_fs).

Definition running_state : St :=
  {| st_pm := running_pipe; st_os := world running_fs quiet no_deny (spawn_ok 77 5 0) |}.

(** The same on a system without [/proc]. *)
Definition running_state_no_proc : St :=
  {| st_pm := running_pipe;
     st_os := world (<[out_lock := File EmptyString]> out_fs) quiet no_deny (spawn_ok 77 5 0) |}.

(** A manager used with [wait] turned off, on a system without [/proc]. *)
Definition nowait_state : St :=
  {| st_pm := with_flags false false false false pipe;
     st_os := world out_fs quiet no_deny (spawn_ok 77 5 0) |}.

(** [run("echo hi", target=None, lock_name=None)] *)
Definition bare_args : RunArgs := run_args (CmdStr "echo hi") TargetNone.

(** A pipeline that fails after [complete()]: the status is [completed] and
    the lock of the failing command is held. *)
Definition completed_state : St :=
  {| st_pm := set_status Completed (set_locks [out_lock] pipe);
     st_os := world (<[out_lock := File EmptyString]>
                      (<["/out/pipe_completed.flag" := File EmptyString]> ∅))
                quiet no_deny (spawn_ok 10 0 1) |}.

Definition nonzero_exit : Exn := OSError None "Subprocess returned nonzero result.".

(** *** Invariants of the manager *)

(** Whatever its outcome, [m] moves the manager along [I]. *)
Definition maintains {A} (I : Manager → Manager → Prop) (m : M A) : Prop :=
  ∀ s, I (st_pm s) (st_pm (snd (m s))).

(** What the constructor fixes: the name, the output folder, the flags and
    the start time. *)
Definition configuration (m : Manager) :
    string * string * bool * bool * bool * bool * bool * nat :=
  (pm_name m, pm_outfolder m, pm_overwrite_locks m, pm_force_follow m,
   pm_manual_clean m, pm_overwrite_checkpoints m, pm_wait m, pm_starttime m).

(** ** Checkpoints *)

Section Checkpoint.

Context {X : Externals}.

(** [touch_checkpoint(check_file)] *)
Definition touch_checkpoint (check_file : string) : M bool :=
  pm <- get_pm ;;
  fpath <-
    (if OsPath.isabs check_file then
       let '(folder, _) := OsPath.split check_file in
       let other_folder := OsPath.join folder EmptyString in
       let this_folder := OsPath.join (pm_outfolder pm) EmptyString in
       if negb (String.eqb other_folder this_folder) then raise ValueError
       else ret check_file
     else ret (pipeline_filepath pm (Some check_file) None)) ;;
  already_exists <- os_path_isfile fpath ;;
  open_w fpath ;;
  ret already_exists.

End Checkpoint.


(** Whether an absolute checkpoint path lies directly in the output
    folder, as [touch_checkpoint] tests it. *)
Definition in_outfolder (pm : Manager) (check_file : string) : bool :=
  String.eqb (OsPath.join (fst (OsPath.split check_file)) EmptyString)
             (OsPath.join (pm_outfolder pm) EmptyString).

(** The peak memory does not go down. *)
Definition peak_le (m m' : Manager) : Prop :=
  (pm_peak_memory m <= pm_peak_memory m')%Q.

(** The configuration stays. *)
Definition same_configuration (m m' : Manager) : Prop :=
  configuration m' = configuration m.

(** *** Waiting *)


(** Another pipeline holds the lock of [out.txt] and releases it, the
    target written, before system call [n]. *)
Definition release_env (n : nat) : nat → gmap string Node → gmap string Node :=
  fun k fs =>
    if (k =? n)%nat then <["out.txt" := File "hi"]> (delete out_lock fs) else fs.

Definition contended_state (n : nat) : St :=
  {| st_pm := pipe;
     st_os := world (<[out_lock := File EmptyString]> out_fs) (release_env n) no_deny
                (spawn_ok 10 0 0) |}.

(** *** Cleanup *)

Definition finishes {A} (r : Res A) : Prop := r ≠ OutOfFuel.

(** What [_cleanup] does to the world: it appends to the cleanup script,
    and, when the run is not a dry one, it removes files and directories. *)
Definition cleanup_event (dry_run : bool) (ev : Ev) : Prop :=
  match ev with
  | EvAppend _ _ => True
  | EvRemove _ | EvRmdir _ => dry_run = false
  | _ => False
  end.

(** An output folder with an intermediate file in it. *)
Definition tmp_fs : gmap string Node := <["/out/tmp.sam" := File "reads"]> out_fs.


(** *** The supervisor *)

(** The value of [shell] after [if shell == "guess": shell = likely_shell]. *)
Definition resolved_shell {X : Externals} (shell : ShellArg) (cmd : string) : bool :=
  match shell with
  | ShellGuess => check_shell cmd
  | ShellBool b => b
  end.

Definition nonzero : Exn := OSError None "Subprocess returned nonzero result.".

(** A child that exits with code 3 after two polls. *)
Definition failing_child_state : St :=
  {| st_pm := pipe; st_os := world out_fs quiet no_deny (spawn_ok 10 2 3) |}.

(** *** Executions *)

(** From [w] to [w'] the rest of the system, the permissions and the
    programs are the same, the path [p] holds what it held, and the events
    [evs] were added to the trace. *)
Definition extends (p : string) (evs : list Ev) (w w' : World) : Prop :=
  w_env w' = w_env w ∧ w_deny w' = w_deny w ∧ w_spawn w' = w_spawn w ∧
  w_fs w' !! p = w_fs w !! p ∧
  w_trace w' = (w_trace w ++ evs)%list.



(** ** Statistics *)

Module Str.

(** [s.split(sep)] for a separator of one character: the fields between
    the separators, empty ones too; at least one field. *)
Fixpoint split_on (sep : ascii) (s : string) : list string :=
  match s with
  | EmptyString => [EmptyString]
  | String c t =>
      if Ascii.eqb c sep then EmptyString :: split_on sep t
      else match split_on sep t with
           | h :: r => String c h :: r
           | [] => [String c EmptyString]
           end
  end.

(** [s.lstrip()], [s.rstrip()], [s.strip()] *)
Fixpoint lstrip (s : string) : string :=
  match s with
  | EmptyString => EmptyString
  | String c t => if Py.is_space c then lstrip t else s
  end.

Fixpoint rstrip (s : string) : string :=
  match s with
  | EmptyString => EmptyString
  | String c t =>
      match rstrip t with
      | EmptyString => if Py.is_space c then EmptyString else String c EmptyString
      | t' => String c t'
      end
  end.

Definition strip (s : string) : string := rstrip (lstrip s).

(** [for line in f]: the lines of a text, each with its line feed. *)
Fixpoint lines (s : string) : list string :=
  match s with
  | EmptyString => []
  | String c t =>
      if Ascii.eqb c "010" then String c EmptyString :: lines t
      else match lines t with
           | h :: r => String c h :: r
           | [] => [String c EmptyString]
           end
  end.

(** No character of [s] satisfies [f]. *)
Fixpoint free_of (f : ascii → bool) (s : string) : bool :=
  match s with
  | EmptyString => true
  | String c t => negb (f c) && free_of f t
  end.

End Str.

(** [self.stats_dict[key]]; [None] stands for [KeyError]. *)
Fixpoint dict_get (key : string) (d : list (string * string)) : option string :=
  match d with
  | [] => None
  | (k, v) :: t => if String.eqb k key then Some v else dict_get key t
  end.

(** [with open(p, 'r') as f: for line in f]: the lines are those the file
    has when it is opened. *)
Definition open_lines (p : string) : M (list string) :=
  sys (fun w =>
    match w_fs w !! p with
    | Some (File c) => (Ret (Str.lines c), w)
    | Some Dir => (Raise (IOError EISDIR), w)
    | None => (Raise (IOError ENOENT), w)
    end).

(** [for line in stat_file: ...] of [_refresh_stats].  A line that has not
    three columns leaves [key], [value] and [annotation] as the line before
    bound them, and the test after the [try] statement reads them: [None]
    when no line has bound them yet. *)
Fixpoint refresh_lines (lines : list string) (bound : option (string * string * string))
    : M unit :=
  match lines with
  | [] => ret tt
  | line :: rest =>
      let bound :=
        match Str.split_on "009" line with
        | [key; value; annotation] => Some (key, value, annotation)
        | _ => bound
        end in
      match bound with
      | None => raise UnboundLocalError
      | Some (key, value, annotation) =>
          pm <- get_pm ;;
          (if String.eqb (Str.rstrip annotation) (pm_name pm)
              || String.eqb (Str.rstrip annotation) "shared"
           then mod_pm (fun pm => set_stats_dict
                                    (dict_set key (Str.strip value) (pm_stats_dict pm)) pm)
           else ret tt) ;;
          refresh_lines rest bound
      end
  end.

Definition _refresh_stats : M unit :=
  pm <- get_pm ;;
  let stats_file := pipeline_stats_file pm in
  isf <- os_path_isfile (pipeline_stats_file pm) ;;
  if isf : bool then
    lines <- open_lines stats_file ;;
    refresh_lines lines None
  else ret tt.

Definition get_stat (key : string) : M (option string) :=
  pm <- get_pm ;;
  match dict_get key (pm_stats_dict pm) with
  | Some v => ret (Some v)
  | None =>
      _refresh_stats ;;
      pm <- get_pm ;;
      ret (dict_get key (pm_stats_dict pm))
  end.

(** The row [report_result] writes to the stats file. *)
Definition stats_row (key value annotation : string) : string :=
  (key +:+ TAB +:+ value +:+ TAB +:+ annotation) +:+ NL.

(** The lock file of the stats file. *)
Definition stats_lock `{Externals} (pm : Manager) : string :=
  _make_lock_path pm (make_lock_name (pipeline_stats_file pm) (pm_outfolder pm)).

Definition is_tab (c : ascii) : bool := Ascii.eqb c "009".
Definition is_nl (c : ascii) : bool := Ascii.eqb c "010".

(** A stats file in which a row of another tool precedes the rows of the
    pipeline. *)
Definition foreign_stats_fs : gmap string Node :=
  <["/out/stats.tsv" := File ("generated by hand" +:+ NL +:+
                              stats_row "Reads" "12" "pipe")]> out_fs.

Definition stats_fs : gmap string Node :=
  <["/out/stats.tsv" := File (stats_row "Time" "0:00:05" "other" +:+
                              stats_row "Reads" "12" "pipe")]> out_fs.

(** A field of a row: neither a tab nor a line feed in it. *)
Definition plain (s : string) : bool := Str.free_of (fun c => is_tab c || is_nl c) s.

(** What a stats file may hold before a row for the rows after it to be
    read: nothing, or complete lines the first of which has three columns. *)
Definition rows_before (c0 : string) : Prop :=
  c0 = EmptyString ∨
  (∃ c1, c0 = c1 +:+ NL) ∧
  ∃ line rest, Str.lines c0 = line :: rest ∧ List.length (Str.split_on "009" line) = 3%nat.

(** *** The status at the end *)

Definition is_sleep (ev : Ev) : bool :=
  match ev with
  | EvSleep _ => true
  | _ => false
  end.

(** The manager slept: it waited for a lock. *)
Definition has_sleep (evs : list Ev) : bool := existsb is_sleep evs.

(** A computation that leaves the status alone unless it waits for a lock,
    and that leaves the status [running] when it has waited. *)
Definition tracks {A} (m : M A) : Prop :=
  ∀ s, ∃ evs,
    w_trace (st_os (snd (m s))) = (w_trace (st_os s) ++ evs)%list ∧
    (fst (m s) = OutOfFuel ∨
     pm_status (st_pm (snd (m s))) =
       if has_sleep evs then Running else pm_status (st_pm s)).

(** The lock of the stats file is held by another pipeline, which releases
    it before system call [n]. *)
Definition stats_release_env (n : nat) : nat → gmap string Node → gmap string Node :=
  fun k fs => if (k =? n)%nat then delete "/out/lock.__out__stats.tsv" fs else fs.

Definition stats_contended_state (n : nat) : St :=
  {| st_pm := pipe;
     st_os := world (<["/out/lock.__out__stats.tsv" := File EmptyString]> out_fs)
                (stats_release_env n) no_deny (spawn_ok 10 0 0) |}.

(** *** Exit *)

(** [os.chmod(p, 0o755)] *)
Definition os_chmod (p : string) : M unit :=
  sys (fun w =>
    match w_fs w !! p with
    | Some _ => (Ret tt, w)
    | None => (Raise (OSError (Some ENOENT) "No such file or directory"), w)
    end).

Section Exit.

Context {X : Externals}.

Definition _exit_handler : M unit :=
  pm <- get_pm ;;
  isf <- os_path_isfile (cleanup_file pm) ;;
  (if isf : bool then
     open_a (cleanup_file pm) ("rm " +:+ cleanup_file pm +:+ NL) ;;
     os_chmod (cleanup_file pm)
   else ret tt) ;;
  pm <- get_pm ;;
  if negb (has_exit_status pm) then fail_pipeline (PyException "Unknown exit failure") false
  else ret tt.

End Exit.

(** What [_exit_handler] adds to the cleanup script when there is one. *)
Definition self_destruct (pm : Manager) (fs : gmap string Node) : list Ev :=
  if is_file fs (cleanup_file pm)
  then [EvAppend (cleanup_file pm) ("rm " +:+ cleanup_file pm +:+ NL)]
  else [].

(** *** Signals *)

(** A pipeline that holds the lock of [out.txt] when it is interrupted. *)
Definition interrupted_state : St :=
  {| st_pm := set_locks [out_lock] pipe;
     st_os := world (<[out_lock := File EmptyString]> out_fs) quiet no_deny
                (spawn_ok 10 0 0) |}.
(** * Checks of the string and path functions *)

Example py_split_cmd : Py.split "  samtools  view -b x.bam " = ["samtools"; "view"; "-b"; "x.bam"].
Proof. reflexivity. Qed.

Example py_replace_twice : Py.replace "ab" "X" "abcabab" = "XcXX".
Proof. reflexivity. Qed.

Example py_int_examples :
  Py.int "1234" = Some 1234%Z ∧ Py.int "-7" = Some (-7)%Z ∧ Py.int "kB" = None ∧ Py.int "-" = None.
Proof. repeat split; reflexivity. Qed.

Example ospath_split_examples :
  OsPath.split "/a/b/lock.c" = ("/a/b", "lock.c") ∧
  OsPath.split "lock.c" = (EmptyString, "lock.c") ∧
  OsPath.split "/lock.c" = ("/", "lock.c") ∧
  OsPath.split "a//b" = ("a", "b").
Proof. repeat split; reflexivity. Qed.

Example ospath_join_examples :
  OsPath.join "/out/" "x" = "/out/x" ∧ OsPath.join "/out" "x" = "/out/x" ∧
  OsPath.join "/out/" "/abs" = "/abs" ∧ OsPath.join "/out" EmptyString = "/out/".
Proof. repeat split; reflexivity. Qed.

Example fresh_run :
  let r := run 1 echo_args fresh_state in
  fst r = Ret 0%Z ∧
  pm_locks (st_pm (snd r)) = [] ∧
  w_fs (st_os (snd r)) !! out_lock = None ∧
  w_trace (st_os (snd r)) =
    [EvCreateExcl out_lock;
     EvAppend "/out/pipe_commands.sh" ("echo hi > out.txt" +:+ NL +:+ NL);
     EvPopen (ShellCmd "echo hi > out.txt");
     EvAppend "/out/pipe_profile.tsv"
       ("echo" +:+ TAB +:+ " None" +:+ TAB +:+ "0:00:01" +:+ TAB +:+ " -1" +:+ NL);
     EvRemove out_lock].
Proof. vm_compute. repeat split; reflexivity. Qed.

(** Shell-mode inference, boundary cases of the spec. *)
Example shell_inference :
  Reference.check_shell "a | b" = true ∧ Reference.check_shell "a b c" = false.
Proof. split; reflexivity. Qed.

Example recover_path_plain :
  _recoverfile_from_lockfile pipe out_lock = "/out/recover.lock.out.txt" ∧
  recover_path_spec out_lock = "/out/recover.lock.out.txt".
Proof. split; reflexivity. Qed.

(** C5 (fails on the code).  The recovery path is computed by replacing
    every occurrence of [lock.] in the whole lock path.  For the target
    [block.txt] the lock file is [/out/lock.block.txt] and the recovery file
    [/out/recover.lock.brecover.lock.txt], not [/out/recover.lock.block.txt];
    with the output folder [/data/lock.d/] the directory itself is renamed. *)
Theorem recoverfile_replaces_every_occurrence :
  let lock_file := _make_lock_path pipe (Reference.make_lock_name "block.txt" "/out/") in
  lock_file = "/out/lock.block.txt" ∧
  _recoverfile_from_lockfile pipe lock_file = "/out/recover.lock.brecover.lock.txt" ∧
  recover_path_spec lock_file = "/out/recover.lock.block.txt" ∧
  let pm := manager "pipe" "/data/lock.d" in
  _make_lock_path pm "lock.x" = "/data/lock.d/lock.x" ∧
  _recoverfile_from_lockfile pm "/data/lock.d/lock.x" = "/data/recover.lock.d/recover.lock.x" ∧
  recover_path_spec "/data/lock.d/lock.x" = "/data/lock.d/recover.lock.x".
Proof. vm_compute. repeat split; reflexivity. Qed.

(** C4 (fails on the code).  [run] enters the lock path in [self.locks]
    before it creates the file, and the restart after a lost race does not
    take it out.  In the first run below this process creates no lock file at
    all, and [run] returns 0 with the path in [locks]; [complete()] leaves it
    there, and a later SIGTERM writes a recovery file for a lock this
    process never held.  In the second run the path is entered twice and
    removed once. *)
Theorem lost_race_leaves_lock_in_locks :
  let r := run 1 echo_args race_state in
  fst r = Ret 0%Z ∧
  pm_locks (st_pm (snd r)) = [out_lock] ∧
  w_trace (st_os (snd r)) = [] ∧
  w_fs (st_os (snd r)) !! out_lock = None ∧
  (let c := complete 1 (snd r) in
   fst c = Ret tt ∧ pm_status (st_pm (snd c)) = Completed ∧
   pm_locks (st_pm (snd c)) = [out_lock]) ∧
  (let k := _generic_signal_handler "SIGTERM" (snd r) in
   In (EvCreateExcl "/out/recover.lock.out.txt") (w_trace (st_os (snd k)))) ∧
  let r2 := run 1 echo_args race_state_retry in
  fst r2 = Ret 0%Z ∧
  pm_locks (st_pm (snd r2)) = [out_lock] ∧
  w_fs (st_os (snd r2)) !! out_lock = None.
Proof. vm_compute. repeat split; try reflexivity. left; reflexivity. Qed.

(** C7 (fails on the code).  The return codes of a list are folded with
    [max] from the initial value 0, so a list whose codes are all negative
    returns 0: [run(["nosuchprogram"], target="t", nofail=True)] returns 0
    though the only command returned -1, and a child killed by signal 9
    (return code -9) gives 0 as well.  The same commands passed as single
    strings return -1 and -9. *)
Theorem list_return_code_starts_from_zero :
  fst (callprint "nosuchprogram" ShellGuess true None None no_program_state) = Ret ((-1)%Z, (-1)%Q) ∧
  fst (run 1 (nofail_args (CmdList ["nosuchprogram"])) no_program_state) = Ret 0%Z ∧
  fst (run 1 (nofail_args (CmdStr "nosuchprogram")) no_program_state) = Ret (-1)%Z ∧
  fst (run 1 (nofail_args (CmdList ["sleep 100"])) killed_child_state) = Ret 0%Z ∧
  fst (run 1 (nofail_args (CmdStr "sleep 100")) killed_child_state) = Ret (-9)%Z.
Proof. vm_compute. repeat split; reflexivity. Qed.

(** C8 (fails on the code).  [run] calls [callprint] without its
    [lock_name] argument, so the second column of every row it produces is
    [str(None)]: the fresh run of scenario 1 holds [/out/lock.out.txt] and
    appends the single row ["echo\t None\t0:00:01\t -1\n"].  The first and
    the third tab are followed by a blank. *)
Theorem profile_row_has_no_lock_name :
  let r := run 1 echo_args fresh_state in
  In (EvCreateExcl out_lock) (w_trace (st_os (snd r))) ∧
  profile_rows pipe (w_trace (st_os (snd r))) =
    ["echo" +:+ TAB +:+ " None" +:+ TAB +:+ "0:00:01" +:+ TAB +:+ " -1" +:+ NL].
Proof. vm_compute. split; [left|]; reflexivity. Qed.


(** * The monad and the system calls *)

Lemma bind_Ret {A B} (m : M A) (k : A → M B) s a s' :
  m s = (Ret a, s') → bind m k s = k a s'.
Proof. intros H. unfold bind. rewrite H. reflexivity. Qed.

Lemma bind_Raise {A B} (m : M A) (k : A → M B) s e s' :
  m s = (Raise e, s') → bind m k s = (Raise e, s').
Proof. intros H. unfold bind. rewrite H. reflexivity. Qed.

Lemma bind_inv_Ret {A B} (m : M A) (k : A → M B) s b s' :
  bind m k s = (Ret b, s') → ∃ a s1, m s = (Ret a, s1) ∧ k a s1 = (Ret b, s').
Proof.
  unfold bind. destruct (m s) as [[a|e|] s1]; intros H; try discriminate.
  eauto.
Qed.

Lemma ticks_S k w : ticks (S k) w = tick (ticks k w).
Proof. reflexivity. Qed.

Lemma ticks_tick k w : ticks k (tick w) = ticks (S k) w.
Proof.
  induction k as [|k IH]; [reflexivity|].
  rewrite ticks_S, IH. reflexivity.
Qed.

Lemma ticks_trace k w : w_trace (ticks k w) = w_trace w.
Proof. induction k as [|k IH]; [reflexivity|]. rewrite ticks_S. exact IH. Qed.

Lemma ticks_env k w : w_env (ticks k w) = w_env w.
Proof. induction k as [|k IH]; [reflexivity|]. rewrite ticks_S. exact IH. Qed.

Lemma env_keeps_tick w ps : env_keeps w ps → env_keeps (tick w) ps.
Proof. intros H n fs p Hp. exact (H n fs p Hp). Qed.

Lemma env_keeps_ticks k w ps : env_keeps w ps → env_keeps (ticks k w) ps.
Proof.
  intros H n fs p Hp. rewrite ticks_env. exact (H n fs p Hp).
Qed.

Lemma env_keeps_incl w ps qs : env_keeps w ps → qs ⊆ ps → env_keeps w qs.
Proof. intros H Hi n fs p Hp. apply H, Hi, Hp. Qed.

Lemma lookup_tick w ps p :
  env_keeps w ps → p ∈ ps → w_fs (tick w) !! p = w_fs w !! p.
Proof. intros H Hp. exact (H _ _ _ Hp). Qed.

Lemma lookup_ticks k w ps p :
  env_keeps w ps → p ∈ ps → w_fs (ticks k w) !! p = w_fs w !! p.
Proof.
  intros H Hp. induction k as [|k IH]; [reflexivity|].
  rewrite ticks_S, (lookup_tick _ ps) by (auto using env_keeps_ticks). exact IH.
Qed.

Lemma is_file_ticks k w ps p :
  env_keeps w ps → p ∈ ps → is_file (w_fs (ticks k w)) p = is_file (w_fs w) p.
Proof. intros H Hp. unfold is_file. rewrite (lookup_ticks k w ps p H Hp). reflexivity. Qed.

Lemma path_exists_ticks k w ps p :
  env_keeps w ps → p ∈ ps → path_exists (w_fs (ticks k w)) p = path_exists (w_fs w) p.
Proof. intros H Hp. unfold path_exists. rewrite (lookup_ticks k w ps p H Hp). reflexivity. Qed.

Lemma os_path_isfile_eq p m w :
  os_path_isfile p {| st_pm := m; st_os := w |} =
  (Ret (is_file (w_fs (tick w)) p), {| st_pm := m; st_os := tick w |}).
Proof. reflexivity. Qed.

Lemma os_path_exists_eq p m w :
  os_path_exists p {| st_pm := m; st_os := w |} =
  (Ret (path_exists (w_fs (tick w)) p), {| st_pm := m; st_os := tick w |}).
Proof. reflexivity. Qed.

Lemma call_follow_eq follow m w :
  ∃ w', call_follow follow {| st_pm := m; st_os := w |} = (Ret tt, {| st_pm := m; st_os := w' |})
        ∧ w_trace w' = (w_trace w ++ follow_events follow)%list.
Proof.
  destruct follow as [| |f]; cbn.
  - exists w. split; [reflexivity|]. symmetry. apply app_nil_r.
  - exists w. split; [reflexivity|]. symmetry. apply app_nil_r.
  - eexists. split; reflexivity.
Qed.

(** * The checkpoint short-circuit *)

Section Checkpoints.

Context {X : Externals}.

Lemma check_loop_pass overwrite names m w :
  env_keeps w ((fun f => pipeline_filepath m (Some f) None) <$> names) →
  (overwrite = true ∨
   ∀ p, p ∈ (fun f => pipeline_filepath m (Some f) None) <$> names → is_file (w_fs w) p = false) →
  ∃ k, check_loop overwrite names {| st_pm := m; st_os := w |} =
       (Ret false, {| st_pm := m; st_os := ticks k w |}).
Proof.
  revert w. induction names as [|f names IH]; intros w Hk Hc.
  - exists 0%nat. reflexivity.
  - cbn [check_loop]. unfold bind at 1. cbn [get_pm st_pm].
    unfold bind at 1. rewrite os_path_isfile_eq.
    destruct (is_file (w_fs (tick w)) (pipeline_filepath m (Some f) None)) eqn:Hf.
    + destruct Hc as [-> | Hc].
      * exists 1%nat. reflexivity.
      * exfalso. change (tick w) with (ticks 1 w) in Hf.
        rewrite (is_file_ticks 1 w _ _ Hk) in Hf by (rewrite fmap_cons; left).
        rewrite Hc in Hf by (rewrite fmap_cons; left). discriminate.
    + destruct (IH (tick w)) as [k Hk'].
      * apply env_keeps_tick. eapply env_keeps_incl; [exact Hk|].
        rewrite fmap_cons. apply list_subseteq_cons. reflexivity.
      * destruct Hc as [-> | Hc]; [left; reflexivity | right].
        intros p Hp. change (tick w) with (ticks 1 w).
        rewrite (is_file_ticks 1 w _ _ Hk) by (rewrite fmap_cons; right; exact Hp).
        apply Hc. rewrite fmap_cons. right. exact Hp.
      * exists (S k). rewrite Hk', ticks_tick. reflexivity.
Qed.

Lemma check_loop_skip names m w :
  env_keeps w ((fun f => pipeline_filepath m (Some f) None) <$> names) →
  (∃ p, p ∈ (fun f => pipeline_filepath m (Some f) None) <$> names ∧ is_file (w_fs w) p = true) →
  ∃ k, check_loop false names {| st_pm := m; st_os := w |} =
       (Ret true, {| st_pm := m; st_os := ticks k w |}).
Proof.
  revert w. induction names as [|f names IH]; intros w Hk [p [Hp Hf]].
  - rewrite fmap_nil in Hp. inversion Hp.
  - cbn [check_loop]. unfold bind at 1. cbn [get_pm st_pm].
    unfold bind at 1. rewrite os_path_isfile_eq.
    destruct (is_file (w_fs (tick w)) (pipeline_filepath m (Some f) None)) eqn:Hf1.
    + exists 1%nat. reflexivity.
    + rewrite fmap_cons in Hp. apply elem_of_cons in Hp as [-> | Hp].
      * exfalso. change (tick w) with (ticks 1 w) in Hf1.
        rewrite (is_file_ticks 1 w _ _ Hk) in Hf1 by (rewrite fmap_cons; left).
        congruence.
      * destruct (IH (tick w)) as [k Hk'].
        -- apply env_keeps_tick. eapply env_keeps_incl; [exact Hk|].
           rewrite fmap_cons. apply list_subseteq_cons. reflexivity.
        -- exists p. split; [exact Hp|]. change (tick w) with (ticks 1 w).
           rewrite (is_file_ticks 1 w _ _ Hk) by (rewrite fmap_cons; right; exact Hp).
           exact Hf.
        -- exists (S k). rewrite Hk', ticks_tick. reflexivity.
Qed.

End Checkpoints.

(** * Skipping in [run] *)

Section Skipping.

Context {X : Externals}.

Lemma run_loop_eq fuel a target lock_file recover_file recover_mode prc lmm :
  run_loop fuel a target lock_file recover_file recover_mode prc lmm =
  (t <- run_tests fuel a target lock_file recover_file recover_mode ;;
   match t with
   | TestsBreak => ret prc
   | TestsContinue =>
       match fuel with
       | O => out_of_fuel
       | S fuel => run_loop fuel a target lock_file recover_file recover_mode prc lmm
       end
   | TestsProceed recover_mode =>
       again <- run_acquire lock_file recover_mode ;;
       if again : bool then
         match fuel with
         | O => out_of_fuel
         | S fuel => run_loop fuel a target lock_file recover_file recover_mode prc lmm
         end
       else run_execute a target lock_file prc lmm
   end).
Proof. destruct fuel; reflexivity. Qed.

Lemma first_target_eq t p s :
  target_path t = Some p → first_target t s = (Ret (Some p), s).
Proof.
  destruct t as [|x|[|x l]]; simpl; intros H; inversion H; reflexivity.
Qed.

Lemma default_lock_name_eq lock_name t m w :
  default_lock_name lock_name (Some t) {| st_pm := m; st_os := w |} =
  (Ret (default (make_lock_name t (pm_outfolder m)) (truthy lock_name)),
   {| st_pm := m; st_os := w |}).
Proof.
  unfold default_lock_name. cbn [bind get_pm st_pm].
  destruct (truthy lock_name); reflexivity.
Qed.

(** The tests block on an existing target without lock. *)
Lemma run_tests_target_exists fuel a t lock_file recover_file recover_mode m w :
  env_keeps w [t; lock_file] →
  path_exists (w_fs w) t = true →
  is_file (w_fs w) lock_file = false →
  ∃ w', run_tests fuel a (Some t) lock_file recover_file recover_mode
          {| st_pm := m; st_os := w |} = (Ret TestsBreak, {| st_pm := m; st_os := w' |})
        ∧ w_trace w' =
          (w_trace w ++ if pm_force_follow m then follow_events (a_follow a) else [])%list.
Proof.
  intros Hk Ht Hl. unfold run_tests.
  unfold bind at 1. unfold bind at 1. rewrite os_path_exists_eq.
  change (tick w) with (ticks 1 w).
  rewrite (path_exists_ticks 1 w _ t Hk) by (left). rewrite Ht.
  unfold bind at 1. rewrite os_path_isfile_eq. rewrite <- ticks_S.
  rewrite (is_file_ticks 2 w _ lock_file Hk) by (right; left). rewrite Hl.
  cbn [negb ret]. unfold bind at 1. cbn [get_pm st_pm].
  destruct (pm_force_follow m).
  - destruct (call_follow_eq (a_follow a) m (ticks 2 w)) as [w' [E T]].
    unfold bind at 1. rewrite E. exists w'. split; [reflexivity|].
    rewrite T, ticks_trace. reflexivity.
  - exists (ticks 2 w). split; [reflexivity|].
    rewrite ticks_trace. symmetry. apply app_nil_r.
Qed.

(** C1 (amended).  When the checkpoint short-circuit does not end the call
    (no candidate checkpoint file exists, or an overwrite flag is set), a
    call of [run] whose target exists and has no lock file returns 0, leaves
    the manager as it was and makes no system call that acts on a file or a
    process (so it spawns no child), except that it calls the follow-up
    function, once, if and only if [force_follow] is set and a callable was
    given.  The other processes may do anything but touch the target, the
    lock file and the checkpoint files. *)
Theorem run_skips_existing_target fuel a m w t :
  target_path (a_target a) = Some t →
  env_keeps w (t :: run_lock_file m a t :: checkpoint_paths m a) →
  path_exists (w_fs w) t = true →
  is_file (w_fs w) (run_lock_file m a t) = false →
  (pm_overwrite_checkpoints m || a_overwrite_checkpoint a = true ∨
   ∀ p, p ∈ checkpoint_paths m a → is_file (w_fs w) p = false) →
  ∃ w', run fuel a {| st_pm := m; st_os := w |} = (Ret 0%Z, {| st_pm := m; st_os := w' |})
        ∧ w_trace w' =
          (w_trace w ++ if pm_force_follow m then follow_events (a_follow a) else [])%list.
Proof.
  intros Ht Hk He Hl Hc. unfold run.
  assert (Hpre : ∀ s, match a_target a, a_lock_name a with
                      | TargetNone, None =>
                          fail_pipeline
                            (PyException "You must provide either a target or a lock_name.") false
                      | _, _ => ret tt
                      end s = (Ret tt, s)).
  { intros s. destruct (a_target a); [discriminate Ht| |]; destruct (a_lock_name a); reflexivity. }
  rewrite (bind_Ret _ _ _ _ _ (Hpre _)).
  unfold bind at 1. cbn [get_pm st_pm].
  destruct (check_loop_pass (pm_overwrite_checkpoints m || a_overwrite_checkpoint a)
              (check_names a) m w) as [k Hck].
  { eapply env_keeps_incl; [exact Hk|]. do 2 apply list_subseteq_cons. reflexivity. }
  { exact Hc. }
  rewrite (bind_Ret _ _ _ _ _ Hck).
  rewrite (bind_Ret _ _ _ _ _ (first_target_eq _ _ _ Ht)).
  rewrite (bind_Ret _ _ _ _ _ (default_lock_name_eq _ _ _ _)).
  rewrite run_loop_eq.
  destruct (run_tests_target_exists fuel a t (run_lock_file m a t)
              (_recoverfile_from_lockfile m (run_lock_file m a t)) false m (ticks k w))
    as [w' [E T]].
  { apply env_keeps_ticks. eapply env_keeps_incl; [exact Hk|].
    apply list_subseteq_skip, list_subseteq_skip, list_subseteq_nil. }
  { rewrite (path_exists_ticks k w _ t Hk) by left. exact He. }
  { rewrite (is_file_ticks k w _ _ Hk) by (right; left). exact Hl. }
  unfold run_lock_file in E.
  rewrite (bind_Ret _ _ _ _ _ E).
  exists w'. split; [reflexivity|]. rewrite T, ticks_trace. reflexivity.
Qed.

(** C2 (amended).  When a target or a lock name is given, a candidate
    checkpoint file exists and neither overwrite flag is set, [run] returns
    0; the manager is as it was (its [locks] too) and the manager has made no
    system call but tests of file existence: no child is spawned and no
    lock file is created or removed. *)
Theorem run_checkpoint_short_circuit fuel a m w :
  (a_target a ≠ TargetNone ∨ a_lock_name a ≠ None) →
  pm_overwrite_checkpoints m = false →
  a_overwrite_checkpoint a = false →
  env_keeps w (checkpoint_paths m a) →
  (∃ p, p ∈ checkpoint_paths m a ∧ is_file (w_fs w) p = true) →
  ∃ k, run fuel a {| st_pm := m; st_os := w |} =
         (Ret 0%Z, {| st_pm := m; st_os := ticks k w |})
       ∧ w_trace (ticks k w) = w_trace w.
Proof.
  intros Hpre Ho1 Ho2 Hk Hex. unfold run.
  assert (Hok : ∀ s, match a_target a, a_lock_name a with
                     | TargetNone, None =>
                         fail_pipeline
                           (PyException "You must provide either a target or a lock_name.") false
                     | _, _ => ret tt
                     end s = (Ret tt, s)).
  { intros s. destruct (a_target a), (a_lock_name a); try reflexivity.
    destruct Hpre as [H|H]; contradiction H; reflexivity. }
  rewrite (bind_Ret _ _ _ _ _ (Hok _)).
  unfold bind at 1. cbn [get_pm st_pm]. rewrite Ho1, Ho2. cbn [orb].
  destruct (check_loop_skip (check_names a) m w Hk Hex) as [k Hck].
  rewrite (bind_Ret _ _ _ _ _ Hck).
  exists k. split; [reflexivity | apply ticks_trace].
Qed.

End Skipping.

Lemma quiet_keeps w ps : w_env w = quiet → env_keeps w ps.
Proof. intros E n fs p _. rewrite E. reflexivity. Qed.

Lemma run_skips_existing_target_witness :
  let a := follow_args (TargetStr "out.txt") None in
  let w := st_os (state_of forcing_pipe target_fs) in
  path_exists (w_fs w) "out.txt" = true ∧
  is_file (w_fs w) (run_lock_file forcing_pipe a "out.txt") = false ∧
  ∃ w', run 1 a {| st_pm := forcing_pipe; st_os := w |} =
          (Ret 0%Z, {| st_pm := forcing_pipe; st_os := w' |})
        ∧ w_trace w' = (w_trace w ++ [EvFollow 1])%list.
Proof.
  intros a w.
  assert (H1 : path_exists (w_fs w) "out.txt" = true) by (vm_compute; reflexivity).
  assert (H2 : is_file (w_fs w) (run_lock_file forcing_pipe a "out.txt") = false)
    by (vm_compute; reflexivity).
  split; [exact H1|]. split; [exact H2|].
  apply (run_skips_existing_target 1 a forcing_pipe w "out.txt").
  - reflexivity.
  - apply quiet_keeps. reflexivity.
  - exact H1.
  - exact H2.
  - right. intros p Hp. inversion Hp.
Defined.

(** C1 (fails as stated).  With [force_follow] set, a callable follow-up,
    the target present and no lock file, [run] with a checkpoint whose file
    exists returns 0 at the checkpoint test: the follow-up function is not
    called. *)
Lemma run_checkpoint_skips_forced_follow :
  let a := follow_args (TargetStr "out.txt") (Some "align_reads") in
  let s := state_of forcing_pipe checkpoint_fs in
  path_exists (w_fs (st_os s)) "out.txt" = true ∧
  is_file (w_fs (st_os s)) (run_lock_file forcing_pipe a "out.txt") = false ∧
  pm_force_follow (st_pm s) = true ∧
  a_follow a = FollowCallable 1 ∧
  fst (run 1 a s) = Ret 0%Z ∧
  w_trace (st_os (snd (run 1 a s))) = [].
Proof. vm_compute. repeat split; reflexivity. Qed.

Lemma run_checkpoint_short_circuit_witness :
  let a := follow_args (TargetStr "out.txt") (Some "align_reads") in
  let w := st_os (state_of pipe checkpoint_fs) in
  is_file (w_fs w) "/out/align_reads.checkpoint" = true ∧
  ∃ k, run 1 a {| st_pm := pipe; st_os := w |} =
         (Ret 0%Z, {| st_pm := pipe; st_os := ticks k w |})
       ∧ w_trace (ticks k w) = w_trace w.
Proof.
  intros a w.
  assert (H1 : is_file (w_fs w) "/out/align_reads.checkpoint" = true)
    by (vm_compute; reflexivity).
  split; [exact H1|].
  apply (run_checkpoint_short_circuit 1 a pipe w).
  - left. discriminate.
  - reflexivity.
  - reflexivity.
  - apply quiet_keeps. reflexivity.
  - exists "/out/align_reads.checkpoint". split; [|exact H1].
    apply list_elem_of_here.
Defined.

(** C2 (fails as stated).  A call with a checkpoint whose file exists, no
    overwrite flag, and neither target nor lock name does not return 0: the
    test of the arguments comes first and fails the pipeline. *)
Lemma run_checkpoint_without_target_fails :
  let a := follow_args TargetNone (Some "align_reads") in
  let s := state_of pipe checkpoint_fs in
  In "/out/align_reads.checkpoint" (checkpoint_paths pipe a) ∧
  is_file (w_fs (st_os s)) "/out/align_reads.checkpoint" = true ∧
  pm_overwrite_checkpoints pipe = false ∧
  a_overwrite_checkpoint a = false ∧
  fst (run 1 a s) =
    Raise (PyException "You must provide either a target or a lock_name.") ∧
  pm_status (st_pm (snd (run 1 a s))) = Failed.
Proof. vm_compute. repeat split; try reflexivity. left; reflexivity. Qed.

(** * A lock file that cannot be created *)

Section LockCreation.

Context {X : Externals}.

Lemma os_open_excl_raise p s e s2 :
  os_open_excl p s = (Raise e, s2) →
  s2 = {| st_pm := st_pm s; st_os := tick (st_os s) |}.
Proof.
  unfold os_open_excl, sys.
  destruct (w_fs (tick (st_os s)) !! p); [|destruct (w_deny (tick (st_os s)) p)];
    intros H; inversion H; reflexivity.
Qed.

Lemma run_acquire_swallows lock_file s1 s2 errno msg :
  pm_overwrite_locks (st_pm s1) = false →
  _create_file_racefree lock_file (snd (locks_append lock_file s1))
    = (Raise (OSError errno msg), s2) →
  errno ≠ Some EEXIST →
  run_acquire lock_file false s1 = (Ret false, s2).
Proof.
  intros Ho Hc Hne. unfold run_acquire.
  rewrite (bind_Ret _ _ s1 tt (snd (locks_append lock_file s1))) by reflexivity.
  rewrite (bind_Ret _ _ _ (st_pm (snd (locks_append lock_file s1)))
             (snd (locks_append lock_file s1))) by reflexivity.
  assert (E : pm_overwrite_locks (st_pm (snd (locks_append lock_file s1))) = false)
    by exact Ho.
  rewrite E. cbn [orb]. unfold create_or_continue, try_except.
  rewrite (bind_Raise _ _ _ _ _ Hc). cbn [is_OSError is_EEXIST ret].
  destruct errno as [[]|]; try reflexivity. contradiction Hne; reflexivity.
Qed.

(** C10.  In the loop body of [run], when the manager does not overwrite
    locks and the exclusive creation of the lock file raises an [OSError]
    whose [errno] is not [EEXIST], the loop does not start again and the
    error goes no further: the loop body goes on with the execution of the
    command, in the state the failed creation leaves: the lock path is in
    [locks], the manager has created no file (the file system is what the
    other processes made of it) and the trace has no new entry. *)
Theorem run_swallows_lock_creation_error
    fuel a target lock_file recover_file recover_mode prc lmm s s1 s2 errno msg :
  run_tests fuel a target lock_file recover_file recover_mode s
    = (Ret (TestsProceed false), s1) →
  pm_overwrite_locks (st_pm s1) = false →
  _create_file_racefree lock_file (snd (locks_append lock_file s1))
    = (Raise (OSError errno msg), s2) →
  errno ≠ Some EEXIST →
  run_loop fuel a target lock_file recover_file recover_mode prc lmm s
    = run_execute a target lock_file prc lmm s2
  ∧ pm_locks (st_pm s2) = (pm_locks (st_pm s1) ++ [lock_file])%list
  ∧ w_fs (st_os s2) = w_fs (tick (st_os s1))
  ∧ w_trace (st_os s2) = w_trace (st_os s1).
Proof.
  intros Ht Ho Hc Hne.
  pose proof (os_open_excl_raise _ _ _ _ Hc) as Es2.
  split.
  - rewrite run_loop_eq, (bind_Ret _ _ _ _ _ Ht).
    rewrite (bind_Ret _ _ _ _ _ (run_acquire_swallows _ _ _ _ _ Ho Hc Hne)).
    reflexivity.
  - subst s2. repeat split.
Qed.

End LockCreation.

Lemma run_swallows_lock_creation_error_witness :
  let w := st_os denied_state in
  let s2 := {| st_pm := set_locks [out_lock] pipe; st_os := ticks 3 w |} in
  run_loop 1 echo_args (Some "out.txt") out_lock "/out/recover.lock.out.txt" false 0 0
    denied_state
  = run_execute echo_args (Some "out.txt") out_lock 0 0 s2
  ∧ pm_locks (st_pm s2) = [out_lock]
  ∧ w_fs (st_os s2) !! out_lock = None
  ∧ In (EvPopen (ShellCmd "echo hi > out.txt")) (w_trace (st_os (snd (run 1 echo_args denied_state))))
  ∧ ¬ In (EvCreateExcl out_lock) (w_trace (st_os (snd (run 1 echo_args denied_state)))).
Proof.
  intros w s2.
  destruct (run_swallows_lock_creation_error 1 echo_args (Some "out.txt") out_lock
              "/out/recover.lock.out.txt" false 0 0 denied_state
              {| st_pm := pipe; st_os := ticks 2 w |} s2 (Some EACCES) "cannot create")
    as [E _].
  - vm_compute. reflexivity.
  - reflexivity.
  - vm_compute. reflexivity.
  - discriminate.
  - split; [exact E|]. split; [reflexivity|]. split; [vm_compute; reflexivity|].
    split.
    + vm_compute. right. left. reflexivity.
    + vm_compute. intros [H|[H|[H|[]]]]; discriminate H.
Defined.


(** * A small logic of results and traces *)

Lemma evolves_refl {T} (f : Manager → T) P s : evolves f P s s.
Proof.
  split; [reflexivity|]. exists []. split; [symmetry; apply app_nil_r | constructor].
Qed.

Lemma evolves_trans {T} (f : Manager → T) P s1 s2 s3 :
  evolves f P s1 s2 → evolves f P s2 s3 → evolves f P s1 s3.
Proof.
  intros [E1 [l1 [T1 F1]]] [E2 [l2 [T2 F2]]]. split; [congruence|].
  exists (l1 ++ l2)%list. split.
  - rewrite T2, T1. symmetry. apply app_assoc.
  - apply Forall_app. split; assumption.
Qed.

Lemma evolves_weaken {T U} (f : Manager → T) (g : Manager → U) (P P' : Ev → Prop) s s' :
  (∀ m m', f m' = f m → g m' = g m) → (∀ ev, P ev → P' ev) →
  evolves f P s s' → evolves g P' s s'.
Proof.
  intros Hf HP [E [l [Tl Fl]]]. split; [apply Hf, E|].
  exists l. split; [exact Tl|]. eapply Forall_impl; [exact Fl | exact HP].
Qed.

Section Logic.

Context {T : Type} (f : Manager → T) (P : Ev → Prop).

Lemma post_ret {A} (a : A) (Q : Res A → Prop) :
  Q (Ret a) → post (ret a) Q (evolves f P).
Proof. intros H s. split; [exact H | apply evolves_refl]. Qed.

Lemma post_raise {A} e (Q : Res A → Prop) :
  Q (Raise e) → post (raise e) Q (evolves f P).
Proof. intros H s. split; [exact H | apply evolves_refl]. Qed.

Lemma post_bind {A B} (m : M A) (k : A → M B) (Q1 : Res A → Prop) (Q : Res B → Prop) :
  post m Q1 (evolves f P) →
  (∀ a, Q1 (Ret a) → post (k a) Q (evolves f P)) →
  (∀ e, Q1 (Raise e) → Q (Raise e)) →
  (Q1 OutOfFuel → Q OutOfFuel) →
  post (bind m k) Q (evolves f P).
Proof.
  intros Hm Hk He Ho s. unfold bind. specialize (Hm s).
  destruct (m s) as [[a|e|] s1]; cbn [fst snd] in *; destruct Hm as [Hq Hr].
  - destruct (Hk a Hq s1) as [Hq' Hr']. split; [exact Hq'|].
    eapply evolves_trans; eassumption.
  - split; [apply He, Hq | exact Hr].
  - split; [apply Ho, Hq | exact Hr].
Qed.

Lemma post_try_except {A} (m : M A) (h : Exn → option (M A)) (Q1 Q : Res A → Prop) :
  post m Q1 (evolves f P) →
  (∀ a, Q1 (Ret a) → Q (Ret a)) →
  (∀ e k, Q1 (Raise e) → h e = Some k → post k Q (evolves f P)) →
  (∀ e, Q1 (Raise e) → h e = None → Q (Raise e)) →
  (Q1 OutOfFuel → Q OutOfFuel) →
  post (try_except m h) Q (evolves f P).
Proof.
  intros Hm Hr Hh Hn Ho s. unfold try_except. specialize (Hm s).
  destruct (m s) as [[a|e|] s1]; cbn [fst snd] in *; destruct Hm as [Hq HR].
  - split; [apply Hr, Hq | exact HR].
  - destruct (h e) as [k|] eqn:E.
    + destruct (Hh e k Hq E s1) as [Hq' HR']. split; [exact Hq'|].
      eapply evolves_trans; eassumption.
    + split; [apply Hn; assumption | exact HR].
  - split; [apply Ho, Hq | exact HR].
Qed.

Lemma post_weaken {A} (m : M A) (Q Q' : Res A → Prop) :
  post m Q (evolves f P) → (∀ r, Q r → Q' r) → post m Q' (evolves f P).
Proof. intros H HQ s. destruct (H s) as [Hq Hr]. split; [apply HQ, Hq | exact Hr]. Qed.

Lemma post_get_pm (Q : Res Manager → Prop) :
  (∀ m, Q (Ret m)) → post get_pm Q (evolves f P).
Proof. intros H s. split; [apply H | apply evolves_refl]. Qed.



(** A system call: its result and the events it logs. *)
Lemma post_sys {A} (c : World → Res A * World) (Q : Res A → Prop) :
  (∀ w, Q (fst (c w)) ∧
        ∃ evs, w_trace (snd (c w)) = (w_trace w ++ evs)%list ∧ Forall P evs) →
  post (sys c) Q (evolves f P).
Proof.
  intros H s. unfold sys. specialize (H (tick (st_os s))).
  destruct (c (tick (st_os s))) as [r w']. cbn [fst snd] in *.
  destruct H as [Hq He]. split; [exact Hq|]. split; [reflexivity | exact He].
Qed.

Lemma post_os_path_isfile p : post (os_path_isfile p) returns (evolves f P).
Proof.
  apply post_sys. intros w. split; [eexists; reflexivity|].
  exists []. split; [symmetry; apply app_nil_r | constructor].
Qed.

Lemma post_os_path_isdir p : post (os_path_isdir p) returns (evolves f P).
Proof.
  apply post_sys. intros w. split; [eexists; reflexivity|].
  exists []. split; [symmetry; apply app_nil_r | constructor].
Qed.

Lemma post_glob {X : Externals} pat :
  post (sys (fun w => (Ret (glob_glob (w_fs w) pat), w))) returns (evolves f P).
Proof.
  apply post_sys. intros w. split; [eexists; reflexivity|].
  exists []. split; [symmetry; apply app_nil_r | constructor].
Qed.

Lemma post_open_a p text :
  P (EvAppend p text) → post (open_a p text) returns (evolves f P).
Proof.
  intros HP. apply post_sys. intros w. split; [eexists; reflexivity|].
  exists [EvAppend p text]. split; [reflexivity | repeat constructor; exact HP].
Qed.



Lemma post_os_kill pid :
  P (EvKill pid) → post (os_kill pid) returns (evolves f P).
Proof.
  intros HP. apply post_sys. intros w. split; [eexists; reflexivity|].
  exists [EvKill pid]. split; [reflexivity | repeat constructor; exact HP].
Qed.

End Logic.

(** * Memory sampling *)

(** C9 (fails on the code).  [_memory_usage] has a [try ... finally] and no
    [except]: when [/proc/<pid>/status] is not there at the [open], the
    [IOError] of [open] goes to the caller, for every process id and every
    category. *)
Theorem memory_usage_raises_without_status_file pid category s :
  w_fs (tick (st_os s)) !! proc_spot pid = None →
  _memory_usage pid category None s =
    (Raise (IOError ENOENT), {| st_pm := st_pm s; st_os := tick (st_os s) |}).
Proof.
  intros H. unfold _memory_usage. cbn [truthy].
  unfold bind at 1, try_finally. unfold bind at 1.
  unfold open_r, sys. rewrite H. reflexivity.
Qed.

Lemma memory_usage_raises_without_status_file_witness :
  w_fs (tick (st_os fresh_state)) !! proc_spot 4242 = None ∧
  fst (_memory_usage 4242 Hwm None fresh_state) = Raise (IOError ENOENT).
Proof.
  assert (H : w_fs (tick (st_os fresh_state)) !! proc_spot 4242 = None)
    by (vm_compute; reflexivity).
  split; [exact H|].
  rewrite (memory_usage_raises_without_status_file 4242 Hwm fresh_state H).
  reflexivity.
Defined.

(** The sampler on a live child, and on one that is reaped between the
    [open] and the read. *)
Example memory_usage_samples :
  let live := {| st_pm := pipe; st_os := world proc_fs quiet no_deny (spawn_ok 4242 2 0) |} in
  let reaped := {| st_pm := pipe; st_os := world proc_fs reaping_env no_deny (spawn_ok 4242 2 0) |} in
  fst (_memory_usage 4242 Hwm None live) = Ret (inject_Z 5120) ∧
  fst (_memory_usage 4242 Peak None live) = Ret (inject_Z 20480) ∧
  fst (_memory_usage 4242 Rss None live) = Ret (inject_Z 4096) ∧
  fst (_memory_usage 4242 Hwm None reaped) = Raise (IOError ESRCH).
Proof. vm_compute. repeat split; reflexivity. Qed.

(** * The failure path *)

Lemma post_evolves_weaken {A T U} (m : M A) (Q : Res A → Prop)
    (f : Manager → T) (g : Manager → U) (P P' : Ev → Prop) :
  post m Q (evolves f P) →
  (∀ m m', f m' = f m → g m' = g m) → (∀ ev, P ev → P' ev) →
  post m Q (evolves g P').
Proof.
  intros H Hf HP s. destruct (H s) as [Hq Hr]. split; [exact Hq|].
  eapply evolves_weaken; eassumption.
Qed.

Lemma post_try_finally {A T} (f : Manager → T) P (m : M A) (fin : M unit) Q1 Q2 :
  post m Q1 (evolves f P) → post fin Q2 (evolves f P) →
  post (try_finally m fin) anything (evolves f P).
Proof.
  intros Hm Hf s. unfold try_finally. specialize (Hm s).
  destruct (m s) as [[a|e|] s1]; cbn [fst snd] in *; destruct Hm as [_ HR].
  - specialize (Hf s1). destruct (fin s1) as [[[]|e'|] s2];
      cbn [fst snd] in *; destruct Hf as [_ HR'];
      (split; [exact I | eapply evolves_trans; eassumption]).
  - specialize (Hf s1). destruct (fin s1) as [[[]|e'|] s2];
      cbn [fst snd] in *; destruct Hf as [_ HR'];
      (split; [exact I | eapply evolves_trans; eassumption]).
  - split; [exact I | exact HR].
Qed.

Lemma Forall_no_event evs : Forall no_event evs → evs = [].
Proof. destruct evs as [|ev evs]; [reflexivity|]. intros H. inversion H as [|? ? []]. Qed.

Lemma post_status_lines lines result :
  post (status_lines lines result) anything (evolves id no_event).
Proof.
  revert result. induction lines as [|line lines IH]; intros result.
  - apply post_ret. exact I.
  - cbn [status_lines]. apply post_bind with (Q1 := anything).
    + unfold status_line.
      destruct (Py.split line) as [|p0 rest]; [apply post_raise; exact I|].
      destruct (_ || _)%bool; [|apply post_ret; exact I].
      destruct rest as [|p1 rest]; [apply post_raise; exact I|].
      destruct (Py.int p1); [apply post_ret | apply post_raise]; exact I.
    + intros a _. apply IH.
    + intros; exact I.
    + intros; exact I.
Qed.

Lemma post_memory_usage pid category container :
  post (_memory_usage pid category container) anything (evolves id no_event).
Proof.
  unfold _memory_usage. destruct (truthy container) as [c|].
  - apply post_sys. intros w. split; [exact I|].
    exists []. destruct (w_docker w (w_clock w) c); cbn [snd];
      (split; [symmetry; apply app_nil_r | constructor]).
  - apply post_bind with (Q1 := anything).
    + apply post_try_finally with (Q1 := anything) (Q2 := anything).
      * apply post_bind with (Q1 := anything).
        -- apply post_sys. intros w. split; [exact I|]. exists [].
           destruct (w_fs w !! proc_spot pid) as [[|]|]; cbn [snd];
             (split; [symmetry; apply app_nil_r | constructor]).
        -- intros _ _. apply post_bind with (Q1 := anything).
           ++ apply post_sys. intros w. split; [exact I|]. exists [].
              destruct (w_fs w !! proc_spot pid) as [[|]|]; cbn [snd];
                (split; [symmetry; apply app_nil_r | constructor]).
           ++ intros lines _. apply post_status_lines.
           ++ intros; exact I.
           ++ intros; exact I.
        -- intros; exact I.
        -- intros; exact I.
      * apply post_ret. exact I.
    + intros a _. apply post_ret. exact I.
    + intros; exact I.
    + intros; exact I.
Qed.

(** The sampler changes neither the manager nor the trace. *)
Lemma memory_usage_state pid category container s :
  st_pm (snd (_memory_usage pid category container s)) = st_pm s ∧
  w_trace (st_os (snd (_memory_usage pid category container s))) = w_trace (st_os s).
Proof.
  destruct (post_memory_usage pid category container s) as [_ [E [evs [Tr F]]]].
  split; [exact E|]. rewrite Tr, (Forall_no_event _ F). apply app_nil_r.
Qed.

Section FailurePath.

Context {X : Externals}.

Lemma procs_get_head pid info rest : procs_get pid ((pid, info) :: rest) = Some info.
Proof. cbn [procs_get]. rewrite Z.eqb_refl. reflexivity. Qed.

Lemma procs_del_head pid info rest : procs_del pid ((pid, info) :: rest) = rest.
Proof. cbn [procs_del]. rewrite Z.eqb_refl. reflexivity. Qed.

Lemma list_remove_head x l : Py.list_remove x (x :: l) = Some l.
Proof. cbn [Py.list_remove]. rewrite String.eqb_refl. reflexivity. Qed.

(** When the loop over the registered children completes, it has left
    nothing in [procs], it has sent a signal to every child, and it has done
    nothing but write profile rows and send signals. *)
Lemma terminate_each_done copy s s1 :
  pm_procs (st_pm s) = copy →
  terminate_each copy s = (Ret tt, s1) →
  but_procs (st_pm s1) = but_procs (st_pm s) ∧
  pm_procs (st_pm s1) = [] ∧
  ∃ evs, w_trace (st_os s1) = (w_trace (st_os s) ++ evs)%list ∧
         Forall (fun ev => is_append ev ∨ is_kill ev) evs ∧
         ∀ pid, pid ∈ (fst <$> copy) → In (EvKill pid) evs.
Proof.
  revert s. induction copy as [|[pid info] rest IH]; intros s Hc H.
  - cbn in H. inversion H; subst s1. split; [reflexivity|]. split; [exact Hc|].
    exists []. split; [symmetry; apply app_nil_r|]. split; [constructor|].
    intros pid Hp. rewrite fmap_nil in Hp. inversion Hp.
  - cbn [terminate_each] in H. unfold bind at 1 in H. cbn [get_pm] in H.
    rewrite Hc, procs_get_head in H. unfold bind at 1 in H. cbn [time_time] in H.
    apply bind_inv_Ret in H as [kb [sa [Hm H]]].
    pose proof (memory_usage_state pid Hwm (pi_container info) s) as [Epm Etr].
    rewrite Hm in Epm, Etr. cbn [snd] in Epm, Etr.
    destruct sa as [ma wa]. cbn [st_pm st_os] in Epm, Etr. subst ma.
    unfold _report_profile, _kill_child_process in H.
    unfold bind at 1 in H. unfold bind at 1 in H. cbn [get_pm st_pm] in H.
    unfold open_a, os_kill, sys in H. cbn [st_os st_pm] in H.
    unfold bind at 1 in H. unfold bind at 1 in H. cbn [mod_pm st_pm st_os] in H.
    apply IH in H.
    + destruct H as [Eb [Ep [evs [Tr [Fa Hk]]]]].
      cbn [st_pm st_os] in Eb, Tr.
      split; [rewrite Eb; reflexivity|]. split; [exact Ep|].
      eexists (_ :: EvKill pid :: evs). split; [|split].
      * rewrite Tr. cbn [log_ev w_trace tick set_fs]. rewrite Etr.
        rewrite <- !app_assoc. reflexivity.
      * constructor; [left; eexists _, _; reflexivity|].
        constructor; [right; eexists; reflexivity | exact Fa].
      * intros p Hp. rewrite fmap_cons in Hp. cbn [fst] in Hp.
        apply elem_of_cons in Hp as [-> | Hp].
        -- right. left. reflexivity.
        -- right. right. apply Hk, Hp.
    + cbn [st_pm set_procs pm_procs]. rewrite Hc. apply procs_del_head.
Qed.

(** When the loop over the held locks completes, it has left nothing in
    [locks], it has created the recovery file of every lock, and it has done
    nothing else. *)
Lemma recover_each_done copy s s2 :
  pm_locks (st_pm s) = copy →
  recover_each copy s = (Ret tt, s2) →
  but_locks (st_pm s2) = but_locks (st_pm s) ∧
  pm_locks (st_pm s2) = [] ∧
  ∃ evs, w_trace (st_os s2) = (w_trace (st_os s) ++ evs)%list ∧
         Forall is_create_excl evs ∧
         ∀ l, l ∈ copy → In (EvCreateExcl (_recoverfile_from_lockfile (st_pm s) l)) evs.
Proof.
  revert s. induction copy as [|lock_file rest IH]; intros s Hc H.
  - cbn in H. inversion H; subst s2. split; [reflexivity|]. split; [exact Hc|].
    exists []. split; [symmetry; apply app_nil_r|]. split; [constructor|].
    intros l Hl. inversion Hl.
  - cbn [recover_each] in H. unfold bind at 1 in H. cbn [get_pm] in H.
    apply bind_inv_Ret in H as [[] [sa [Hcr H]]].
    unfold _create_file_racefree, os_open_excl, sys in Hcr.
    destruct (w_fs (tick (st_os s)) !! _) as [n|]; [discriminate Hcr|].
    destruct (w_deny (tick (st_os s)) _); [discriminate Hcr|].
    inversion Hcr; subst sa; clear Hcr.
    rewrite Hc, list_remove_head in H.
    unfold bind at 1 in H. cbn [mod_pm st_pm st_os] in H.
    apply IH in H; [|reflexivity].
    destruct H as [Eb [Ep [evs [Tr [Fa Hk]]]]].
    cbn [st_pm st_os] in Eb, Tr.
    split; [rewrite Eb; reflexivity|]. split; [exact Ep|].
    eexists (_ :: evs). split; [|split].
    + rewrite Tr. cbn [log_ev w_trace tick set_fs]. rewrite <- app_assoc. reflexivity.
    + constructor; [eexists; reflexivity | exact Fa].
    + intros l Hl. apply elem_of_cons in Hl as [-> | Hl].
      * left. reflexivity.
      * right. apply Hk in Hl. exact Hl.
Qed.

Lemma post_script_items items :
  post (script_items items None) (fun r => r = Ret tt ∨ r = Raise UnboundLocalError)
    (evolves id is_append).
Proof.
  destruct items as [|clean_item rest].
  - apply post_ret. left. reflexivity.
  - cbn [script_items]. apply post_bind with (Q1 := returns).
    + apply post_get_pm. intros m. eexists; reflexivity.
    + intros pm _. apply post_bind with (Q1 := returns).
      * apply post_open_a. eexists _, _; reflexivity.
      * intros _ _. apply post_raise. right. reflexivity.
      * intros e [a Ha]; discriminate Ha.
      * intros [a Ha]; discriminate Ha.
    + intros e [a Ha]; discriminate Ha.
    + intros [a Ha]; discriminate Ha.
Qed.

Lemma post_script_globs cleandirs :
  post (script_globs cleandirs None) (fun r => r = Ret tt) (evolves id is_append).
Proof.
  induction cleandirs as [|cleandir rest IH].
  - apply post_ret. reflexivity.
  - cbn [script_globs]. apply post_bind with (Q1 := fun r => r = Ret tt).
    + apply post_try_except
        with (Q1 := fun r => r = Ret tt ∨ r = Raise UnboundLocalError).
      * apply post_bind with (Q1 := returns).
        -- apply post_glob.
        -- intros items _. apply post_script_items.
        -- intros e [a Ha]; discriminate Ha.
        -- intros [a Ha]; discriminate Ha.
      * intros [] _. reflexivity.
      * intros e k [H|H]; [discriminate H|]. inversion H; subst e.
        cbn. intros Hk. inversion Hk; subst k. apply post_ret. reflexivity.
      * intros e [H|H]; [discriminate H|]. inversion H; subst e. cbn. discriminate.
      * intros [H|H]; discriminate H.
    + intros _ _. exact IH.
    + intros e H; discriminate H.
    + intros H; discriminate H.
Qed.

(** The dry run of the cleanup always returns: it moves the unconditional
    list to the end of the conditional one, and all it does to the files is
    to open the cleanup script for appending. *)
Lemma cleanup_dry_run s :
  ∃ s', _cleanup true s = (Ret tt, s') ∧
        but_cleanup_lists (st_pm s') = but_cleanup_lists (st_pm s) ∧
        pm_cleanup_list (st_pm s') = [] ∧
        pm_cleanup_list_conditional (st_pm s') =
          (pm_cleanup_list_conditional (st_pm s) ++ pm_cleanup_list (st_pm s))%list ∧
        ∃ evs, w_trace (st_os s') = (w_trace (st_os s) ++ evs)%list ∧ Forall is_append evs.
Proof.
  assert (Hrest : ∀ s0, pm_cleanup_list (st_pm s0) = [] →
    ∃ s', (pm <- get_pm ;;
           file <- match pm_cleanup_list pm with
                   | [] => ret None
                   | l => remove_globs l None
                   end ;;
           pm <- get_pm ;;
           match pm_cleanup_list_conditional pm with
           | [] => ret tt
           | cond =>
               let run_flag := flag_name (status_token RUN_FLAG) in
               found <- sys (fun w => (Ret (glob_glob (w_fs w) (pm_outfolder pm +:+ flag_name "*")), w)) ;;
               let flag_files :=
                 filter (fun fn =>
                           negb (Py.contains (status_token COMPLETE_FLAG) (OsPath.basename fn))
                           && negb (String.eqb (pm_name pm +:+ "_" +:+ run_flag) (OsPath.basename fn)) = true)
                        found in
               match flag_files, true with
               | [], false => _ <- remove_globs cond file ;; ret tt
               | _, _ => script_globs cond file
               end
           end) s0 = (Ret tt, s') ∧ st_pm s' = st_pm s0 ∧
          ∃ evs, w_trace (st_os s') = (w_trace (st_os s0) ++ evs)%list ∧ Forall is_append evs).
  { intros s0 Hu. unfold bind at 1. cbn [get_pm]. rewrite Hu.
    unfold bind at 1. cbn [ret]. unfold bind at 1. cbn [get_pm].
    destruct (pm_cleanup_list_conditional (st_pm s0)) as [|c cond] eqn:Ec.
    - exists s0. split; [reflexivity|]. split; [reflexivity|].
      exists []. split; [symmetry; apply app_nil_r | constructor].
    - unfold bind at 1, sys. cbv zeta.
      match goal with
      | |- context [filter ?Pf ?l] => destruct (filter Pf l)
      end;
        (match goal with
         | |- ∃ s', script_globs _ _ ?s1 = _ ∧ _ =>
             destruct (post_script_globs (c :: cond) s1) as [Hq [Epm [evs [Tr Fa]]]];
             destruct (script_globs (c :: cond) None s1) as [r s'] eqn:Es
         end);
        cbn [fst snd] in *; subst r; exists s'; (split; [reflexivity|]);
        (split; [exact Epm|]); exists evs; (split; [exact Tr | exact Fa]). }
  unfold _cleanup. unfold bind at 1. cbn [get_pm].
  destruct (pm_cleanup_list (st_pm s)) as [|u uncond] eqn:Eu.
  - unfold bind at 1. cbn [ret].
    destruct (Hrest s Eu) as [s' [E [Epm Ev]]].
    exists s'. split; [exact E|]. rewrite Epm. split; [reflexivity|].
    split; [exact Eu|]. split; [symmetry; apply app_nil_r | exact Ev].
  - unfold bind at 1. cbn [mod_pm].
    match goal with
    | |- ∃ s', _ ?s0 = _ ∧ _ => destruct (Hrest s0 eq_refl) as [s' [E [Epm Ev]]]
    end.
    exists s'. split; [exact E|]. rewrite Epm. cbn [st_pm st_os] in *.
    split; [reflexivity|]. split; [reflexivity|]. split; [reflexivity | exact Ev].
Qed.

(** [set_status_flag] always returns: it removes the flag file of the old
    status when there is one and creates the flag file of the new status. *)
Lemma set_status_flag_eq status s :
  ∃ s' evs, set_status_flag status s = (Ret tt, s') ∧
    st_pm s' = set_status status (st_pm s) ∧
    w_trace (st_os s') =
      (w_trace (st_os s) ++ evs ++ [EvCreate (_flag_file_path (st_pm s) (Some status))])%list ∧
    (evs = [] ∨ evs = [EvRemove (_flag_file_path (st_pm s) None)]).
Proof.
  unfold set_status_flag. unfold bind at 1. cbn [get_pm].
  unfold bind at 1, try_except, os_remove, sys.
  destruct (w_fs (tick (st_os s)) !! _flag_file_path (st_pm s) None) as [[c|]|].
  - eexists _, [EvRemove _]. split; [reflexivity|]. split; [reflexivity|].
    split; [|right; reflexivity]. cbn. rewrite <- app_assoc. reflexivity.
  - eexists _, []. split; [reflexivity|]. split; [reflexivity|].
    split; [|left; reflexivity]. reflexivity.
  - eexists _, []. split; [reflexivity|]. split; [reflexivity|].
    split; [|left; reflexivity]. reflexivity.
Qed.

Lemma but_procs_fields m m' :
  but_procs m' = but_procs m →
  pm_name m' = pm_name m ∧ pm_outfolder m' = pm_outfolder m ∧
  pm_status m' = pm_status m ∧ pm_locks m' = pm_locks m ∧
  pm_cleanup_list m' = pm_cleanup_list m ∧
  pm_cleanup_list_conditional m' = pm_cleanup_list_conditional m.
Proof.
  intros H. repeat split;
    [apply (f_equal pm_name) in H | apply (f_equal pm_outfolder) in H
    | apply (f_equal pm_status) in H | apply (f_equal pm_locks) in H
    | apply (f_equal pm_cleanup_list) in H
    | apply (f_equal pm_cleanup_list_conditional) in H]; exact H.
Qed.

Lemma but_locks_fields m m' :
  but_locks m' = but_locks m →
  pm_name m' = pm_name m ∧ pm_outfolder m' = pm_outfolder m ∧
  pm_status m' = pm_status m ∧ pm_procs m' = pm_procs m ∧
  pm_cleanup_list m' = pm_cleanup_list m ∧
  pm_cleanup_list_conditional m' = pm_cleanup_list_conditional m.
Proof.
  intros H. repeat split;
    [apply (f_equal pm_name) in H | apply (f_equal pm_outfolder) in H
    | apply (f_equal pm_status) in H | apply (f_equal pm_procs) in H
    | apply (f_equal pm_cleanup_list) in H
    | apply (f_equal pm_cleanup_list_conditional) in H]; exact H.
Qed.

Lemma but_cleanup_lists_fields m m' :
  but_cleanup_lists m' = but_cleanup_lists m →
  pm_name m' = pm_name m ∧ pm_outfolder m' = pm_outfolder m ∧
  pm_status m' = pm_status m ∧ pm_procs m' = pm_procs m ∧
  pm_locks m' = pm_locks m.
Proof.
  intros H. repeat split;
    [apply (f_equal pm_name) in H | apply (f_equal pm_outfolder) in H
    | apply (f_equal pm_status) in H | apply (f_equal pm_procs) in H
    | apply (f_equal pm_locks) in H]; exact H.
Qed.

Lemma flag_file_path_ext m m' status :
  pm_name m' = pm_name m → pm_outfolder m' = pm_outfolder m →
  pm_status m' = pm_status m →
  _flag_file_path m' status = _flag_file_path m status.
Proof.
  intros Hn Ho Hs. unfold _flag_file_path, pipeline_filepath.
  rewrite Hn, Ho, Hs. reflexivity.
Qed.

Lemma recoverfile_ext m m' lock_file :
  pm_outfolder m' = pm_outfolder m →
  _recoverfile_from_lockfile m' lock_file = _recoverfile_from_lockfile m lock_file.
Proof.
  intros Ho. unfold _recoverfile_from_lockfile, _make_lock_path, pipeline_filepath.
  rewrite Ho. reflexivity.
Qed.

Lemma failure_events_facts dynamic_recover evs :
  Forall (failure_event dynamic_recover) evs →
  (∀ p, ¬ In (EvRemove p) evs) ∧ (∀ p, ¬ In (EvRmdir p) evs) ∧
  (∀ p, ¬ In (EvCreate p) evs) ∧
  (dynamic_recover = false → ∀ p, ¬ In (EvCreateExcl p) evs).
Proof.
  intros F. rewrite Forall_forall in F.
  repeat split; intros; intros Hin; apply list_elem_of_In, F in Hin;
    destruct Hin as [[? [? E]]|[[? E]|[Hd [? E]]]]; try discriminate E; congruence.
Qed.

(** What a run of [fail_pipeline] does, once the termination of the
    children and the creation of the recovery files have completed. *)
Lemma fail_pipeline_outcome e dynamic_recover s s1 :
  _terminate_running_subprocesses s = (Ret tt, s1) →
  (dynamic_recover = true →
   ∃ s2, recover_each (pm_locks (st_pm s1)) s1 = (Ret tt, s2)) →
  ∃ s' evs,
    fail_pipeline e dynamic_recover s = (Raise e, s') ∧
    w_trace (st_os s') = (w_trace (st_os s) ++ evs)%list ∧
    pm_procs (st_pm s') = [] ∧
    (∀ pid, pid ∈ (fst <$> pm_procs (st_pm s)) → In (EvKill pid) evs) ∧
    (if dynamic_recover
     then pm_locks (st_pm s') = [] ∧
          ∀ l, l ∈ pm_locks (st_pm s) →
               In (EvCreateExcl (_recoverfile_from_lockfile (st_pm s) l)) evs
     else pm_locks (st_pm s') = pm_locks (st_pm s) ∧
          ∀ p, ¬ In (EvCreateExcl p) evs) ∧
    pm_cleanup_list (st_pm s') = [] ∧
    pm_cleanup_list_conditional (st_pm s') =
      (pm_cleanup_list_conditional (st_pm s) ++ pm_cleanup_list (st_pm s))%list ∧
    (∀ p, In (EvRemove p) evs → p = _flag_file_path (st_pm s) None) ∧
    (∀ p, ¬ In (EvRmdir p) evs) ∧
    pm_status (st_pm s') = Failed ∧
    (In (EvCreate (_flag_file_path (st_pm s) (Some Failed))) evs
     ↔ pm_status (st_pm s) ≠ Failed).
Proof.
  intros Ht Hr.
  (* the children *)
  destruct (terminate_each_done _ s s1 eq_refl Ht)
    as [B1 [P1 [evs1 [T1 [F1 K1]]]]].
  apply but_procs_fields in B1 as (N1 & O1 & S1 & L1 & U1 & C1).
  (* the recovery files *)
  assert (∃ s2 evs2,
    (if dynamic_recover
     then pm <- get_pm ;; recover_each (pm_locks pm)
     else ret tt) s1 = (Ret tt, s2) ∧
    but_locks (st_pm s2) = but_locks (st_pm s1) ∧
    w_trace (st_os s2) = (w_trace (st_os s1) ++ evs2)%list ∧
    Forall (failure_event dynamic_recover) evs2 ∧
    (if dynamic_recover
     then pm_locks (st_pm s2) = [] ∧
          ∀ l, l ∈ pm_locks (st_pm s1) →
               In (EvCreateExcl (_recoverfile_from_lockfile (st_pm s1) l)) evs2
     else pm_locks (st_pm s2) = pm_locks (st_pm s1)))
    as (s2 & evs2 & E2 & B2 & T2 & F2 & R2).
  { destruct dynamic_recover.
    - destruct (Hr eq_refl) as [s2 E2]. exists s2.
      destruct (recover_each_done _ s1 s2 eq_refl E2) as [B [L [evs [Tr [Fa Hk]]]]].
      exists evs. split; [exact E2|]. split; [exact B|]. split; [exact Tr|].
      split; [|split; [exact L | exact Hk]].
      eapply Forall_impl; [exact Fa|]. intros ev Hev. right. right. split; [reflexivity | exact Hev].
    - exists s1, []. split; [reflexivity|]. split; [reflexivity|].
      split; [symmetry; apply app_nil_r|]. split; [constructor | reflexivity]. }
  apply but_locks_fields in B2 as (N2 & O2 & S2 & P2 & U2 & C2).
  (* the cleanup *)
  destruct (cleanup_dry_run s2) as (s3 & E3 & B3 & U3 & C3 & evs3 & T3 & F3).
  apply but_cleanup_lists_fields in B3 as (N3 & O3 & S3 & P3 & L3).
  (* the events so far *)
  assert (F123 : Forall (failure_event dynamic_recover) (evs1 ++ evs2 ++ evs3)).
  { apply Forall_app. split.
    - eapply Forall_impl; [exact F1|]. intros ev [H|H]; [left | right; left]; exact H.
    - apply Forall_app. split; [exact F2|].
      eapply Forall_impl; [exact F3|]. intros ev H. left. exact H. }
  destruct (failure_events_facts _ _ F123) as (NoRm & NoRmdir & NoCreate & NoExcl).
  assert (T123 : w_trace (st_os s3) = (w_trace (st_os s) ++ evs1 ++ evs2 ++ evs3)%list).
  { rewrite T3, T2, T1, <- !app_assoc. reflexivity. }
  assert (Kills : ∀ pid, pid ∈ (fst <$> pm_procs (st_pm s)) → In (EvKill pid) (evs1 ++ evs2 ++ evs3)).
  { intros pid Hp. apply in_or_app. left. apply K1, Hp. }
  assert (Locks :
    if dynamic_recover
    then pm_locks (st_pm s3) = [] ∧
         ∀ l, l ∈ pm_locks (st_pm s) →
              In (EvCreateExcl (_recoverfile_from_lockfile (st_pm s) l)) (evs1 ++ evs2 ++ evs3)
    else pm_locks (st_pm s3) = pm_locks (st_pm s) ∧
         ∀ p, ¬ In (EvCreateExcl p) (evs1 ++ evs2 ++ evs3)).
  { destruct dynamic_recover.
    - destruct R2 as [R2 K2]. split; [congruence|].
      intros l Hl. rewrite <- L1 in Hl. apply K2 in Hl.
      rewrite (recoverfile_ext _ _ _ O1) in Hl.
      apply in_or_app. right. apply in_or_app. left. exact Hl.
    - split; [congruence | apply NoExcl; reflexivity]. }
  assert (Lists : pm_cleanup_list_conditional (st_pm s3) =
                  (pm_cleanup_list_conditional (st_pm s) ++ pm_cleanup_list (st_pm s))%list)
    by congruence.
  assert (Procs : pm_procs (st_pm s3) = []) by congruence.
  assert (Status : pm_status (st_pm s3) = pm_status (st_pm s)) by congruence.
  assert (Name : pm_name (st_pm s3) = pm_name (st_pm s)) by congruence.
  assert (Out : pm_outfolder (st_pm s3) = pm_outfolder (st_pm s)) by congruence.
  (* the run of fail_pipeline *)
  unfold fail_pipeline.
  rewrite (bind_Ret _ _ _ _ _ Ht), (bind_Ret _ _ _ _ _ E2), (bind_Ret _ _ _ _ _ E3).
  unfold bind at 1. cbn [get_pm]. unfold failed. rewrite Status.
  destruct (bool_decide (pm_status (st_pm s) = FAIL_FLAG)) eqn:Efail.
  - (* already failed *)
    apply bool_decide_eq_true in Efail.
    exists s3, (evs1 ++ evs2 ++ evs3)%list. cbn [negb].
    split; [reflexivity|]. split; [exact T123|]. split; [exact Procs|].
    split; [exact Kills|].
    split; [destruct dynamic_recover; exact Locks|].
    split; [exact U3|]. split; [exact Lists|].
    split; [intros p Hp; destruct (NoRm p Hp)|]. split; [exact NoRmdir|].
    split; [rewrite Status; exact Efail|].
    split; [intros Hin; destruct (NoCreate _ Hin) | intros Hn; contradiction].
  - (* the status advances *)
    apply bool_decide_eq_false in Efail. cbn [negb].
    unfold timestamp. unfold bind at 1. unfold bind at 1. unfold bind at 1.
    cbn [time_time mod_pm].
    match goal with
    | |- ∃ s' evs, (let (r, s'0) := set_status_flag FAIL_FLAG ?s4 in _) = _ ∧ _ =>
        destruct (set_status_flag_eq FAIL_FLAG s4) as (s5 & evs4 & E5 & M5 & T5 & R5);
        rewrite E5
    end.
    cbn [st_pm st_os] in M5, T5.
    assert (Flag : ∀ st, _flag_file_path (set_last_timestamp (w_clock (st_os s3)) (st_pm s3)) st
                         = _flag_file_path (st_pm s) st).
    { intros st. apply flag_file_path_ext; [exact Name | exact Out | exact Status]. }
    rewrite !Flag in T5. rewrite Flag in R5.
    exists s5, ((evs1 ++ evs2 ++ evs3) ++ evs4 ++ [EvCreate (_flag_file_path (st_pm s) (Some FAIL_FLAG))])%list.
    split; [reflexivity|].
    split; [rewrite T5, T123, <- !app_assoc; reflexivity|].
    rewrite M5. cbn [set_status set_last_timestamp pm_procs pm_locks pm_cleanup_list
                     pm_cleanup_list_conditional pm_status].
    split; [exact Procs|].
    split; [intros pid Hp; apply in_or_app; left; apply Kills, Hp|].
    split.
    { destruct dynamic_recover.
      - destruct Locks as [La Lb]. split; [exact La|].
        intros l Hl. apply in_or_app. left. apply Lb, Hl.
      - destruct Locks as [La Lb]. split; [exact La|].
        intros p Hp. apply in_app_or in Hp as [Hp|Hp]; [exact (Lb p Hp)|].
        apply in_app_or in Hp as [Hp|[Hp|[]]]; [|discriminate Hp].
        destruct R5 as [->| ->]; [destruct Hp | destruct Hp as [Hp|[]]; discriminate Hp]. }
    split; [exact U3|]. split; [exact Lists|].
    split.
    { intros p Hp. apply in_app_or in Hp as [Hp|Hp]; [destruct (NoRm p Hp)|].
      apply in_app_or in Hp as [Hp|[Hp|[]]]; [|discriminate Hp].
      destruct R5 as [->| ->]; [destruct Hp|].
      destruct Hp as [Hp|[]]. inversion Hp. reflexivity. }
    split.
    { intros p Hp. apply in_app_or in Hp as [Hp|Hp]; [exact (NoRmdir p Hp)|].
      apply in_app_or in Hp as [Hp|[Hp|[]]]; [|discriminate Hp].
      destruct R5 as [->| ->]; [destruct Hp | destruct Hp as [Hp|[]]; discriminate Hp]. }
    split; [reflexivity|].
    split; [intros _; exact Efail|].
    intros _. apply in_or_app. right. apply in_or_app. right. left. reflexivity.
Qed.

(** C3 (amended).  Provided the termination of the registered children and,
    with [dynamic_recover], the creation of the recovery files complete,
    [fail_pipeline] (1) sends SIGTERM to every registered child and empties
    [procs]; (2) with [dynamic_recover] creates the recovery file of every
    path in [locks] and empties [locks], and without it leaves [locks] as
    they are and creates no recovery file; (3) runs the cleanup as a dry
    run: the unconditional cleanup list is moved to the end of the
    conditional one, no directory is removed and no file but the flag file
    of the old status; (4) leaves the status [failed], and creates the
    [failed] flag file if and only if the status was not [failed] before (a
    completed or paused pipeline becomes failed); (5) raises the exception
    it was given. *)
Theorem fail_pipeline_spec e dynamic_recover s s1 :
  _terminate_running_subprocesses s = (Ret tt, s1) →
  (dynamic_recover = true →
   ∃ s2, recover_each (pm_locks (st_pm s1)) s1 = (Ret tt, s2)) →
  ∃ s' evs,
    fail_pipeline e dynamic_recover s = (Raise e, s') ∧
    w_trace (st_os s') = (w_trace (st_os s) ++ evs)%list ∧
    pm_procs (st_pm s') = [] ∧
    (∀ pid, pid ∈ (fst <$> pm_procs (st_pm s)) → In (EvKill pid) evs) ∧
    (if dynamic_recover
     then pm_locks (st_pm s') = [] ∧
          ∀ l, l ∈ pm_locks (st_pm s) →
               In (EvCreateExcl (_recoverfile_from_lockfile (st_pm s) l)) evs
     else pm_locks (st_pm s') = pm_locks (st_pm s) ∧
          ∀ p, ¬ In (EvCreateExcl p) evs) ∧
    pm_cleanup_list (st_pm s') = [] ∧
    pm_cleanup_list_conditional (st_pm s') =
      (pm_cleanup_list_conditional (st_pm s) ++ pm_cleanup_list (st_pm s))%list ∧
    (∀ p, In (EvRemove p) evs → p = _flag_file_path (st_pm s) None) ∧
    (∀ p, ¬ In (EvRmdir p) evs) ∧
    pm_status (st_pm s') = Failed ∧
    (In (EvCreate (_flag_file_path (st_pm s) (Some Failed))) evs
     ↔ pm_status (st_pm s) ≠ Failed).
Proof. exact (fail_pipeline_outcome e dynamic_recover s s1). Qed.


End FailurePath.

Lemma fail_pipeline_spec_witness :
  let e := KeyboardInterrupt "SIGTERM" in
  fst (_terminate_running_subprocesses running_state) = Ret tt ∧
  ∃ s', fail_pipeline e true running_state = (Raise e, s') ∧
        pm_procs (st_pm s') = [] ∧ pm_locks (st_pm s') = [] ∧
        pm_status (st_pm s') = Failed ∧
        In (EvKill 77) (w_trace (st_os s')) ∧
        In (EvCreateExcl "/out/recover.lock.out.txt") (w_trace (st_os s')).
Proof.
  intros e.
  assert (H1 : _terminate_running_subprocesses running_state =
               (Ret tt, snd (_terminate_running_subprocesses running_state)))
    by (vm_compute; reflexivity).
  assert (H2 : true = true →
               ∃ s2, recover_each
                       (pm_locks (st_pm (snd (_terminate_running_subprocesses running_state))))
                       (snd (_terminate_running_subprocesses running_state)) = (Ret tt, s2)).
  { intros _. eexists. vm_compute. reflexivity. }
  split; [vm_compute; reflexivity|].
  destruct (fail_pipeline_spec e true running_state _ H1 H2)
    as (s' & evs & E & T & P & K & [L R] & _ & _ & _ & _ & S & _).
  exists s'. split; [exact E|]. split; [exact P|]. split; [exact L|]. split; [exact S|].
  rewrite T. split.
  - apply in_or_app. right. apply K. left.
  - apply in_or_app. right. apply (R out_lock). left.
Defined.

(** C3 (fails as stated).  An error that is not a signal reaches
    [fail_pipeline] without [dynamic_recover]: the held lock stays in [locks]
    and no recovery file is written.  And a pipeline whose status is already
    [completed] is moved to [failed]. *)
Lemma fail_pipeline_keeps_locks_and_overrides_completed :
  let r := fail_pipeline nonzero_exit false running_state in
  fst r = Raise nonzero_exit ∧
  pm_locks (st_pm running_state) = [out_lock] ∧
  pm_locks (st_pm (snd r)) = [out_lock] ∧
  w_fs (st_os (snd r)) !! "/out/recover.lock.out.txt" = None ∧
  ¬ In (EvCreateExcl "/out/recover.lock.out.txt") (w_trace (st_os (snd r))) ∧
  let r' := fail_pipeline nonzero_exit false completed_state in
  pm_status (st_pm completed_state) = Completed ∧
  fst r' = Raise nonzero_exit ∧
  pm_status (st_pm (snd r')) = Failed ∧
  In (EvCreate "/out/pipe_failed.flag") (w_trace (st_os (snd r'))).
Proof.
  vm_compute. repeat split; try reflexivity.
  - intros [H|[H|[H|[H|[]]]]]; discriminate H.
  - right. left. reflexivity.
Qed.

(** * [run] without target and lock name *)

(** C6 (fails on the code).  A manager with [wait] turned off has registered
    the child of an earlier [run]; on a system without [/proc] the call
    [run("echo hi")] with neither target nor lock name reaches
    [fail_pipeline], whose termination of the children samples the memory of
    the child first: the [IOError] of the sampler leaves [run], the status is
    still [running] and no [failed] flag file is written. *)
Theorem run_without_target_can_leave_status_running :
  let r1 := run 1 (run_args (CmdStr "sleep 100") (TargetStr "a.txt")) nowait_state in
  fst r1 = Ret 0%Z ∧
  (fst <$> pm_procs (st_pm (snd r1))) = [77%Z] ∧
  let r := run 1 bare_args (snd r1) in
  fst r = Raise (IOError ENOENT) ∧
  pm_status (st_pm (snd r)) = Running ∧
  w_fs (st_os (snd r)) !! "/out/pipe_failed.flag" = None.
Proof. vm_compute. repeat split; reflexivity. Qed.

Section NoTarget.

Context {X : Externals}.

Lemma terminate_nothing s :
  pm_procs (st_pm s) = [] → _terminate_running_subprocesses s = (Ret tt, s).
Proof.
  intros H. unfold _terminate_running_subprocesses. unfold bind. cbn [get_pm].
  rewrite H. reflexivity.
Qed.

(** X20.  With no child registered, a call of [run] with neither target nor lock
    name raises the exception of the argument test, whatever the other
    arguments are: the status is then [failed], and [locks] are as before. *)
Lemma run_without_target_or_lock_fails fuel a s :
  a_target a = TargetNone → a_lock_name a = None →
  pm_procs (st_pm s) = [] →
  ∃ s', run fuel a s =
          (Raise (PyException "You must provide either a target or a lock_name."), s')
        ∧ pm_status (st_pm s') = Failed
        ∧ pm_locks (st_pm s') = pm_locks (st_pm s).
Proof.
  intros Ht Hl Hp. unfold run. rewrite Ht, Hl.
  destruct (fail_pipeline_outcome
              (PyException "You must provide either a target or a lock_name.") false s s
              (terminate_nothing s Hp))
    as (s' & evs & E & T & _ & _ & [L NoExcl] & _ & _ & Rm & _ & S & Cr).
  { discriminate. }
  exists s'. rewrite (bind_Raise _ _ _ _ _ E).
  split; [reflexivity|]. split; [exact S | exact L].
Qed.

End NoTarget.

(** * Invariants of the manager over whole runs *)

Section Maintains.

Context {X : Externals}.

Variable I : Manager → Manager → Prop.

Hypothesis I_refl : ∀ m, I m m.
Hypothesis I_trans : ∀ m1 m2 m3, I m1 m2 → I m2 m3 → I m1 m3.

Lemma maintains_ret {A} (a : A) : maintains I (ret a).
Proof. intros s. apply I_refl. Qed.

Lemma maintains_raise {A} e : maintains I (raise (A:=A) e).
Proof. intros s. apply I_refl. Qed.

Lemma maintains_out_of_fuel {A} : maintains I (out_of_fuel (A:=A)).
Proof. intros s. apply I_refl. Qed.

Lemma maintains_bind {A B} (m : M A) (k : A → M B) :
  maintains I m → (∀ a, maintains I (k a)) → maintains I (bind m k).
Proof.
  intros Hm Hk s. unfold bind. specialize (Hm s).
  destruct (m s) as [[a|e|] s1]; cbn [snd] in *; [|exact Hm|exact Hm].
  eapply I_trans; [exact Hm | apply Hk].
Qed.

Lemma maintains_try_except {A} (m : M A) (h : Exn → option (M A)) :
  maintains I m → (∀ e k, h e = Some k → maintains I k) →
  maintains I (try_except m h).
Proof.
  intros Hm Hh s. unfold try_except. specialize (Hm s).
  destruct (m s) as [[a|e|] s1]; cbn [snd] in *; [exact Hm| |exact Hm].
  destruct (h e) as [k|] eqn:E; [|exact Hm].
  eapply I_trans; [exact Hm | apply (Hh e k E)].
Qed.

Lemma maintains_try_finally {A} (m : M A) (fin : M unit) :
  maintains I m → maintains I fin → maintains I (try_finally m fin).
Proof.
  intros Hm Hf s. unfold try_finally. specialize (Hm s).
  destruct (m s) as [[a|e|] s1]; cbn [snd] in *; [| |exact Hm];
    specialize (Hf s1); destruct (fin s1) as [[[]|e'|] s2]; cbn [snd] in *;
    eapply I_trans; eassumption.
Qed.

Lemma maintains_sys {A} (c : World → Res A * World) : maintains I (sys c).
Proof.
  intros s. unfold sys. destruct (c (tick (st_os s))) as [r w]. apply I_refl.
Qed.

Lemma maintains_get_pm : maintains I get_pm.
Proof. intros s. apply I_refl. Qed.

Lemma maintains_time_time : maintains I time_time.
Proof. intros s. apply I_refl. Qed.

Lemma maintains_mod_pm (g : Manager → Manager) :
  (∀ m, I m (g m)) → maintains I (mod_pm g).
Proof. intros H s. apply H. Qed.

(** What the invariant asks of the assignments to the attributes. *)
Hypothesis I_status : ∀ x m, I m (set_status x m).
Hypothesis I_locks : ∀ x m, I m (set_locks x m).
Hypothesis I_procs : ∀ x m, I m (set_procs x m).
Hypothesis I_last_timestamp : ∀ x m, I m (set_last_timestamp x m).
Hypothesis I_cleanup_lists : ∀ x y m, I m (set_cleanup_lists x y m).
Hypothesis I_proc_name : ∀ x m, I m (set_proc_name x m).
Hypothesis I_stats_dict : ∀ x m, I m (set_stats_dict x m).
Hypothesis I_peak_memory :
  ∀ x m, I m (set_peak_memory (Py.maxQ (pm_peak_memory m) x) m).

Create HintDb maintain discriminated.

Ltac maintain_step :=
  lazymatch goal with
  | |- maintains _ (ret _) => apply maintains_ret
  | |- maintains _ (raise _) => apply maintains_raise
  | |- maintains _ out_of_fuel => apply maintains_out_of_fuel
  | |- maintains _ (sys _) => apply maintains_sys
  | |- maintains _ get_pm => apply maintains_get_pm
  | |- maintains _ time_time => apply maintains_time_time
  | |- maintains _ (mod_pm _) =>
      apply maintains_mod_pm; intros; cbv beta;
      first [ apply I_status | apply I_locks | apply I_procs | apply I_last_timestamp
            | apply I_cleanup_lists | apply I_proc_name | apply I_stats_dict
            | apply I_peak_memory ]
  | |- maintains _ (bind _ _) => apply maintains_bind; [|intros]
  | |- maintains _ (try_except _ _) =>
      apply maintains_try_except;
      [|let H := fresh "H" in
        intros ? ? H;
        repeat match type of H with
               | (if ?b then _ else _) = Some _ => destruct b
               end;
        first [discriminate H | inversion H; subst; clear H]]
  | |- maintains _ (try_finally _ _) => apply maintains_try_finally
  | |- maintains _ (match ?x with _ => _ end) => destruct x
  | |- maintains _ (let _ := _ in _) => cbv zeta
  | |- maintains _ _ => solve [auto 2 with maintain]
  end.

Ltac maintain := repeat maintain_step.

Lemma maintains_timestamp : maintains I timestamp.
Proof. unfold timestamp. maintain. Qed.

#[local] Hint Resolve maintains_timestamp : maintain.

Lemma maintains_set_status_flag status : maintains I (set_status_flag status).
Proof. unfold set_status_flag, os_remove, _create_file, open_w. maintain. Qed.

#[local] Hint Resolve maintains_set_status_flag : maintain.

Lemma maintains_report_profile c l t m : maintains I (_report_profile c l t m).
Proof. unfold _report_profile, open_a. maintain. Qed.

#[local] Hint Resolve maintains_report_profile : maintain.

Lemma maintains_report_command c : maintains I (_report_command c).
Proof. unfold _report_command, open_a. maintain. Qed.

#[local] Hint Resolve maintains_report_command : maintain.

Lemma maintains_status_lines lines result : maintains I (status_lines lines result).
Proof.
  revert result. induction lines as [|line lines IH]; intros result; cbn [status_lines].
  - maintain.
  - apply maintains_bind; [|intros; apply IH]. unfold status_line. maintain.
Qed.

#[local] Hint Resolve maintains_status_lines : maintain.

Lemma maintains_memory_usage pid category container :
  maintains I (_memory_usage pid category container).
Proof.
  unfold _memory_usage, docker_stats, open_r, read_lines.
  destruct (truthy container); maintain.
Qed.

#[local] Hint Resolve maintains_memory_usage : maintain.

Lemma maintains_remove_files files file : maintains I (remove_files files file).
Proof.
  revert file. induction files as [|f files IH]; intros file; cbn [remove_files].
  - maintain.
  - unfold os_path_isfile, os_path_isdir, os_remove, os_rmdir. maintain.
Qed.

#[local] Hint Resolve maintains_remove_files : maintain.

Lemma maintains_remove_globs exprs file : maintains I (remove_globs exprs file).
Proof.
  revert file. induction exprs as [|e exprs IH]; intros file; cbn [remove_globs].
  - maintain.
  - maintain.
Qed.

#[local] Hint Resolve maintains_remove_globs : maintain.

Lemma maintains_script_items items file : maintains I (script_items items file).
Proof.
  induction items as [|i items IH]; cbn [script_items].
  - maintain.
  - unfold open_a, os_path_isfile, os_path_isdir. maintain.
Qed.

#[local] Hint Resolve maintains_script_items : maintain.

Lemma maintains_script_globs dirs file : maintains I (script_globs dirs file).
Proof.
  induction dirs as [|d dirs IH]; cbn [script_globs].
  - maintain.
  - maintain.
Qed.

#[local] Hint Resolve maintains_script_globs : maintain.

Lemma maintains_cleanup dry_run : maintains I (_cleanup dry_run).
Proof.
  unfold _cleanup. maintain.
Qed.

#[local] Hint Resolve maintains_cleanup : maintain.

Lemma maintains_manual_items files : maintains I (manual_items files).
Proof.
  induction files as [|f files IH]; cbn [manual_items].
  - maintain.
  - unfold open_a, os_path_isfile, os_path_isdir. maintain.
Qed.

#[local] Hint Resolve maintains_manual_items : maintain.

Lemma maintains_clean_add regex conditional manual :
  maintains I (clean_add regex conditional manual).
Proof. unfold clean_add. maintain. Qed.

#[local] Hint Resolve maintains_clean_add : maintain.

Lemma maintains_terminate_each copy : maintains I (terminate_each copy).
Proof.
  induction copy as [|[pid info] copy IH]; cbn [terminate_each].
  - maintain.
  - unfold _kill_child_process, os_kill. maintain.
Qed.

#[local] Hint Resolve maintains_terminate_each : maintain.

Lemma maintains_recover_each copy : maintains I (recover_each copy).
Proof.
  induction copy as [|l copy IH]; cbn [recover_each].
  - maintain.
  - unfold _create_file_racefree, os_open_excl. maintain.
Qed.

#[local] Hint Resolve maintains_recover_each : maintain.

Lemma maintains_fail_pipeline e dynamic_recover :
  maintains I (fail_pipeline e dynamic_recover).
Proof.
  unfold fail_pipeline, _terminate_running_subprocesses. maintain.
Qed.

#[local] Hint Resolve maintains_fail_pipeline : maintain.

Lemma maintains_triage_error e nofail : maintains I (_triage_error e nofail).
Proof. unfold _triage_error. maintain. Qed.

#[local] Hint Resolve maintains_triage_error : maintain.

Lemma maintains_poll_loop polls shell pid container local_maxmem sleeptime :
  maintains I (poll_loop polls shell pid container local_maxmem sleeptime).
Proof.
  revert local_maxmem sleeptime.
  induction polls as [|k IH]; intros local_maxmem sleeptime; cbn [poll_loop];
    unfold poll_running, time_sleep.
  - maintain.
  - maintain.
Qed.

#[local] Hint Resolve maintains_poll_loop : maintain.

Lemma maintains_callprint cmd shell nofail container lock_name :
  maintains I (callprint cmd shell nofail container lock_name).
Proof.
  unfold callprint, popen. maintain.
Qed.

#[local] Hint Resolve maintains_callprint : maintain.

Lemma maintains_wait_loop fuel lock_file first sleeptime :
  maintains I (wait_loop fuel lock_file first sleeptime).
Proof.
  revert first sleeptime. induction fuel as [|fuel IH]; intros first sleeptime;
    cbn [wait_loop]; unfold os_path_isfile, time_sleep.
  - maintain.
  - maintain.
Qed.

#[local] Hint Resolve maintains_wait_loop : maintain.

Lemma maintains_wait_for_lock fuel lock_file : maintains I (_wait_for_lock fuel lock_file).
Proof.
  unfold _wait_for_lock. maintain.
Qed.

#[local] Hint Resolve maintains_wait_for_lock : maintain.

Lemma maintains_create_file_racefree file : maintains I (_create_file_racefree file).
Proof. unfold _create_file_racefree, os_open_excl. maintain. Qed.

#[local] Hint Resolve maintains_create_file_racefree : maintain.

Lemma maintains_locks_append lock_file : maintains I (locks_append lock_file).
Proof. unfold locks_append. maintain. Qed.

#[local] Hint Resolve maintains_locks_append : maintain.

Lemma maintains_locks_remove lock_file : maintains I (locks_remove lock_file).
Proof. unfold locks_remove. maintain. Qed.

#[local] Hint Resolve maintains_locks_remove : maintain.

Lemma maintains_check_loop overwrite names : maintains I (check_loop overwrite names).
Proof.
  induction names as [|n names IH]; cbn [check_loop]; unfold os_path_isfile.
  - maintain.
  - maintain.
Qed.

#[local] Hint Resolve maintains_check_loop : maintain.

Lemma maintains_call_follow follow : maintains I (call_follow follow).
Proof. unfold call_follow, call_user. maintain. Qed.

#[local] Hint Resolve maintains_call_follow : maintain.

Lemma maintains_run_tests fuel a target lock_file recover_file recover_mode :
  maintains I (run_tests fuel a target lock_file recover_file recover_mode).
Proof.
  unfold run_tests, os_path_exists, os_path_isfile, os_remove. maintain.
Qed.

#[local] Hint Resolve maintains_run_tests : maintain.

Lemma maintains_run_acquire lock_file recover_mode :
  maintains I (run_acquire lock_file recover_mode).
Proof. unfold run_acquire, create_or_continue, _create_file, open_w. maintain. Qed.

#[local] Hint Resolve maintains_run_acquire : maintain.

Lemma maintains_run_cmd_list cmds a prc lmm : maintains I (run_cmd_list cmds a prc lmm).
Proof.
  revert prc lmm. induction cmds as [|c cmds IH]; intros prc lmm; cbn [run_cmd_list].
  - maintain.
  - maintain.
Qed.

#[local] Hint Resolve maintains_run_cmd_list : maintain.

Lemma maintains_run_execute a target lock_file prc lmm :
  maintains I (run_execute a target lock_file prc lmm).
Proof.
  unfold run_execute, os_remove. maintain.
Qed.

#[local] Hint Resolve maintains_run_execute : maintain.

Lemma maintains_run_loop fuel a target lock_file recover_file recover_mode prc lmm :
  maintains I (run_loop fuel a target lock_file recover_file recover_mode prc lmm).
Proof.
  revert recover_mode. induction fuel as [|fuel IH]; intros recover_mode; cbn [run_loop].
  - maintain.
  - maintain.
Qed.

#[local] Hint Resolve maintains_run_loop : maintain.

Lemma maintains_run fuel a : maintains I (run fuel a).
Proof.
  unfold run, first_target, default_lock_name. maintain.
Qed.

#[local] Hint Resolve maintains_run : maintain.

Lemma maintains_safe_write_loop fuel file lock_file message :
  maintains I (safe_write_loop fuel file lock_file message).
Proof.
  induction fuel as [|fuel IH]; cbn [safe_write_loop];
    unfold os_path_isfile, open_a, os_remove, create_or_continue; maintain.
Qed.

#[local] Hint Resolve maintains_safe_write_loop : maintain.

Lemma maintains_report_result fuel key value annotation :
  maintains I (report_result fuel key value annotation).
Proof.
  unfold report_result, _safe_write_to_file. maintain.
Qed.

#[local] Hint Resolve maintains_report_result : maintain.

Lemma maintains_stop_pipeline fuel status : maintains I (stop_pipeline fuel status).
Proof.
  unfold stop_pipeline. maintain.
Qed.

#[local] Hint Resolve maintains_stop_pipeline : maintain.

End Maintains.

Lemma peak_le_max x m : peak_le m (set_peak_memory (Py.maxQ (pm_peak_memory m) x) m).
Proof.
  unfold peak_le, Py.maxQ. cbn [set_peak_memory pm_peak_memory].
  destruct (Qle_bool x (pm_peak_memory m)) eqn:E; [apply Qle_refl|].
  destruct (Qlt_le_dec (pm_peak_memory m) x) as [H|H]; [apply Qlt_le_weak, H|].
  apply Qle_bool_iff in H. congruence.
Qed.

(** X1.  [peak_memory] never decreases: whatever [run], [callprint],
    [fail_pipeline] and [stop_pipeline] do and however they end (a return,
    an exception, a wait without end), the peak memory of the manager
    afterwards is at least the one before. *)
Theorem peak_memory_never_decreases {X : Externals} :
  (∀ fuel a, maintains peak_le (run fuel a)) ∧
  (∀ cmd shell nofail container lock_name,
     maintains peak_le (callprint cmd shell nofail container lock_name)) ∧
  (∀ e dynamic_recover, maintains peak_le (fail_pipeline e dynamic_recover)) ∧
  (∀ fuel status, maintains peak_le (stop_pipeline fuel status)).
Proof.
  assert (R : ∀ m, peak_le m m) by (intros m; apply Qle_refl).
  assert (T : ∀ m1 m2 m3, peak_le m1 m2 → peak_le m2 m3 → peak_le m1 m3)
    by (intros m1 m2 m3; apply Qle_trans).
  repeat split; intros.
  - apply maintains_run; auto using peak_le_max; intros; apply R.
  - apply maintains_callprint; auto using peak_le_max; intros; apply R.
  - apply maintains_fail_pipeline; auto using peak_le_max; intros; apply R.
  - apply maintains_stop_pipeline; auto using peak_le_max; intros; apply R.
Qed.

(** X2.  No operation of the engine changes what the constructor fixed: the
    name, the output folder, the flags [overwrite_locks], [force_follow],
    [manual_clean], [overwrite_checkpoints] and [wait], and the start time. *)
Theorem configuration_is_constant {X : Externals} :
  (∀ fuel a s, configuration (st_pm (snd (run fuel a s))) = configuration (st_pm s)) ∧
  (∀ e dynamic_recover s,
     configuration (st_pm (snd (fail_pipeline e dynamic_recover s))) = configuration (st_pm s)) ∧
  (∀ fuel status s,
     configuration (st_pm (snd (stop_pipeline fuel status s))) = configuration (st_pm s)).
Proof.
  assert (R : ∀ m, same_configuration m m) by reflexivity.
  assert (T : ∀ m1 m2 m3, same_configuration m1 m2 → same_configuration m2 m3 →
                          same_configuration m1 m3)
    by (unfold same_configuration; intros; congruence).
  repeat split; intros.
  - apply (maintains_run same_configuration); auto; intros; reflexivity.
  - apply (maintains_fail_pipeline same_configuration); auto; intros; reflexivity.
  - apply (maintains_stop_pipeline same_configuration); auto; intros; reflexivity.
Qed.

(** * Lock names *)

Lemma startswith_app p s : Py.startswith p (p +:+ s) = true.
Proof.
  induction p as [|c p IH]; [destruct s; reflexivity|].
  change (String c p +:+ s) with (String c (p +:+ s)).
  cbn [Py.startswith]. rewrite Ascii.eqb_refl. exact IH.
Qed.

(** X3.  The name [_ensure_lock_prefix] returns starts with the lock prefix, and
    the function applied twice is the function applied once: a name is
    never prefixed twice. *)
Theorem ensure_lock_prefix_idempotent lock_name_base :
  Py.startswith LOCK_PREFIX (_ensure_lock_prefix lock_name_base) = true ∧
  _ensure_lock_prefix (_ensure_lock_prefix lock_name_base) = _ensure_lock_prefix lock_name_base.
Proof.
  assert (H1 : Py.startswith LOCK_PREFIX (_ensure_lock_prefix lock_name_base) = true).
  { unfold _ensure_lock_prefix.
    destruct (Py.startswith LOCK_PREFIX lock_name_base) eqn:E; [exact E|].
    apply startswith_app. }
  split; [exact H1|].
  unfold _ensure_lock_prefix at 1. rewrite H1. reflexivity.
Qed.

(** * Checkpoint files *)

Section CheckpointFiles.

Context {X : Externals}.

(** An absolute checkpoint path that is not directly in the output folder
    is refused with [ValueError], before any file is looked at or written. *)
Theorem touch_checkpoint_rejects_other_folders check_file s :
  OsPath.isabs check_file = true →
  in_outfolder (st_pm s) check_file = false →
  touch_checkpoint check_file s = (Raise ValueError, s).
Proof.
  intros Ha Hi. unfold touch_checkpoint. unfold bind at 1. cbn [get_pm].
  rewrite Ha. unfold in_outfolder in Hi.
  destruct (OsPath.split check_file) as [folder name]. cbn [fst] in Hi.
  rewrite Hi. reflexivity.
Qed.


End CheckpointFiles.

Lemma touch_checkpoint_rejects_other_folders_witness :
  OsPath.isabs "/elsewhere/align_reads.checkpoint" = true ∧
  in_outfolder pipe "/elsewhere/align_reads.checkpoint" = false ∧
  touch_checkpoint "/elsewhere/align_reads.checkpoint" fresh_state = (Raise ValueError, fresh_state).
Proof.
  split; [reflexivity|]. split; [reflexivity|].
  apply (touch_checkpoint_rejects_other_folders "/elsewhere/align_reads.checkpoint" fresh_state);
    reflexivity.
Defined.


(** * Status flags *)

Lemma string_app_inv_head (p x y : string) : p +:+ x = p +:+ y → x = y.
Proof.
  induction p as [|c p IH]; [exact (fun H => H)|].
  intros H. change (String c (p +:+ x) = String c (p +:+ y)) in H.
  inversion H. apply IH. assumption.
Qed.

Lemma string_app_assoc (x y z : string) : (x +:+ y) +:+ z = x +:+ (y +:+ z).
Proof.
  induction x as [|c x IH]; [reflexivity|].
  change (String c ((x +:+ y) +:+ z) = String c (x +:+ (y +:+ z))). rewrite IH. reflexivity.
Qed.

Lemma flag_name_inj s1 s2 :
  "_" +:+ flag_name (status_token s1) +:+ EmptyString =
  "_" +:+ flag_name (status_token s2) +:+ EmptyString → s1 = s2.
Proof. destruct s1, s2; intros H; try reflexivity; discriminate H. Qed.

(** The flag files of two statuses of one manager are two files. *)
Lemma flag_file_path_inj m s1 s2 :
  _flag_file_path m (Some s1) = _flag_file_path m (Some s2) → s1 = s2.
Proof.
  unfold _flag_file_path, pipeline_filepath. cbv [default from_option id].
  set (t1 := "_" +:+ flag_name (status_token s1) +:+ EmptyString).
  set (t2 := "_" +:+ flag_name (status_token s2) +:+ EmptyString).
  assert (E1 : (pm_name m +:+ "_" +:+ flag_name (status_token s1)) +:+ EmptyString
               = pm_name m +:+ t1).
  { unfold t1. rewrite !string_app_assoc. reflexivity. }
  assert (E2 : (pm_name m +:+ "_" +:+ flag_name (status_token s2)) +:+ EmptyString
               = pm_name m +:+ t2).
  { unfold t2. rewrite !string_app_assoc. reflexivity. }
  rewrite E1, E2. clear E1 E2. intros H. apply flag_name_inj. fold t1 t2.
  revert H. unfold OsPath.join.
  assert (Hs : Py.startswith "/" (pm_name m +:+ t1) = Py.startswith "/" (pm_name m +:+ t2)).
  { destruct (pm_name m) as [|c n]; reflexivity. }
  rewrite <- Hs. destruct (Py.startswith "/" (pm_name m +:+ t1)).
  - apply string_app_inv_head.
  - destruct (pm_outfolder m) as [|c o] eqn:Eo; [apply string_app_inv_head|].
    destruct (Py.last_char_is OsPath.is_sep (String c o)).
    + intros H. apply string_app_inv_head in H. apply string_app_inv_head in H. exact H.
    + intros H.
      apply string_app_inv_head in H. apply string_app_inv_head in H.
      apply string_app_inv_head in H. exact H.
Qed.

(** X5.  One flag file at a time: after [set_status_flag] to another status the
    manager has the new status, the flag file of the new status is there and
    the one of the old status is not, as long as no other process recreates
    it. *)
Theorem set_status_flag_moves_the_flag status s :
  pm_status (st_pm s) ≠ status →
  env_keeps (st_os s) [_flag_file_path (st_pm s) None] →
  ∃ s', set_status_flag status s = (Ret tt, s') ∧
        st_pm s' = set_status status (st_pm s) ∧
        is_file (w_fs (st_os s')) (_flag_file_path (st_pm s') None) = true ∧
        is_file (w_fs (st_os s')) (_flag_file_path (st_pm s) None) = false.
Proof.
  intros Hne Hk. destruct s as [m w]. cbn [st_pm st_os] in *.
  assert (Hp : _flag_file_path m None ≠ _flag_file_path (set_status status m) None).
  { intros E. apply Hne.
    apply (flag_file_path_inj m). exact E. }
  set (old := _flag_file_path m None) in *.
  set (new := _flag_file_path (set_status status m) None) in *.
  unfold set_status_flag. unfold bind at 1. cbn [get_pm st_pm].
  unfold bind at 1, try_except, os_remove, sys. cbn [st_os st_pm]. fold old.
  destruct (w_fs (tick w) !! old) as [[c|]|] eqn:El.
  - eexists. split; [reflexivity|]. split; [reflexivity|].
    cbn [st_os st_pm]. fold new. unfold is_file.
    cbn [w_fs tick log_ev set_fs w_env w_clock].
    rewrite lookup_insert_eq. split; [reflexivity|].
    rewrite lookup_insert_ne by (intros E; apply Hp; symmetry; exact E).
    rewrite (Hk _ _ old) by left. rewrite lookup_delete_eq. reflexivity.
  - eexists. split; [reflexivity|]. split; [reflexivity|].
    cbn [st_os st_pm]. fold new. unfold is_file.
    cbn [w_fs tick log_ev set_fs w_env w_clock].
    rewrite lookup_insert_eq. split; [reflexivity|].
    rewrite lookup_insert_ne by (intros E; apply Hp; symmetry; exact E).
    rewrite (Hk _ _ old) by left.
    cbn [w_fs tick] in El. rewrite El. reflexivity.
  - eexists. split; [reflexivity|]. split; [reflexivity|].
    cbn [st_os st_pm]. fold new. unfold is_file.
    cbn [w_fs tick log_ev set_fs w_env w_clock].
    rewrite lookup_insert_eq. split; [reflexivity|].
    rewrite lookup_insert_ne by (intros E; apply Hp; symmetry; exact E).
    rewrite (Hk _ _ old) by left.
    cbn [w_fs tick] in El. rewrite El. reflexivity.
Qed.

Lemma set_status_flag_moves_the_flag_witness :
  pm_status (st_pm fresh_state) ≠ Waiting ∧
  ∃ s', set_status_flag Waiting fresh_state = (Ret tt, s') ∧
        st_pm s' = set_status Waiting pipe ∧
        is_file (w_fs (st_os s')) "/out/pipe_waiting.flag" = true ∧
        is_file (w_fs (st_os s')) "/out/pipe_running.flag" = false.
Proof.
  assert (H : pm_status (st_pm fresh_state) ≠ Waiting) by discriminate.
  split; [exact H|].
  destruct (set_status_flag_moves_the_flag Waiting fresh_state H)
    as (s' & E & M & F1 & F2).
  { apply quiet_keeps. reflexivity. }
  exists s'. split; [exact E|]. split; [exact M|]. rewrite M in F1.
  split; [exact F1 | exact F2].
Defined.

(** * Waiting for a lock *)

Section Waiting.

Context {X : Externals}.

(** A lock that is not there is not waited for: [_wait_for_lock] returns
    after its first test, with the manager and the trace as they were,
    whatever the fuel. *)
Theorem wait_for_lock_free fuel lock_file s :
  is_file (w_fs (tick (st_os s))) lock_file = false →
  _wait_for_lock fuel lock_file s =
    (Ret tt, {| st_pm := st_pm s; st_os := tick (st_os s) |}).
Proof.
  intros H. unfold _wait_for_lock. unfold bind at 1.
  destruct fuel; cbn [wait_loop]; unfold bind at 1, os_path_isfile, sys;
    rewrite H; reflexivity.
Qed.

Lemma wait_loop_flag fuel lock_file first sleeptime s b s1 :
  wait_loop fuel lock_file first sleeptime s = (Ret b, s1) →
  first = true ∨ is_file (w_fs (tick (st_os s))) lock_file = true →
  b = true.
Proof.
  revert first sleeptime s. induction fuel as [|fuel IH]; intros first sleeptime s H Hf.
  - cbn [wait_loop] in H. unfold bind at 1, os_path_isfile, sys in H.
    destruct (is_file (w_fs (tick (st_os s))) lock_file).
    + discriminate H.
    + inversion H; subst. destruct Hf as [Hf|Hf]; [congruence | discriminate Hf].
  - cbn [wait_loop] in H. unfold bind at 1, os_path_isfile, sys in H.
    destruct (is_file (w_fs (tick (st_os s))) lock_file).
    + apply bind_inv_Ret in H as (? & sa & _ & H).
      apply bind_inv_Ret in H as (? & sb & _ & H).
      apply IH in H; [exact H | left; reflexivity].
    + inversion H; subst. destruct Hf as [Hf|Hf]; [congruence | discriminate Hf].
Qed.

(** X6.  When [_wait_for_lock] had to wait and returns, the status is
    [running], whatever it was before. *)
Theorem wait_for_lock_restores_running fuel lock_file s s' :
  is_file (w_fs (tick (st_os s))) lock_file = true →
  _wait_for_lock fuel lock_file s = (Ret tt, s') →
  pm_status (st_pm s') = Running.
Proof.
  intros Hl H. unfold _wait_for_lock in H.
  apply bind_inv_Ret in H as (b & s1 & Hw & H).
  apply wait_loop_flag in Hw; [|right; exact Hl]. subst b.
  apply bind_inv_Ret in H as ([] & s2 & _ & H).
  destruct (set_status_flag_eq RUN_FLAG s2) as (s3 & evs & E & M & _).
  rewrite E in H. inversion H; subst s'. rewrite M. reflexivity.
Qed.






End Waiting.

Lemma wait_for_lock_free_witness :
  is_file (w_fs (tick (st_os fresh_state))) out_lock = false ∧
  _wait_for_lock 0 out_lock fresh_state =
    (Ret tt, {| st_pm := pipe; st_os := tick (st_os fresh_state) |}).
Proof.
  assert (H : is_file (w_fs (tick (st_os fresh_state))) out_lock = false)
    by (vm_compute; reflexivity).
  split; [exact H|]. exact (wait_for_lock_free 0 out_lock fresh_state H).
Defined.

Lemma wait_for_lock_restores_running_witness :
  is_file (w_fs (tick (st_os (contended_state 6)))) out_lock = true ∧
  fst (_wait_for_lock 3 out_lock (contended_state 6)) = Ret tt ∧
  pm_status (st_pm (snd (_wait_for_lock 3 out_lock (contended_state 6)))) = Running.
Proof.
  assert (H1 : is_file (w_fs (tick (st_os (contended_state 6)))) out_lock = true)
    by (vm_compute; reflexivity).
  assert (H2 : _wait_for_lock 3 out_lock (contended_state 6) =
               (Ret tt, snd (_wait_for_lock 3 out_lock (contended_state 6))))
    by (vm_compute; reflexivity).
  split; [exact H1|]. split; [rewrite H2; reflexivity|].
  exact (wait_for_lock_restores_running 3 out_lock _ _ H1 H2).
Defined.

(** Scenario 3 of the spec: the lock is held by another pipeline, which
    writes the target and releases the lock while this one waits; this one
    waits with the status [waiting], then finds the target and skips the
    command, with the status [running] again. *)
Example lock_contention :
  let r := run 3 echo_args (contended_state 9) in
  fst r = Ret 0%Z ∧
  pm_status (st_pm (snd r)) = Running ∧
  pm_locks (st_pm (snd r)) = [] ∧
  w_trace (st_os (snd r)) =
    [EvRemove "/out/pipe_running.flag"; EvCreate "/out/pipe_waiting.flag";
     EvSleep (1 # 2); EvSleep (12 # 4);
     EvRemove "/out/pipe_waiting.flag"; EvCreate "/out/pipe_running.flag"].
Proof. vm_compute. repeat split; reflexivity. Qed.

(** * Cleanup *)

Section PostMore.

Context {T : Type} (f : Manager → T) (P : Ev → Prop).

Lemma post_bind_returns {A B} (m : M A) (k : A → M B) (Q : Res B → Prop) :
  post m returns (evolves f P) →
  (∀ a, post (k a) Q (evolves f P)) →
  post (bind m k) Q (evolves f P).
Proof.
  intros Hm Hk. apply post_bind with (Q1 := returns);
    [exact Hm | intros a _; apply Hk | intros e [a Ha]; discriminate Ha
    | intros [a Ha]; discriminate Ha].
Qed.

Lemma post_bind_finishes {A B} (m : M A) (k : A → M B) :
  post m finishes (evolves f P) →
  (∀ a, post (k a) finishes (evolves f P)) →
  post (bind m k) finishes (evolves f P).
Proof.
  intros Hm Hk. apply post_bind with (Q1 := finishes);
    [exact Hm | intros a _; apply Hk | intros e _; discriminate
    | intros H; exfalso; apply H; reflexivity].
Qed.

Lemma post_returns_finishes {A} (m : M A) :
  post m returns (evolves f P) → post m finishes (evolves f P).
Proof. intros H. eapply post_weaken; [exact H | intros r [a ->]; discriminate]. Qed.

(** [try: m except: handler] with a handler that returns *)
Lemma post_catch_all {A} (m : M A) (h : Exn → M A) :
  post m finishes (evolves f P) →
  (∀ e, post (h e) returns (evolves f P)) →
  post (try_except m (fun e => Some (h e))) returns (evolves f P).
Proof.
  intros Hm Hh. apply post_try_except with (Q1 := finishes).
  - exact Hm.
  - intros a _. eexists; reflexivity.
  - intros e k _ Hk. inversion Hk; subst k. apply Hh.
  - intros e _ Hk. discriminate Hk.
  - intros H. destruct H. reflexivity.
Qed.

Lemma post_os_remove_finishes p :
  P (EvRemove p) → post (os_remove p) finishes (evolves f P).
Proof.
  intros HP. apply post_sys. intros w.
  destruct (w_fs w !! p) as [[c|]|]; cbn [fst snd]; (split; [discriminate|]).
  - exists [EvRemove p]. split; [reflexivity | repeat constructor; exact HP].
  - exists []. split; [symmetry; apply app_nil_r | constructor].
  - exists []. split; [symmetry; apply app_nil_r | constructor].
Qed.

Lemma post_os_rmdir_finishes p :
  P (EvRmdir p) → post (os_rmdir p) finishes (evolves f P).
Proof.
  intros HP. apply post_sys. intros w.
  destruct (w_fs w !! p) as [[c|]|]; [| destruct (has_entries (w_fs w) p) |];
    cbn [fst snd]; (split; [discriminate|]).
  all: first [ exists []; (split; [symmetry; apply app_nil_r | constructor])
             | exists [EvRmdir p]; (split; [reflexivity | repeat constructor; exact HP]) ].
Qed.

End PostMore.

Section Cleanup.

Context {X : Externals}.

Lemma post_remove_files files file :
  post (remove_files files file) returns (evolves id (cleanup_event false)).
Proof.
  revert file. induction files as [|f0 rest IH]; intros file; cbn [remove_files].
  - apply post_ret. eexists; reflexivity.
  - apply post_bind_returns.
    + apply post_catch_all; [|intros e; apply post_ret; eexists; reflexivity].
      apply post_bind_finishes; [apply post_returns_finishes, post_os_path_isfile|].
      intros isf. apply post_bind_finishes; [|intros; apply post_ret; discriminate].
      destruct isf.
      * apply post_os_remove_finishes. reflexivity.
      * apply post_bind_finishes; [apply post_returns_finishes, post_os_path_isdir|].
        intros []; [apply post_os_rmdir_finishes; reflexivity | apply post_ret; discriminate].
    + intros []; [apply IH | apply post_ret; eexists; reflexivity].
Qed.

Lemma post_remove_globs exprs file :
  post (remove_globs exprs file) returns (evolves id (cleanup_event false)).
Proof.
  revert file. induction exprs as [|expr rest IH]; intros file; cbn [remove_globs].
  - apply post_ret. eexists; reflexivity.
  - apply post_bind_returns; [apply post_glob|]. intros files.
    apply post_bind_returns; [apply post_remove_files|]. intros file'. apply IH.
Qed.

Lemma post_script_items_any dry_run items file :
  post (script_items items file) (fun r => returns r ∨ r = Raise UnboundLocalError)
    (evolves id (cleanup_event dry_run)).
Proof.
  induction items as [|clean_item rest IH]; cbn [script_items].
  - apply post_ret. left. eexists; reflexivity.
  - apply post_bind_returns; [apply post_get_pm; intros; eexists; reflexivity|].
    intros pm. apply post_bind_returns; [apply post_open_a; exact I|]. intros _.
    destruct file as [f0|]; [|apply post_raise; right; reflexivity].
    apply post_bind_returns; [apply post_os_path_isfile|]. intros isf.
    apply post_bind_returns; [|intros _; exact IH].
    destruct isf; [apply post_open_a; exact I|].
    apply post_bind_returns; [apply post_os_path_isdir|].
    intros []; [apply post_open_a; exact I | apply post_ret; eexists; reflexivity].
Qed.

Lemma post_script_globs_any dry_run cleandirs file :
  post (script_globs cleandirs file) returns (evolves id (cleanup_event dry_run)).
Proof.
  induction cleandirs as [|cleandir rest IH]; cbn [script_globs].
  - apply post_ret. eexists; reflexivity.
  - apply post_bind_returns; [|intros _; exact IH].
    apply post_try_except
      with (Q1 := fun r => returns r ∨ r = Raise UnboundLocalError).
    + apply post_bind_returns; [apply post_glob|].
      intros items. apply post_script_items_any.
    + intros a _. eexists; reflexivity.
    + intros e k [[a H]|H]; [discriminate H|]. inversion H; subst e.
      cbn. intros Hk. inversion Hk; subst k. apply post_ret. eexists; reflexivity.
    + intros e [[a H]|H]; [discriminate H|]. inversion H; subst e. cbn. discriminate.
    + intros [[a H]|H]; discriminate H.
Qed.

Lemma post_cleanup_for_real :
  post (_cleanup false) returns (evolves id (cleanup_event false)).
Proof.
  unfold _cleanup.
  apply post_bind_returns; [apply post_get_pm; intros; eexists; reflexivity|]. intros pm0.
  apply post_bind_returns; [apply post_ret; eexists; reflexivity|]. intros _.
  apply post_bind_returns; [apply post_get_pm; intros; eexists; reflexivity|]. intros pm1.
  apply post_bind_returns.
  { destruct (pm_cleanup_list pm1); [apply post_ret; eexists; reflexivity|].
    apply post_remove_globs. }
  intros file.
  apply post_bind_returns; [apply post_get_pm; intros; eexists; reflexivity|]. intros pm2.
  destruct (pm_cleanup_list_conditional pm2) as [|c cond];
    [apply post_ret; eexists; reflexivity|].
  apply post_bind_returns; [apply post_glob|]. intros found. cbv zeta.
  match goal with |- context [filter ?Pf ?l] => destruct (filter Pf l) end.
  - apply post_bind_returns; [apply post_remove_globs|].
    intros _. apply post_ret. eexists; reflexivity.
  - apply post_script_globs_any.
Qed.


Lemma remove_globs_one file m w :
  env_keeps w [file] →
  is_file (w_fs w) file = true →
  glob_glob (w_fs (tick w)) file = [file] →
  remove_globs [file] None {| st_pm := m; st_os := w |} =
    (Ret (Some file),
     {| st_pm := m;
        st_os := log_ev (EvRemove file)
                   (set_fs (delete file (w_fs (ticks 3 w))) (ticks 3 w)) |}).
Proof.
  intros Hk Hf Hg.
  assert (F2 : is_file (w_fs (ticks 2 w)) file = true).
  { rewrite (is_file_ticks 2 w [file] file Hk) by (apply list_elem_of_here). exact Hf. }
  assert (F3 : ∃ c, w_fs (ticks 3 w) !! file = Some (File c)).
  { rewrite (lookup_ticks 3 w [file] file Hk) by (apply list_elem_of_here).
    unfold is_file in Hf. destruct (w_fs w !! file) as [[c|]|]; try discriminate Hf.
    exists c. reflexivity. }
  destruct F3 as [c F3].
  cbn [remove_globs]. unfold bind at 1, sys at 1. cbn [st_os st_pm]. rewrite Hg.
  unfold bind at 1. cbn [remove_files]. unfold bind at 1, try_except.
  unfold bind at 1. rewrite os_path_isfile_eq.
  change (tick (tick w)) with (ticks 2 w). rewrite F2.
  unfold bind at 1, os_remove, sys at 1. cbn [st_os st_pm].
  change (tick (ticks 2 w)) with (ticks 3 w). rewrite F3. reflexivity.
Qed.

(** X9.  A file flagged with [clean_add] is removed by [_cleanup]: when the
    lists are empty, manual cleaning is off, and the file is there and is
    what its name, taken as a pattern, matches, then [clean_add] followed by
    [_cleanup] returns, the file is gone, and its removal is the only thing
    that happened. *)
Theorem clean_add_then_cleanup_removes file s :
  pm_manual_clean (st_pm s) = false →
  pm_cleanup_list (st_pm s) = [] →
  pm_cleanup_list_conditional (st_pm s) = [] →
  env_keeps (st_os s) [file] →
  is_file (w_fs (st_os s)) file = true →
  glob_glob (w_fs (tick (st_os s))) file = [file] →
  ∃ s', (clean_add file false false ;; _cleanup false) s = (Ret tt, s') ∧
        w_fs (st_os s') !! file = None ∧
        w_trace (st_os s') = (w_trace (st_os s) ++ [EvRemove file])%list ∧
        pm_cleanup_list (st_pm s') = [file].
Proof.
  intros Hm Hl Hc Hk Hf Hg.
  unfold clean_add, _cleanup. unfold bind at 1. unfold bind at 1. cbn [get_pm].
  rewrite Hm. unfold mod_pm at 1. cbv beta. rewrite Hl, Hc.
  cbn [remove_all filter app].
  unfold bind at 1. cbn [get_pm]. unfold bind at 1. cbn [ret].
  unfold bind at 1. cbn [get_pm st_pm set_cleanup_lists pm_cleanup_list].
  unfold bind at 1. rewrite (remove_globs_one file _ _ Hk Hf Hg).
  unfold bind at 1.
  cbn [get_pm st_pm set_cleanup_lists pm_cleanup_list pm_cleanup_list_conditional ret].
  eexists. split; [reflexivity|]. cbn [st_os st_pm log_ev set_fs w_fs w_trace pm_cleanup_list
                                       set_cleanup_lists].
  split; [apply lookup_delete_eq|]. split; [|reflexivity].
  rewrite ticks_trace. reflexivity.
Qed.


Lemma cleanup_nothing dry_run s :
  pm_cleanup_list (st_pm s) = [] →
  pm_cleanup_list_conditional (st_pm s) = [] →
  _cleanup dry_run s = (Ret tt, s).
Proof.
  intros Hl Hc. unfold _cleanup. unfold bind at 1. cbn [get_pm]. rewrite Hl.
  replace (if dry_run then ret () else ret ()) with (ret (A:=unit) tt)
    by (destruct dry_run; reflexivity).
  unfold bind at 1. cbn [ret]. unfold bind at 1. cbn [get_pm]. rewrite Hl.
  unfold bind at 1. cbn [ret]. unfold bind at 1. cbn [get_pm]. rewrite Hc.
  reflexivity.
Qed.


End Cleanup.

Lemma clean_add_then_cleanup_removes_witness :
  let s := {| st_pm := pipe; st_os := world tmp_fs quiet no_deny (spawn_ok 10 0 0) |} in
  ∃ s', (clean_add "/out/tmp.sam" false false ;; _cleanup false) s = (Ret tt, s') ∧
        w_fs (st_os s') !! "/out/tmp.sam" = None ∧
        w_trace (st_os s') = (w_trace (st_os s) ++ [EvRemove "/out/tmp.sam"])%list ∧
        pm_cleanup_list (st_pm s') = ["/out/tmp.sam"].
Proof.
  intros s. apply (clean_add_then_cleanup_removes "/out/tmp.sam" s).
  - reflexivity.
  - reflexivity.
  - reflexivity.
  - apply quiet_keeps. reflexivity.
  - vm_compute. reflexivity.
  - vm_compute. reflexivity.
Defined.


(** * The subprocess supervisor *)

Section Supervisor.

Context {X : Externals}.

Lemma ticks_spawn k w : w_spawn (ticks k w) = w_spawn w.
Proof. induction k as [|k IH]; [reflexivity|]. rewrite ticks_S. exact IH. Qed.

(** In a shell the poll loop takes no memory sample: it only sleeps, and
    the peak it reports is the one it started with. *)
Lemma poll_loop_shell polls pid container local_maxmem sleeptime m w :
  ∃ w', poll_loop polls true pid container local_maxmem sleeptime {| st_pm := m; st_os := w |} =
          (Ret (local_maxmem, None), {| st_pm := m; st_os := w' |}).
Proof.
  revert sleeptime w. induction polls as [|k IH]; intros sleeptime w; cbn [poll_loop].
  - eexists. reflexivity.
  - unfold bind at 1. unfold poll_running at 1, sys at 1. cbn [st_os st_pm].
    unfold bind at 1. cbn [ret]. unfold bind at 1. unfold time_sleep at 1, sys at 1.
    cbn [st_os st_pm]. apply IH.
Qed.

(** X11.  What [nofail] means.  A command run in a shell whose child exits with
    a code other than 0 makes [callprint] fail the pipeline: the call raises
    "Subprocess returned nonzero result." and the status is [failed].  With
    [nofail] the call returns the exit code and the status stays, as it does
    when the child exits with 0.  In a shell no memory is sampled: the peak
    returned is -1.  In each case the child is no longer in [procs], and
    [locks] is what it was. *)
Theorem callprint_shell_outcome cmd shell nofail lock_name proc_name rest c s :
  Py.split cmd = proc_name :: rest →
  resolved_shell shell cmd = true →
  (∀ n, w_spawn (st_os s) n (ShellCmd cmd) = Spawned c) →
  pm_wait (st_pm s) = true →
  pm_procs (st_pm s) = [] →
  failed (st_pm s) = false →
  ∃ s', callprint cmd shell nofail None lock_name s =
          (if (c_returncode c =? 0)%Z || nofail then Ret (c_returncode c, (-1)%Q)
           else Raise nonzero, s') ∧
        pm_status (st_pm s') =
          (if (c_returncode c =? 0)%Z || nofail then pm_status (st_pm s) else Failed) ∧
        pm_procs (st_pm s') = [] ∧
        pm_locks (st_pm s') = pm_locks (st_pm s).
Proof.
  intros Hsplit Hshell Hspawn Hwait Hprocs Hfailed. destruct s as [m w].
  cbn [st_pm st_os] in *.
  unfold callprint. cbn [truthy]. unfold bind at 1.
  unfold _report_command at 1. unfold bind at 1. cbn [get_pm].
  unfold open_a at 1, sys at 1. cbn [st_os st_pm].
  rewrite Hsplit. unfold bind at 1. cbn [mod_pm st_pm st_os].
  unfold resolved_shell in Hshell. rewrite Hshell.
  unfold bind at 1. cbn [ret]. unfold bind at 1.
  unfold try_except at 1. unfold bind at 1. unfold popen at 1, sys at 1.
  cbn [st_os st_pm w_spawn log_ev set_fs tick].
  rewrite Hspawn. cbn [ret].
  match goal with
  | |- context [{| st_pm := _; st_os := ?w0 |}] => generalize w0; intros w1
  end.
  unfold bind at 1. unfold time_time at 1. cbn [st_os st_pm].
  unfold bind at 1. cbn [mod_pm st_pm st_os].
  unfold bind at 1. cbn [get_pm st_pm pm_wait set_procs set_proc_name pm_procs].
  rewrite Hwait, Hprocs. cbn [negb procs_set].
  unfold bind at 1.
  match goal with
  | |- context [poll_loop ?k true ?pid ?ct ?lm ?st {| st_pm := ?m0; st_os := ?w0 |}] =>
      destruct (poll_loop_shell k pid ct lm st m0 w0) as [w2 E]; rewrite E; clear E
  end.
  unfold bind at 1. cbn [mod_pm st_pm st_os].
  unfold bind at 1. cbn [get_pm st_pm pm_procs set_peak_memory set_procs procs_get].
  rewrite Z.eqb_refl.
  unfold bind at 1. unfold time_time at 1. cbn [st_os st_pm].
  unfold bind at 1. unfold _report_profile at 1. unfold bind at 1. cbn [get_pm].
  unfold open_a at 1, sys at 1. cbn [st_os st_pm].
  unfold bind at 1. cbn [mod_pm st_pm st_os pm_procs set_peak_memory set_procs procs_del].
  rewrite Z.eqb_refl.
  match goal with
  | |- context [{| st_pm := ?m1; st_os := ?w0 |}] =>
      generalize w0; intros w3;
      assert (Hm0 : pm_procs m1 = [] ∧ pm_status m1 = pm_status m ∧
                    pm_locks m1 = pm_locks m ∧ failed m1 = false)
        by (repeat split; try reflexivity; exact Hfailed);
      revert Hm0; generalize m1
  end.
  intros m0 (P0 & S0 & L0 & F0).
  destruct (c_returncode c =? 0)%Z; cbn [negb orb].
  - unfold bind. cbn [ret]. eexists. split; [reflexivity|].
    cbn [st_pm]. auto.
  - destruct nofail.
    + unfold _triage_error. cbn [negb]. unfold bind. cbn [get_pm st_pm].
      rewrite F0. cbn [ret]. eexists. split; [reflexivity|]. cbn [st_pm]. auto.
    + unfold _triage_error. cbn [negb].
      destruct (fail_pipeline_outcome nonzero false
                  {| st_pm := m0; st_os := w3 |} {| st_pm := m0; st_os := w3 |})
        as (s' & evs & E & _ & Pr & _ & [L _] & _ & _ & _ & _ & St & _).
      * apply terminate_nothing. exact P0.
      * discriminate.
      * exists s'. rewrite (bind_Raise _ _ _ _ _ E).
        split; [reflexivity|]. split; [exact St|]. split; [exact Pr|].
        rewrite L. exact L0.
Qed.

End Supervisor.

Lemma extends_refl p w : extends p [] w w.
Proof. repeat split. symmetry. apply app_nil_r. Qed.

Lemma extends_trans p e1 e2 w w1 w2 :
  extends p e1 w w1 → extends p e2 w1 w2 → extends p (e1 ++ e2) w w2.
Proof.
  intros (A1 & B1 & C1 & D1 & E1) (A2 & B2 & C2 & D2 & E2).
  repeat split; try congruence. rewrite E2, E1. symmetry. apply app_assoc.
Qed.

Lemma extends_tick p w : env_keeps w [p] → extends p [] w (tick w).
Proof.
  intros Hk. repeat split.
  - apply (lookup_tick w [p] p Hk). apply list_elem_of_here.
  - symmetry. apply app_nil_r.
Qed.

Lemma extends_log p ev w : extends p [ev] w (log_ev ev w).
Proof. repeat split. Qed.

Lemma extends_keeps p evs w w' ps : extends p evs w w' → env_keeps w ps → env_keeps w' ps.
Proof. intros (A & _) Hk n fs q Hq. rewrite A. apply Hk, Hq. Qed.

Lemma extends_spawn p evs w w' a r :
  extends p evs w w' → (∀ n, w_spawn w n a = r) → ∀ n, w_spawn w' n a = r.
Proof. intros (_ & _ & C & _) H n. rewrite C. apply H. Qed.

(** A system call that leaves [p] alone and logs [evs]. *)
Lemma sys_extends {A} p evs (f : World → Res A * World) m w :
  env_keeps w [p] →
  extends p evs (tick w) (snd (f (tick w))) →
  ∃ w', sys f {| st_pm := m; st_os := w |} = (fst (f (tick w)), {| st_pm := m; st_os := w' |})
        ∧ extends p evs w w'.
Proof.
  intros Hk He. unfold sys. cbn [st_os st_pm].
  destruct (f (tick w)) as [r w'] eqn:E. cbn [fst snd] in *.
  exists w'. split; [reflexivity|].
  change evs with ([] ++ evs)%list. eapply extends_trans; [apply extends_tick, Hk | exact He].
Qed.

Lemma open_a_extends p q text m w :
  q ≠ p → env_keeps w [p] →
  ∃ w', open_a q text {| st_pm := m; st_os := w |} = (Ret tt, {| st_pm := m; st_os := w' |})
        ∧ extends p [EvAppend q text] w w'.
Proof.
  intros Hq Hk. unfold open_a.
  match goal with |- context [sys ?f] => destruct (sys_extends p [EvAppend q text] f m w Hk) as [w' [E Ex]] end.
  - repeat split. cbn. apply lookup_insert_ne. exact Hq.
  - exists w'. split; [exact E | exact Ex].
Qed.



Section Execution.

Context {X : Externals}.


Lemma popen_extends p a c m w :
  env_keeps w [p] →
  (∀ n, w_spawn w n a = Spawned c) →
  ∃ w', popen a {| st_pm := m; st_os := w |} = (Ret c, {| st_pm := m; st_os := w' |})
        ∧ extends p [EvPopen a] w w'.
Proof.
  intros Hk Hs. unfold popen.
  match goal with
  | |- context [sys ?f] => destruct (sys_extends p [EvPopen a] f m w Hk) as [w' [E Ex]]
  end.
  - cbn [tick w_spawn w_clock]. rewrite Hs. repeat split.
  - exists w'. split; [|exact Ex]. rewrite E. cbn [tick w_spawn w_clock]. rewrite Hs.
    reflexivity.
Qed.


Lemma ticks_deny k w : w_deny (ticks k w) = w_deny w.
Proof. induction k as [|k IH]; [reflexivity|]. rewrite ticks_S. exact IH. Qed.

Lemma extends_ticks p k w : env_keeps w [p] → extends p [] w (ticks k w).
Proof.
  intros Hk. repeat split.
  - apply ticks_env.
  - apply ticks_deny.
  - apply ticks_spawn.
  - apply (lookup_ticks k w [p] p Hk). apply list_elem_of_here.
  - rewrite ticks_trace. symmetry. apply app_nil_r.
Qed.

Lemma call_follow_extends p follow m w :
  env_keeps w [p] →
  ∃ w', call_follow follow {| st_pm := m; st_os := w |} =
          (Ret tt, {| st_pm := m; st_os := w' |})
        ∧ extends p (follow_events follow) w w'.
Proof.
  intros Hk. destruct follow as [| |f]; cbn [call_follow follow_events].
  - exists w. split; [reflexivity | apply extends_refl].
  - exists w. split; [reflexivity | apply extends_refl].
  - unfold call_user.
    match goal with
    | |- context [sys ?g] => destruct (sys_extends p [EvFollow f] g m w Hk) as [w' [E Ex]]
    end.
    + repeat split.
    + exists w'. split; [exact E | exact Ex].
Qed.

(** The tests block when neither the target nor the lock file is there. *)
Lemma run_tests_fresh fuel a t lock_file recover_file recover_mode m w :
  env_keeps w [t; lock_file] →
  path_exists (w_fs w) t = false →
  is_file (w_fs w) lock_file = false →
  run_tests fuel a (Some t) lock_file recover_file recover_mode
    {| st_pm := m; st_os := w |} =
  (Ret (TestsProceed recover_mode), {| st_pm := m; st_os := ticks 2 w |}).
Proof.
  intros Hk Ht Hl. unfold run_tests.
  unfold bind at 1. unfold bind at 1. rewrite os_path_exists_eq.
  change (tick w) with (ticks 1 w).
  rewrite (path_exists_ticks 1 w _ t Hk) by (left). rewrite Ht.
  cbn [ret]. unfold bind at 1. rewrite os_path_isfile_eq. rewrite <- ticks_S.
  rewrite (is_file_ticks 2 w _ lock_file Hk) by (right; left). rewrite Hl.
  reflexivity.
Qed.


(** [run] up to the creation of the lock file, when neither the target
    nor a lock is there. *)
Lemma run_fresh_lock fuel a m w t :
  target_path (a_target a) = Some t →
  pm_overwrite_locks m = false →
  env_keeps w (t :: run_lock_file m a t :: checkpoint_paths m a) →
  path_exists (w_fs w) t = false →
  w_fs w !! run_lock_file m a t = None →
  w_deny w (run_lock_file m a t) = None →
  (pm_overwrite_checkpoints m || a_overwrite_checkpoint a = true ∨
   ∀ p, p ∈ checkpoint_paths m a → is_file (w_fs w) p = false) →
  ∃ w1,
    run fuel a {| st_pm := m; st_os := w |} =
      run_execute a (Some t) (run_lock_file m a t) 0%Z 0%Q
        {| st_pm := set_locks (pm_locks m ++ [run_lock_file m a t]) m; st_os := w1 |} ∧
    w_env w1 = w_env w ∧ w_spawn w1 = w_spawn w ∧
    w_fs w1 !! run_lock_file m a t = Some (File EmptyString) ∧
    w_trace w1 = (w_trace w ++ [EvCreateExcl (run_lock_file m a t)])%list.
Proof.
  intros Ht Hover Hk He Hl Hd Hc.
  set (lock := run_lock_file m a t) in *.
  assert (Hkl : env_keeps w [lock]).
  { eapply env_keeps_incl; [exact Hk|].
    apply list_subseteq_cons, list_subseteq_skip, list_subseteq_nil. }
  unfold run.
  assert (Hpre : ∀ s, match a_target a, a_lock_name a with
                      | TargetNone, None =>
                          fail_pipeline
                            (PyException "You must provide either a target or a lock_name.") false
                      | _, _ => ret tt
                      end s = (Ret tt, s)).
  { intros s. destruct (a_target a); [discriminate Ht| |]; destruct (a_lock_name a); reflexivity. }
  rewrite (bind_Ret _ _ _ _ _ (Hpre _)).
  unfold bind at 1. cbn [get_pm st_pm].
  destruct (check_loop_pass (pm_overwrite_checkpoints m || a_overwrite_checkpoint a)
              (check_names a) m w) as [k Hck].
  { eapply env_keeps_incl; [exact Hk|]. do 2 apply list_subseteq_cons. reflexivity. }
  { exact Hc. }
  rewrite (bind_Ret _ _ _ _ _ Hck).
  rewrite (bind_Ret _ _ _ _ _ (first_target_eq _ _ _ Ht)).
  rewrite (bind_Ret _ _ _ _ _ (default_lock_name_eq _ _ _ _)).
  rewrite run_loop_eq.
  change (_make_lock_path m
            (default (make_lock_name t (pm_outfolder m)) (truthy (a_lock_name a))))
    with lock.
  (* the tests *)
  assert (Ets : run_tests fuel a (Some t) lock (_recoverfile_from_lockfile m lock) false
                  {| st_pm := m; st_os := ticks k w |} =
                (Ret (TestsProceed false), {| st_pm := m; st_os := ticks 2 (ticks k w) |})).
  { apply run_tests_fresh.
    - apply env_keeps_ticks. eapply env_keeps_incl; [exact Hk|].
      apply list_subseteq_skip, list_subseteq_skip, list_subseteq_nil.
    - rewrite (path_exists_ticks k w _ t Hk) by left. exact He.
    - unfold is_file. rewrite (lookup_ticks k w _ lock Hk) by (right; left).
      rewrite Hl. reflexivity. }
  rewrite (bind_Ret _ _ _ _ _ Ets).
  assert (X0 : extends lock [] w (tick (ticks 2 (ticks k w)))).
  { change (tick (ticks 2 (ticks k w))) with (ticks 3 (ticks k w)).
    change (@nil Ev) with (@nil Ev ++ [])%list.
    eapply extends_trans; [apply extends_ticks, Hkl|].
    apply extends_ticks, env_keeps_ticks, Hkl. }
  (* the lock *)
  set (m1 := set_locks (pm_locks m ++ [lock]) m).
  set (w1 := log_ev (EvCreateExcl lock)
               (set_fs (<[lock := File EmptyString]> (w_fs (tick (ticks 2 (ticks k w)))))
                  (tick (ticks 2 (ticks k w))))).
  assert (Eacq : run_acquire lock false {| st_pm := m; st_os := ticks 2 (ticks k w) |} =
                 (Ret false, {| st_pm := m1; st_os := w1 |})).
  { unfold run_acquire, locks_append. unfold bind at 1. cbn [mod_pm st_pm st_os].
    unfold bind at 1. cbn [get_pm st_pm pm_overwrite_locks set_locks].
    rewrite Hover. cbn [orb].
    unfold create_or_continue, try_except, bind, _create_file_racefree, os_open_excl, sys.
    cbn [st_os st_pm].
    destruct X0 as (_ & B & _ & D & _). rewrite D, Hl, B, Hd. reflexivity. }
  rewrite (bind_Ret _ _ _ _ _ Eacq).
  exists w1. split; [reflexivity|].
  destruct X0 as (A & _ & C & _ & T). unfold w1. rewrite app_nil_r in T.
  split; [exact A|]. split; [exact C|]. split; [apply lookup_insert_eq|].
  change (w_trace (tick (ticks 2 (ticks k w))) ++ [EvCreateExcl lock] =
          w_trace w ++ [EvCreateExcl lock])%list.
  rewrite T. reflexivity.
Qed.





Lemma procs_get_set pid info d : procs_get pid (procs_set pid info d) = Some info.
Proof.
  induction d as [|[k v] d IH]; cbn [procs_set procs_get].
  - rewrite Z.eqb_refl. reflexivity.
  - destruct (k =? pid)%Z eqn:E; cbn [procs_get]; rewrite E; [reflexivity | exact IH].
Qed.

(** X14.  [run] of a manager made with [wait=False]: [callprint] returns as soon
    as the child has started, so that [run] returns 0 whatever the child
    will do, and removes the lock file while the child runs: the child is
    still in [procs], nothing was slept and no profile row was written. *)
Theorem run_without_wait_releases_lock_at_once fuel a m w t cmd proc_name rest c :
  target_path (a_target a) = Some t →
  a_cmd a = CmdStr cmd → a_container a = None → a_clean a = false →
  Py.split cmd = proc_name :: rest →
  resolved_shell (a_shell a) cmd = true →
  (∀ n, w_spawn w n (ShellCmd cmd) = Spawned c) →
  pm_wait m = false → pm_overwrite_locks m = false →
  pm_locks m = [] →
  pipeline_commands_file m ≠ run_lock_file m a t →
  env_keeps w (t :: run_lock_file m a t :: checkpoint_paths m a) →
  path_exists (w_fs w) t = false →
  w_fs w !! run_lock_file m a t = None →
  w_deny w (run_lock_file m a t) = None →
  (pm_overwrite_checkpoints m || a_overwrite_checkpoint a = true ∨
   ∀ p, p ∈ checkpoint_paths m a → is_file (w_fs w) p = false) →
  ∃ m' w' info,
    run fuel a {| st_pm := m; st_os := w |} = (Ret 0%Z, {| st_pm := m'; st_os := w' |}) ∧
    pm_locks m' = [] ∧ pm_status m' = pm_status m ∧
    procs_get (c_pid c) (pm_procs m') = Some info ∧ pi_p info = c ∧
    w_fs w' !! run_lock_file m a t = None ∧
    w_trace w' =
      (w_trace w ++
       [EvCreateExcl (run_lock_file m a t);
        EvAppend (pipeline_commands_file m) (cmd +:+ NL +:+ NL);
        EvPopen (ShellCmd cmd)] ++
       follow_events (a_follow a) ++ [EvRemove (run_lock_file m a t)])%list.
Proof.
  intros Ht Hcmd Hcont Hclean Hsplit Hshell Hspawn Hwait Hover Hlocks Hcf Hk He Hl Hd Hc.
  destruct (run_fresh_lock fuel a m w t Ht Hover Hk He Hl Hd Hc)
    as (w1 & Erun & A1 & C1 & D1 & T1).
  rewrite Erun. set (lock := run_lock_file m a t) in *.
  assert (Hk1 : env_keeps w1 [lock]).
  { intros n fs q Hq. rewrite A1. apply Hk. right.
    apply elem_of_cons in Hq as [-> | Hq]; [left | inversion Hq]. }
  set (m1 := set_locks (pm_locks m ++ [lock]) m).
  (* the command *)
  unfold run_execute. rewrite Hcmd, Hcont.
  unfold callprint. cbn [truthy].
  unfold _report_command at 1.
  unfold bind at 1. unfold bind at 1. unfold bind at 1. cbn [get_pm st_pm].
  destruct (open_a_extends lock (pipeline_commands_file m1) (cmd +:+ NL +:+ NL) m1 w1 Hcf Hk1)
    as [w2 [E2 X2]].
  rewrite E2. rewrite Hsplit. unfold bind at 1. cbn [mod_pm st_pm st_os].
  unfold resolved_shell in Hshell. rewrite Hshell.
  unfold bind at 1. cbn [ret]. unfold bind at 1.
  unfold try_except at 1. unfold bind at 1.
  destruct (popen_extends lock (ShellCmd cmd) c (set_proc_name proc_name m1) w2)
    as [w3 [E3 X3]].
  { exact (extends_keeps _ _ _ _ _ X2 Hk1). }
  { apply (extends_spawn _ _ _ _ _ _ X2). intros n. rewrite C1. apply Hspawn. }
  rewrite E3. cbn [ret].
  pose proof (extends_trans _ _ _ _ _ _ X2 X3) as X23.
  unfold bind at 1. unfold time_time at 1. cbn [st_os st_pm].
  unfold bind at 1. cbn [mod_pm st_pm st_os].
  unfold bind at 1. cbn [get_pm st_pm pm_wait set_procs set_proc_name set_locks].
  unfold m1 at 1. cbn [pm_wait set_locks]. rewrite Hwait. cbn [negb ret].
  rewrite Hclean. unfold bind at 1. cbn [ret].
  match goal with
  | |- context [{| st_pm := ?m2; st_os := w3 |}] =>
      destruct (call_follow_extends lock (a_follow a) m2 w3 (extends_keeps _ _ _ _ _ X23 Hk1))
        as [w4 [E4 X4]]
  end.
  rewrite (bind_Ret _ _ _ _ _ E4).
  pose proof (extends_trans _ _ _ _ _ _ X23 X4) as X234.
  assert (X5 : extends lock [] w4 (tick w4)).
  { apply extends_tick. exact (extends_keeps _ _ _ _ _ X234 Hk1). }
  pose proof (extends_trans _ _ _ _ _ _ X234 X5) as (_ & _  & _ & D5 & T5).
  unfold bind at 1. unfold os_remove at 1, sys at 1. cbn [st_os st_pm].
  rewrite D5, D1.
  unfold locks_remove. unfold bind at 1. unfold bind at 1. cbn [get_pm st_pm].
  cbn [pm_locks set_procs set_proc_name]. unfold m1 at 1. cbn [pm_locks set_locks].
  rewrite Hlocks. cbn [app]. rewrite list_remove_head. cbn [mod_pm st_pm st_os ret].
  eexists _, _, _. split; [reflexivity|].
  split; [reflexivity|]. split; [reflexivity|].
  split; [cbn [pm_procs set_locks set_procs]; apply procs_get_set|].
  split; [reflexivity|]. split; [apply lookup_delete_eq|].
  cbn [w_trace log_ev set_fs]. rewrite T5, T1. rewrite <- !app_assoc. reflexivity.
Qed.

End Execution.

Lemma callprint_shell_outcome_witness :
  ∃ s', callprint "false > log.txt" ShellGuess false None None failing_child_state =
          (Raise nonzero, s') ∧
        pm_status (st_pm s') = Failed ∧
        pm_procs (st_pm s') = [] ∧
        pm_locks (st_pm s') = [].
Proof.
  apply (callprint_shell_outcome "false > log.txt" ShellGuess false None "false"
           [">"; "log.txt"] {| c_pid := 10; c_polls := 2; c_returncode := 3 |}
           failing_child_state); try reflexivity.
Defined.



(** * Statistics *)

Example str_split_on_examples :
  Str.split_on "009" ("a" +:+ TAB +:+ TAB +:+ "b c" +:+ NL) = ["a"; EmptyString; "b c" +:+ NL] ∧
  Str.split_on "009" EmptyString = [EmptyString] ∧
  Str.strip ("  12 reads " +:+ NL) = "12 reads" ∧
  Str.rstrip ("pipe" +:+ NL) = "pipe" ∧
  Str.lines ("a" +:+ NL +:+ NL +:+ "b") = ["a" +:+ NL; NL; "b"].
Proof. repeat split; reflexivity. Qed.

Lemma list_remove_last x l :
  Py.list_in x l = false → Py.list_remove x (l ++ [x]) = Some l.
Proof.
  induction l as [|y l IH]; cbn [Py.list_remove Py.list_in existsb app].
  - intros _. rewrite String.eqb_refl. reflexivity.
  - intros H. apply orb_false_iff in H as [H1 H2]. rewrite H1.
    unfold Py.list_in in IH. rewrite (IH H2). reflexivity.
Qed.

Lemma dict_get_set key value d : dict_get key (dict_set key value d) = Some value.
Proof.
  induction d as [|[k v] d IH]; cbn [dict_set dict_get].
  - rewrite String.eqb_refl. reflexivity.
  - destruct (String.eqb k key) eqn:E; cbn [dict_get]; rewrite E; [reflexivity | exact IH].
Qed.

Lemma os_open_excl_eq p m w :
  w_fs (tick w) !! p = None → w_deny w p = None →
  os_open_excl p {| st_pm := m; st_os := w |} =
  (Ret tt, {| st_pm := m;
              st_os := log_ev (EvCreateExcl p)
                         (set_fs (<[p := File EmptyString]> (w_fs (tick w))) (tick w)) |}).
Proof.
  intros Hf Hd. unfold os_open_excl, sys. cbn [st_os st_pm]. rewrite Hf.
  change (w_deny (tick w)) with (w_deny w). rewrite Hd. reflexivity.
Qed.

Lemma open_a_eq p text m w :
  open_a p text {| st_pm := m; st_os := w |} =
  (Ret tt, {| st_pm := m;
              st_os := log_ev (EvAppend p text)
                         (set_fs (<[p := File (match w_fs (tick w) !! p with
                                               | Some (File c) => c
                                               | _ => EmptyString
                                               end +:+ text)]> (w_fs (tick w))) (tick w)) |}).
Proof. reflexivity. Qed.

Lemma os_remove_eq p c m w :
  w_fs (tick w) !! p = Some (File c) →
  os_remove p {| st_pm := m; st_os := w |} =
  (Ret tt, {| st_pm := m;
              st_os := log_ev (EvRemove p) (set_fs (delete p (w_fs (tick w))) (tick w)) |}).
Proof. intros Hf. unfold os_remove, sys. cbn [st_os st_pm]. rewrite Hf. reflexivity. Qed.

Lemma split_on_nonempty sep s : Str.split_on sep s ≠ [].
Proof.
  destruct s as [|c t]; cbn [Str.split_on]; [discriminate|].
  destruct (Ascii.eqb c sep); [discriminate|].
  destruct (Str.split_on sep t); discriminate.
Qed.

Lemma split_on_free s : Str.free_of is_tab s = true → Str.split_on "009" s = [s].
Proof.
  induction s as [|c t IH]; [reflexivity|]. cbn [Str.free_of Str.split_on].
  intros H. apply andb_true_iff in H as [H1 H2]. unfold is_tab in H1.
  apply negb_true_iff in H1. rewrite H1, (IH H2). reflexivity.
Qed.

Lemma split_on_app a b :
  Str.free_of is_tab a = true →
  Str.split_on "009" (a +:+ TAB +:+ b) = a :: Str.split_on "009" b.
Proof.
  induction a as [|c t IH]; [reflexivity|]. cbn [Str.free_of].
  intros H. apply andb_true_iff in H as [H1 H2]. unfold is_tab in H1.
  apply negb_true_iff in H1.
  change (String c t +:+ TAB +:+ b) with (String c (t +:+ TAB +:+ b)).
  cbn [Str.split_on]. rewrite H1, (IH H2). reflexivity.
Qed.

Lemma rstrip_app_nl a : Str.rstrip (a +:+ NL) = Str.rstrip a.
Proof.
  induction a as [|c t IH]; [reflexivity|].
  change (String c t +:+ NL) with (String c (t +:+ NL)).
  cbn [Str.rstrip]. rewrite IH. reflexivity.
Qed.

Lemma lines_single body :
  Str.free_of is_nl body = true → Str.lines (body +:+ NL) = [body +:+ NL].
Proof.
  induction body as [|c t IH]; [reflexivity|]. cbn [Str.free_of].
  intros H. apply andb_true_iff in H as [H1 H2]. unfold is_nl in H1.
  apply negb_true_iff in H1.
  change (String c t +:+ NL) with (String c (t +:+ NL)).
  cbn [Str.lines]. rewrite H1, (IH H2). reflexivity.
Qed.

Lemma lines_app_nl c1 s :
  Str.lines ((c1 +:+ NL) +:+ s) = (Str.lines (c1 +:+ NL) ++ Str.lines s)%list.
Proof.
  induction c1 as [|c t IH]; [reflexivity|].
  change ((String c t +:+ NL) +:+ s) with (String c ((t +:+ NL) +:+ s)).
  change (String c t +:+ NL) with (String c (t +:+ NL)).
  cbn [Str.lines]. rewrite IH.
  destruct (Ascii.eqb c "010"); [reflexivity|].
  destruct (Str.lines (t +:+ NL)) as [|h r] eqn:E; [|reflexivity].
  exfalso. clear -E. destruct t as [|d t]; cbn [Str.lines] in E.
  - discriminate E.
  - change (String d t +:+ NL) with (String d (t +:+ NL)) in E. cbn [Str.lines] in E.
    destruct (Ascii.eqb d "010"); [discriminate E|].
    destruct (Str.lines (t +:+ NL)); discriminate E.
Qed.

(** The rows of the stats file, once a row has bound the variables of the
    loop: the loop goes through them, whatever they are. *)
Lemma refresh_lines_bound l b m w :
  b ≠ None →
  ∃ m' b', b' ≠ None ∧ pm_name m' = pm_name m ∧
    ∀ l2, refresh_lines (l ++ l2) b {| st_pm := m; st_os := w |} =
          refresh_lines l2 b' {| st_pm := m'; st_os := w |}.
Proof.
  revert b m. induction l as [|line rest IH]; intros b m Hb.
  - exists m, b. split; [exact Hb|]. split; reflexivity.
  - set (b1 := match Str.split_on "009" line with
               | [key; value; annotation] => Some (key, value, annotation)
               | _ => b
               end).
    assert (Hb1 : b1 ≠ None).
    { unfold b1. destruct (Str.split_on "009" line) as [|x1 [|x2 [|x3 [|x4 l4]]]];
        try exact Hb; discriminate. }
    destruct b1 as [[[key value] annotation]|] eqn:Eb1; [|contradiction Hb1; reflexivity].
    destruct (String.eqb (Str.rstrip annotation) (pm_name m)
              || String.eqb (Str.rstrip annotation) "shared") eqn:Et.
    + destruct (IH (Some (key, value, annotation))
                  (set_stats_dict (dict_set key (Str.strip value) (pm_stats_dict m)) m))
        as (m' & b' & Hb' & Hn & Hl); [discriminate|].
      exists m', b'. split; [exact Hb'|]. split; [exact Hn|].
      intros l2. rewrite <- Hl. cbn [app refresh_lines]. fold b1. rewrite Eb1.
      unfold bind at 1. cbn [get_pm st_pm]. rewrite Et. reflexivity.
    + destruct (IH (Some (key, value, annotation)) m)
        as (m' & b' & Hb' & Hn & Hl); [discriminate|].
      exists m', b'. split; [exact Hb'|]. split; [exact Hn|].
      intros l2. rewrite <- Hl. cbn [app refresh_lines]. fold b1. rewrite Eb1.
      unfold bind at 1. cbn [get_pm st_pm]. rewrite Et. reflexivity.
Qed.

Lemma free_of_app f a b :
  Str.free_of f (a +:+ b) = Str.free_of f a && Str.free_of f b.
Proof.
  induction a as [|c t IH]; [reflexivity|].
  change (String c t +:+ b) with (String c (t +:+ b)). cbn [Str.free_of].
  rewrite IH. apply andb_assoc.
Qed.

Lemma plain_tab s : plain s = true → Str.free_of is_tab s = true.
Proof.
  unfold plain. induction s as [|c t IH]; [reflexivity|]. cbn [Str.free_of].
  intros H. apply andb_true_iff in H as [H1 H2]. rewrite (IH H2).
  destruct (is_tab c); [discriminate H1 | reflexivity].
Qed.

Lemma plain_nl s : plain s = true → Str.free_of is_nl s = true.
Proof.
  unfold plain. induction s as [|c t IH]; [reflexivity|]. cbn [Str.free_of].
  intros H. apply andb_true_iff in H as [H1 H2]. rewrite (IH H2).
  destruct (is_nl c); [|reflexivity]. rewrite orb_true_r in H1. discriminate H1.
Qed.

Lemma stats_row_columns key value annotation :
  plain key = true → plain value = true → plain annotation = true →
  Str.split_on "009" (stats_row key value annotation) = [key; value; annotation +:+ NL] ∧
  Str.lines (stats_row key value annotation) = [stats_row key value annotation].
Proof.
  intros Hk Hv Ha. split.
  - unfold stats_row. rewrite !string_app_assoc.
    rewrite (split_on_app key) by (apply plain_tab, Hk).
    rewrite (split_on_app value) by (apply plain_tab, Hv).
    rewrite split_on_free; [reflexivity|].
    rewrite free_of_app, (plain_tab _ Ha). reflexivity.
  - unfold stats_row. apply lines_single.
    rewrite !free_of_app, (plain_nl _ Hk), (plain_nl _ Hv), (plain_nl _ Ha). reflexivity.
Qed.

(** The last row of the stats file, when it is a row of the pipeline. *)
Lemma refresh_last_row key value annotation b m w :
  plain key = true → plain value = true → plain annotation = true →
  Str.rstrip annotation = annotation →
  (annotation = pm_name m ∨ annotation = "shared") →
  refresh_lines [stats_row key value annotation] b {| st_pm := m; st_os := w |} =
  (Ret tt, {| st_pm := set_stats_dict (dict_set key (Str.strip value) (pm_stats_dict m)) m;
              st_os := w |}).
Proof.
  intros Hk Hv Ha Hr Hn. cbn [refresh_lines].
  destruct (stats_row_columns key value annotation Hk Hv Ha) as [-> _].
  unfold bind at 1. cbn [get_pm st_pm]. rewrite rstrip_app_nl, Hr.
  assert (Ht : String.eqb annotation (pm_name m) || String.eqb annotation "shared" = true).
  { destruct Hn as [-> | ->]; [rewrite String.eqb_refl; reflexivity|].
    rewrite String.eqb_refl. apply orb_true_r. }
  rewrite Ht. reflexivity.
Qed.

Section Statistics.

Context {X : Externals}.

(** A write under the lock of the file, when the lock is free. *)
Lemma safe_write_free fuel file lock_file message m w :
  file ≠ lock_file →
  env_keeps w [lock_file; file] →
  w_fs w !! lock_file = None →
  w_deny w lock_file = None →
  Py.list_in lock_file (pm_locks m) = false →
  ∃ m' w',
    safe_write_loop fuel file lock_file message {| st_pm := m; st_os := w |} =
      (Ret tt, {| st_pm := m'; st_os := w' |}) ∧
    but_locks m' = but_locks m ∧ pm_locks m' = pm_locks m ∧
    w_env w' = w_env w ∧
    w_fs w' !! lock_file = None ∧
    w_fs w' !! file =
      Some (File (match w_fs w !! file with Some (File c) => c | _ => EmptyString end
                  +:+ message +:+ NL)) ∧
    w_trace w' =
      (w_trace w ++ [EvCreateExcl lock_file; EvAppend file (message +:+ NL);
                     EvRemove lock_file])%list.
Proof.
  intros Hne Hk Hl Hd Hin.
  assert (L : ∀ j, w_fs (ticks j w) !! lock_file = None).
  { intros j. rewrite (lookup_ticks j w _ lock_file Hk) by left. exact Hl. }
  assert (D : ∀ j, w_deny (ticks j w) lock_file = None).
  { intros j. rewrite ticks_deny. exact Hd. }
  assert (Hsw : ∀ fuel0,
    safe_write_loop fuel0 file lock_file message =
    (locked <- os_path_isfile lock_file ;;
     if locked : bool then
       match fuel0 with
       | O => out_of_fuel
       | S fuel1 =>
           _wait_for_lock fuel1 lock_file ;;
           safe_write_loop fuel1 file lock_file message
       end
     else
       again <- create_or_continue (locks_append lock_file ;; _create_file_racefree lock_file) ;;
       if again : bool then
         match fuel0 with
         | O => out_of_fuel
         | S fuel1 => safe_write_loop fuel1 file lock_file message
         end
       else
         open_a file (message +:+ NL) ;;
         os_remove lock_file ;;
         locks_remove lock_file)) by (intros []; reflexivity).
  rewrite Hsw. unfold bind at 1. rewrite os_path_isfile_eq.
  change (tick w) with (ticks 1 w). unfold is_file. rewrite L.
  unfold bind at 1.
  unfold create_or_continue, try_except, locks_append, _create_file_racefree.
  unfold bind at 1. unfold bind at 1. cbn [mod_pm st_pm st_os].
  rewrite os_open_excl_eq by (first [apply (L 2%nat) | apply D]).
  change (tick (ticks 1 w)) with (ticks 2 w). cbn [ret].
  set (m1 := set_locks (pm_locks m ++ [lock_file]) m).
  set (w3 := log_ev (EvCreateExcl lock_file)
               (set_fs (<[lock_file := File EmptyString]> (w_fs (ticks 2 w))) (ticks 2 w))).
  assert (K3 : env_keeps w3 [lock_file; file]) by exact (env_keeps_ticks 2 w _ Hk).
  assert (F3l : w_fs w3 !! lock_file = Some (File EmptyString)) by apply lookup_insert_eq.
  assert (F3f : w_fs w3 !! file = w_fs w !! file).
  { unfold w3. cbn [w_fs log_ev set_fs]. rewrite lookup_insert_ne by congruence.
    apply (lookup_ticks 2 w _ file Hk). right; left. }
  rewrite (bind_Ret _ _ _ _ _ (open_a_eq _ _ _ _)).
  rewrite (lookup_tick w3 _ file K3) by (right; left). rewrite F3f.
  set (old := match w_fs w !! file with Some (File c) => c | _ => EmptyString end).
  set (w5 := log_ev (EvAppend file (message +:+ NL))
               (set_fs (<[file := File (old +:+ message +:+ NL)]> (w_fs (tick w3))) (tick w3))).
  assert (K5 : env_keeps w5 [lock_file; file]) by exact K3.
  assert (F5l : w_fs w5 !! lock_file = Some (File EmptyString)).
  { unfold w5. cbn [w_fs log_ev set_fs]. rewrite lookup_insert_ne by exact Hne.
    rewrite (lookup_tick w3 _ lock_file K3) by left. exact F3l. }
  assert (F5f : w_fs w5 !! file = Some (File (old +:+ message +:+ NL)))
    by apply lookup_insert_eq.
  rewrite (bind_Ret _ _ _ _ _ (os_remove_eq lock_file EmptyString _ _
                                 (eq_trans (lookup_tick w5 _ lock_file K5
                                              (list_elem_of_here _ _)) F5l))).
  unfold locks_remove. unfold bind at 1. cbn [get_pm st_pm].
  unfold m1 at 1. cbn [pm_locks set_locks]. rewrite (list_remove_last _ _ Hin).
  cbn [mod_pm st_pm st_os].
  eexists _, _. split; [reflexivity|].
  split; [reflexivity|]. split; [reflexivity|]. split; [reflexivity|].
  cbn [st_os st_pm w_fs w_trace log_ev set_fs].
  split; [apply lookup_delete_eq|]. split.
  - rewrite lookup_delete_ne by congruence.
    rewrite (lookup_tick w5 _ file K5) by (right; left). exact F5f.
  - change (w_trace (tick w5)) with (w_trace w3 ++ [EvAppend file (message +:+ NL)])%list.
    change (w_trace w3) with (w_trace (ticks 2 w) ++ [EvCreateExcl lock_file])%list.
    rewrite ticks_trace, <- !app_assoc. reflexivity.
Qed.

(** X15.  [report_result] when the lock of the stats file is free: it takes the
    lock, appends its row to the stats file and releases the lock; [locks]
    is afterwards what it was, and [get_stat] of the key then answers from
    memory with the value reported.  The value is taken as [strip] leaves
    it; the other processes leave the stats file and its lock alone. *)
Theorem report_result_writes_under_lock fuel key value annotation m w :
  Str.strip value = value →
  pipeline_stats_file m ≠ stats_lock m →
  env_keeps w [stats_lock m; pipeline_stats_file m] →
  w_fs w !! stats_lock m = None →
  w_deny w (stats_lock m) = None →
  Py.list_in (stats_lock m) (pm_locks m) = false →
  ∃ m' w',
    (report_result fuel key value annotation ;; get_stat key) {| st_pm := m; st_os := w |} =
      (Ret (Some value), {| st_pm := m'; st_os := w' |}) ∧
    pm_locks m' = pm_locks m ∧
    w_fs w' !! stats_lock m = None ∧
    w_fs w' !! pipeline_stats_file m =
      Some (File (match w_fs w !! pipeline_stats_file m with
                  | Some (File c) => c
                  | _ => EmptyString
                  end +:+ stats_row key value (default (pm_name m) (truthy annotation)))) ∧
    w_trace w' =
      (w_trace w ++
       [EvCreateExcl (stats_lock m);
        EvAppend (pipeline_stats_file m)
          (stats_row key value (default (pm_name m) (truthy annotation)));
        EvRemove (stats_lock m)])%list.
Proof.
  intros _ Hne Hk Hl Hd Hin.
  unfold report_result. unfold bind at 1. unfold bind at 1. cbn [get_pm st_pm].
  unfold bind at 1. cbn [mod_pm st_pm st_os].
  unfold _safe_write_to_file. unfold bind at 1. cbn [get_pm st_pm].
  destruct (safe_write_free fuel (pipeline_stats_file m) (stats_lock m)
              (key +:+ TAB +:+ value +:+ TAB +:+ default (pm_name m) (truthy annotation))
              (set_stats_dict (dict_set key value (pm_stats_dict m)) m) w Hne Hk Hl Hd Hin)
    as (m' & w' & E & B & L & _ & Fl & Ff & T).
  change (_make_lock_path _ _) with (stats_lock m).
  rewrite E.
  assert (Hd' : pm_stats_dict m' = dict_set key value (pm_stats_dict m)).
  { change (pm_stats_dict m') with (pm_stats_dict (but_locks m')). rewrite B. reflexivity. }
  unfold get_stat. unfold bind at 1. cbn [get_pm st_pm]. rewrite Hd', dict_get_set.
  exists m', w'. split; [reflexivity|]. split; [exact L|]. split; [exact Fl|].
  split; [exact Ff | exact T].
Qed.

End Statistics.

(** X16.  The stats file as a memory between runs: [get_stat] finds the value
    that [report_result] wrote.  The key is not in [stats_dict] (a later
    run, or another pipeline), the last row of the stats file is a row
    [report_result] wrote for this key, under the name of the pipeline or
    as [shared], and the rows before it are complete lines the first of
    which has three columns.  Then [get_stat] returns the value of the row,
    and it has only read. *)
Theorem get_stat_reads_what_was_reported key value annotation c0 m w :
  dict_get key (pm_stats_dict m) = None →
  env_keeps w [pipeline_stats_file m] →
  w_fs w !! pipeline_stats_file m = Some (File (c0 +:+ stats_row key value annotation)) →
  rows_before c0 →
  plain key = true → plain value = true → plain annotation = true →
  Str.strip value = value →
  Str.rstrip annotation = annotation →
  (annotation = pm_name m ∨ annotation = "shared") →
  ∃ m', get_stat key {| st_pm := m; st_os := w |} =
          (Ret (Some value), {| st_pm := m'; st_os := ticks 2 w |}) ∧
        dict_get key (pm_stats_dict m') = Some value.
Proof.
  intros Hnone Hkeep Hfile Hrows Hk Hv Ha Hs Hr Hn.
  set (stats := pipeline_stats_file m) in *.
  assert (F : ∀ j, w_fs (ticks j w) !! stats =
                   Some (File (c0 +:+ stats_row key value annotation))).
  { intros j. rewrite (lookup_ticks j w _ stats Hkeep) by left. exact Hfile. }
  assert (Hrefresh : ∃ m' b, pm_name m' = pm_name m ∧
            refresh_lines (Str.lines (c0 +:+ stats_row key value annotation)) None
              {| st_pm := m; st_os := ticks 2 w |} =
            refresh_lines [stats_row key value annotation] b
              {| st_pm := m'; st_os := ticks 2 w |}).
  { destruct Hrows as [-> | [[c1 ->] (line & rest & Hlines & Hlen)]].
    - exists m, None. split; [reflexivity|].
      change (EmptyString +:+ ?x) with x.
      rewrite (proj2 (stats_row_columns key value annotation Hk Hv Ha)). reflexivity.
    - rewrite lines_app_nl, Hlines,
        (proj2 (stats_row_columns key value annotation Hk Hv Ha)).
      destruct (Str.split_on "009" line) as [|x1 [|x2 [|x3 [|x4 l4]]]] eqn:Es;
        try discriminate Hlen.
      destruct (String.eqb (Str.rstrip x3) (pm_name m)
                || String.eqb (Str.rstrip x3) "shared") eqn:Et.
      + destruct (refresh_lines_bound rest (Some (x1, x2, x3))
                    (set_stats_dict (dict_set x1 (Str.strip x2) (pm_stats_dict m)) m)
                    (ticks 2 w))
          as (m' & b' & Hb' & Hname & Hl); [discriminate|].
        exists m', b'. split; [exact Hname|].
        cbn [app refresh_lines]. rewrite Es.
        unfold bind at 1. cbn [get_pm st_pm]. rewrite Et.
        unfold bind at 1. cbn [mod_pm st_pm st_os]. apply Hl.
      + destruct (refresh_lines_bound rest (Some (x1, x2, x3)) m (ticks 2 w))
          as (m' & b' & Hb' & Hname & Hl); [discriminate|].
        exists m', b'. split; [exact Hname|].
        cbn [app refresh_lines]. rewrite Es.
        unfold bind at 1. cbn [get_pm st_pm]. rewrite Et.
        unfold bind at 1. cbn [ret]. apply Hl. }
  destruct Hrefresh as (m' & b & Hname & Hrefresh).
  assert (Hrun : refresh_lines (Str.lines (c0 +:+ stats_row key value annotation)) None
                   {| st_pm := m; st_os := ticks 2 w |} =
                 (Ret tt, {| st_pm := set_stats_dict
                                        (dict_set key (Str.strip value) (pm_stats_dict m')) m';
                             st_os := ticks 2 w |})).
  { rewrite Hrefresh. apply refresh_last_row; try assumption. rewrite Hname. exact Hn. }
  unfold get_stat. unfold bind at 1. cbn [get_pm st_pm]. rewrite Hnone.
  unfold bind at 1. unfold _refresh_stats. unfold bind at 1. cbn [get_pm st_pm].
  unfold bind at 1. rewrite os_path_isfile_eq. fold stats.
  change (tick w) with (ticks 1 w). unfold is_file. rewrite F.
  unfold bind at 1. unfold open_lines at 1, sys at 1. cbn [st_os st_pm].
  change (tick (ticks 1 w)) with (ticks 2 w). rewrite F.
  rewrite Hrun. unfold bind at 1. cbn [get_pm st_pm pm_stats_dict set_stats_dict ret].
  rewrite Hs, dict_get_set.
  eexists. split; [reflexivity|].
  cbn [pm_stats_dict set_stats_dict]. apply dict_get_set.
Qed.

(** X17.  The warning of [_refresh_stats] about rows that have not three columns
    is followed by the test of the annotation all the same.  When the
    first line of the stats file is such a row, the annotation is not bound
    yet: [get_stat] of a key that is not in [stats_dict] raises
    [UnboundLocalError], whatever the rest of the file holds. *)
Theorem get_stat_raises_on_foreign_first_row key c line rest m w :
  dict_get key (pm_stats_dict m) = None →
  env_keeps w [pipeline_stats_file m] →
  w_fs w !! pipeline_stats_file m = Some (File c) →
  Str.lines c = line :: rest →
  List.length (Str.split_on "009" line) ≠ 3%nat →
  get_stat key {| st_pm := m; st_os := w |} =
    (Raise UnboundLocalError, {| st_pm := m; st_os := ticks 2 w |}).
Proof.
  intros Hnone Hkeep Hfile Hlines Hlen.
  set (stats := pipeline_stats_file m) in *.
  assert (F : ∀ j, w_fs (ticks j w) !! stats = Some (File c)).
  { intros j. rewrite (lookup_ticks j w _ stats Hkeep) by left. exact Hfile. }
  unfold get_stat. unfold bind at 1. cbn [get_pm st_pm]. rewrite Hnone.
  unfold bind at 1. unfold _refresh_stats. unfold bind at 1. cbn [get_pm st_pm].
  unfold bind at 1. rewrite os_path_isfile_eq. fold stats.
  change (tick w) with (ticks 1 w). unfold is_file. rewrite F.
  unfold bind at 1. unfold open_lines at 1, sys at 1. cbn [st_os st_pm].
  change (tick (ticks 1 w)) with (ticks 2 w). rewrite F, Hlines.
  cbn [refresh_lines].
  destruct (Str.split_on "009" line) as [|x1 [|x2 [|x3 [|x4 l4]]]]; try reflexivity.
  contradiction Hlen. reflexivity.
Qed.


Lemma report_result_writes_under_lock_witness :
  ∃ m' w',
    (report_result 0 "Reads" "12" None ;; get_stat "Reads") fresh_state =
      (Ret (Some "12"), {| st_pm := m'; st_os := w' |}) ∧
    pm_locks m' = [] ∧
    w_fs w' !! "/out/lock.__out__stats.tsv" = None ∧
    w_fs w' !! "/out/stats.tsv" = Some (File (stats_row "Reads" "12" "pipe")) ∧
    w_trace w' =
      [EvCreateExcl "/out/lock.__out__stats.tsv";
       EvAppend "/out/stats.tsv" (stats_row "Reads" "12" "pipe");
       EvRemove "/out/lock.__out__stats.tsv"].
Proof.
  refine (report_result_writes_under_lock 0 "Reads" "12" None pipe (st_os fresh_state)
            _ _ _ _ _ _); try reflexivity.
  - vm_compute. discriminate.
  - apply quiet_keeps. reflexivity.
Defined.

Lemma get_stat_reads_what_was_reported_witness :
  let w := world stats_fs quiet no_deny (spawn_ok 10 0 0) in
  ∃ m', get_stat "Reads" {| st_pm := pipe; st_os := w |} =
          (Ret (Some "12"), {| st_pm := m'; st_os := ticks 2 w |}) ∧
        dict_get "Reads" (pm_stats_dict m') = Some "12".
Proof.
  intros w.
  refine (get_stat_reads_what_was_reported "Reads" "12" "pipe"
            (stats_row "Time" "0:00:05" "other") pipe w _ _ _ _ _ _ _ _ _ _);
    try reflexivity.
  - apply quiet_keeps. reflexivity.
  - right. split; [eexists; reflexivity|].
    eexists _, _. split; reflexivity.
  - left. reflexivity.
Defined.

Lemma get_stat_raises_on_foreign_first_row_witness :
  let w := world foreign_stats_fs quiet no_deny (spawn_ok 10 0 0) in
  get_stat "Reads" {| st_pm := pipe; st_os := w |} =
    (Raise UnboundLocalError, {| st_pm := pipe; st_os := ticks 2 w |}).
Proof.
  intros w.
  refine (get_stat_raises_on_foreign_first_row "Reads" _ _ _ pipe w _ _ _ _ _).
  - reflexivity.
  - apply quiet_keeps. reflexivity.
  - reflexivity.
  - reflexivity.
  - vm_compute. discriminate.
Defined.

(** * The status at the end of a pipeline *)

Lemma has_sleep_app e1 e2 : has_sleep (e1 ++ e2) = has_sleep e1 || has_sleep e2.
Proof. apply existsb_app. Qed.

Lemma tracks_ret {A} (a : A) : tracks (ret a).
Proof. intros s. exists []. split; [symmetry; apply app_nil_r | right; reflexivity]. Qed.

Lemma tracks_raise {A} e : tracks (raise (A:=A) e).
Proof. intros s. exists []. split; [symmetry; apply app_nil_r | right; reflexivity]. Qed.

Lemma tracks_out_of_fuel {A} : tracks (out_of_fuel (A:=A)).
Proof. intros s. exists []. split; [symmetry; apply app_nil_r | left; reflexivity]. Qed.

Lemma tracks_get_pm : tracks get_pm.
Proof. intros s. exists []. split; [symmetry; apply app_nil_r | right; reflexivity]. Qed.

Lemma tracks_time_time : tracks time_time.
Proof. intros s. exists []. split; [symmetry; apply app_nil_r | right; reflexivity]. Qed.

Lemma tracks_mod_pm g : (∀ m, pm_status (g m) = pm_status m) → tracks (mod_pm g).
Proof.
  intros H s. exists []. split; [symmetry; apply app_nil_r | right; apply H].
Qed.

Lemma tracks_sys {A} (f : World → Res A * World) :
  (∀ w, ∃ evs, w_trace (snd (f w)) = (w_trace w ++ evs)%list ∧ has_sleep evs = false) →
  tracks (sys f).
Proof.
  intros H s. unfold sys. destruct (H (tick (st_os s))) as (evs & T & N).
  destruct (f (tick (st_os s))) as [r w']. cbn [fst snd st_os st_pm] in *.
  exists evs. split; [exact T|]. right. rewrite N. reflexivity.
Qed.

Lemma tracks_compose (st0 st1 st2 : Status) e1 e2 :
  st1 = (if has_sleep e1 then Running else st0) →
  st2 = (if has_sleep e2 then Running else st1) →
  st2 = (if has_sleep (e1 ++ e2) then Running else st0).
Proof.
  intros -> ->. rewrite has_sleep_app.
  destruct (has_sleep e1), (has_sleep e2); reflexivity.
Qed.

Lemma tracks_bind {A B} (m : M A) (k : A → M B) :
  tracks m → (∀ a, tracks (k a)) → tracks (bind m k).
Proof.
  intros Hm Hk s. unfold bind. destruct (Hm s) as (e1 & T1 & S1).
  destruct (m s) as [[a|e|] s1]; cbn [fst snd] in *.
  - destruct (Hk a s1) as (e2 & T2 & S2). exists (e1 ++ e2)%list.
    split; [rewrite T2, T1; symmetry; apply app_assoc|].
    destruct S2 as [S2|S2]; [left; exact S2 | right].
    destruct S1 as [S1|S1]; [discriminate S1|].
    eapply tracks_compose; eassumption.
  - exists e1. split; [exact T1|]. right.
    destruct S1 as [S1|S1]; [discriminate S1 | exact S1].
  - exists e1. split; [exact T1 | left; reflexivity].
Qed.

Lemma tracks_try_except {A} (m : M A) (h : Exn → option (M A)) :
  tracks m → (∀ e k, h e = Some k → tracks k) → tracks (try_except m h).
Proof.
  intros Hm Hh s. unfold try_except. destruct (Hm s) as (e1 & T1 & S1).
  destruct (m s) as [[a|e|] s1]; cbn [fst snd] in *.
  - exists e1. split; [exact T1|]. right.
    destruct S1 as [S1|S1]; [discriminate S1 | exact S1].
  - destruct (h e) as [k|] eqn:E.
    + destruct (Hh e k E s1) as (e2 & T2 & S2). exists (e1 ++ e2)%list.
      split; [rewrite T2, T1; symmetry; apply app_assoc|].
      destruct S2 as [S2|S2]; [left; exact S2 | right].
      destruct S1 as [S1|S1]; [discriminate S1|].
      eapply tracks_compose; eassumption.
    + exists e1. split; [exact T1|]. right.
      destruct S1 as [S1|S1]; [discriminate S1 | exact S1].
  - exists e1. split; [exact T1 | left; reflexivity].
Qed.

Ltac tracks_syscall :=
  apply tracks_sys; intros w;
  repeat match goal with
         | |- context [match ?x with _ => _ end] => destruct x
         end;
  cbn [snd log_ev set_fs w_trace];
  first [ exists []; split; [symmetry; apply app_nil_r | reflexivity]
        | eexists [_]; split; reflexivity ].

Lemma tracks_os_path_isfile p : tracks (os_path_isfile p).
Proof. unfold os_path_isfile. tracks_syscall. Qed.

Lemma tracks_open_a p text : tracks (open_a p text).
Proof. unfold open_a. tracks_syscall. Qed.

Lemma tracks_os_remove p : tracks (os_remove p).
Proof. unfold os_remove. tracks_syscall. Qed.

Lemma tracks_os_open_excl p : tracks (os_open_excl p).
Proof. unfold os_open_excl. tracks_syscall. Qed.

Lemma tracks_timestamp : tracks timestamp.
Proof.
  unfold timestamp. apply tracks_bind; [apply tracks_time_time|].
  intros now. apply tracks_mod_pm. reflexivity.
Qed.

Section StatusAtTheEnd.

Context {X : Externals}.

Lemma tracks_cleanup dry_run : tracks (_cleanup dry_run).
Proof.
  assert (N : ∀ d evs, Forall (cleanup_event d) evs → has_sleep evs = false).
  { intros d evs F. induction F as [|ev evs Hev _ IH]; [reflexivity|].
    cbn [has_sleep existsb]. fold (has_sleep evs). rewrite IH.
    destruct ev; try reflexivity; destruct Hev. }
  intros s. destruct dry_run.
  - destruct (cleanup_dry_run s) as (s' & E & B & _ & _ & evs & T & F).
    rewrite E. cbn [fst snd]. exists evs. split; [exact T|]. right.
    rewrite (N true evs).
    + change (pm_status (st_pm s')) with (pm_status (but_cleanup_lists (st_pm s'))).
      rewrite B. reflexivity.
    + eapply Forall_impl; [exact F|]. intros ev (p & text & ->). exact I.
  - destruct (post_cleanup_for_real s) as [_ [Hm (evs & T & F)]].
    exists evs. split; [exact T|]. right. rewrite (N false evs F).
    unfold id in Hm. rewrite Hm. reflexivity.
Qed.

Lemma wait_loop_eq fuel lock_file first sleeptime m w :
  wait_loop fuel lock_file first sleeptime {| st_pm := m; st_os := w |} =
  if is_file (w_fs (tick w)) lock_file then
    match fuel with
    | O => (OutOfFuel, {| st_pm := m; st_os := tick w |})
    | S fuel =>
        ((if negb first then timestamp ;; set_status_flag WAIT_FLAG else ret tt) ;;
         time_sleep sleeptime ;;
         wait_loop fuel lock_file true (Py.minQ (sleeptime + (5 # 2)) 60))
          {| st_pm := m; st_os := tick w |}
    end
  else (Ret first, {| st_pm := m; st_os := tick w |}).
Proof.
  destruct fuel; cbn [wait_loop]; unfold bind at 1; rewrite os_path_isfile_eq;
    destruct (is_file (w_fs (tick w)) lock_file); reflexivity.
Qed.

Lemma wait_loop_tracks fuel lock_file first sleeptime s :
  ∃ evs,
    w_trace (st_os (snd (wait_loop fuel lock_file first sleeptime s))) =
      (w_trace (st_os s) ++ evs)%list ∧
    (fst (wait_loop fuel lock_file first sleeptime s) = OutOfFuel ∨
     (fst (wait_loop fuel lock_file first sleeptime s) = Ret true ∧
      (first = true ∨ has_sleep evs = true)) ∨
     (fst (wait_loop fuel lock_file first sleeptime s) = Ret false ∧
      first = false ∧ evs = [] ∧
      st_pm (snd (wait_loop fuel lock_file first sleeptime s)) = st_pm s)).
Proof.
  revert first sleeptime s. induction fuel as [|fuel IH]; intros first sleeptime [m w];
    rewrite wait_loop_eq; destruct (is_file (w_fs (tick w)) lock_file).
  - exists []. split; [symmetry; apply app_nil_r | left; reflexivity].
  - exists []. split; [symmetry; apply app_nil_r|]. right.
    destruct first; [left | right]; cbn; auto.
  - assert (Hpre : ∃ s1 e0,
              (if negb first then timestamp ;; set_status_flag WAIT_FLAG else ret tt)
                {| st_pm := m; st_os := tick w |} = (Ret tt, s1) ∧
              w_trace (st_os s1) = (w_trace w ++ e0)%list).
    { destruct first; cbn [negb].
      - eexists _, []. split; [reflexivity|]. symmetry. apply app_nil_r.
      - unfold bind at 1, timestamp at 1. unfold bind at 1. cbn [time_time mod_pm st_pm st_os].
        match goal with
        | |- context [set_status_flag ?st ?s0] =>
            destruct (set_status_flag_eq st s0) as (s1 & e0 & E & _ & T & _)
        end.
        exists s1. eexists. split; [exact E|]. rewrite T. reflexivity. }
    destruct Hpre as (s1 & e0 & E0 & T0).
    rewrite (bind_Ret _ _ _ _ _ E0). destruct s1 as [m1 w1]. cbn [st_os] in T0.
    assert (Esl : time_sleep sleeptime {| st_pm := m1; st_os := w1 |} =
                  (Ret tt, {| st_pm := m1; st_os := log_ev (EvSleep sleeptime) (tick w1) |}))
      by reflexivity.
    rewrite (bind_Ret _ _ _ _ _ Esl).
    destruct (IH true (Py.minQ (sleeptime + (5 # 2)) 60)
                {| st_pm := m1; st_os := log_ev (EvSleep sleeptime) (tick w1) |})
      as (e2 & T2 & S2).
    destruct (wait_loop fuel lock_file true (Py.minQ (sleeptime + (5 # 2)) 60)
                {| st_pm := m1; st_os := log_ev (EvSleep sleeptime) (tick w1) |})
      as [r s3].
    cbn [fst snd st_os w_trace log_ev tick] in *.
    exists (e0 ++ [EvSleep sleeptime] ++ e2)%list. split.
    + rewrite T2, T0. rewrite <- !app_assoc. reflexivity.
    + destruct S2 as [S2 | [[S2 _] | (_ & S2 & _)]]; [left; exact S2 | | discriminate S2].
      right. left. split; [exact S2|]. right.
      rewrite !has_sleep_app. cbn. apply orb_true_r.
  - exists []. split; [symmetry; apply app_nil_r|]. right.
    destruct first; [left | right]; cbn; auto.
Qed.

Lemma tracks_wait_for_lock fuel lock_file : tracks (_wait_for_lock fuel lock_file).
Proof.
  intros s.
  destruct (wait_loop_tracks fuel lock_file false (1 # 2)%Q s) as (e1 & T1 & S1).
  unfold _wait_for_lock, bind.
  destruct (wait_loop fuel lock_file false (1 # 2)%Q s) as [r s1]. cbn [fst snd] in *.
  destruct S1 as [-> | [[-> [F|N]] | (-> & _ & -> & Epm)]].
  - exists e1. split; [exact T1 | left; reflexivity].
  - discriminate F.
  - unfold timestamp, bind. cbn [time_time mod_pm st_pm st_os].
    match goal with
    | |- context [set_status_flag ?st ?s0] =>
        destruct (set_status_flag_eq st s0) as (s2 & e2 & E & M & T & _)
    end.
    rewrite E. cbn [fst snd]. eexists (e1 ++ _)%list. split.
    + rewrite T. cbn [st_os]. rewrite T1. rewrite <- app_assoc. reflexivity.
    + right. rewrite has_sleep_app, N, M. reflexivity.
  - exists []. split; [exact T1|]. right. cbn [ret fst snd has_sleep existsb].
    rewrite Epm. reflexivity.
Qed.

Lemma tracks_safe_write_loop fuel file lock_file message :
  tracks (safe_write_loop fuel file lock_file message).
Proof.
  induction fuel as [|fuel IH]; cbn [safe_write_loop].
  - apply tracks_bind; [apply tracks_os_path_isfile|]. intros [|].
    + apply tracks_out_of_fuel.
    + apply tracks_bind.
      * unfold create_or_continue. apply tracks_try_except.
        -- apply tracks_bind; [|intros; apply tracks_ret].
           apply tracks_bind; [apply tracks_mod_pm; reflexivity|].
           intros _. apply tracks_os_open_excl.
        -- intros e k Hk. destruct (is_OSError e); [|discriminate Hk].
           inversion Hk; subst k. apply tracks_ret.
      * intros [|]; [apply tracks_out_of_fuel|].
        apply tracks_bind; [apply tracks_open_a|]. intros _.
        apply tracks_bind; [apply tracks_os_remove|]. intros _.
        unfold locks_remove. apply tracks_bind; [apply tracks_get_pm|]. intros pm.
        destruct (Py.list_remove lock_file (pm_locks pm));
          [apply tracks_mod_pm; reflexivity | apply tracks_raise].
  - apply tracks_bind; [apply tracks_os_path_isfile|]. intros [|].
    + apply tracks_bind; [apply tracks_wait_for_lock | intros _; exact IH].
    + apply tracks_bind.
      * unfold create_or_continue. apply tracks_try_except.
        -- apply tracks_bind; [|intros; apply tracks_ret].
           apply tracks_bind; [apply tracks_mod_pm; reflexivity|].
           intros _. apply tracks_os_open_excl.
        -- intros e k Hk. destruct (is_OSError e); [|discriminate Hk].
           inversion Hk; subst k. apply tracks_ret.
      * intros [|]; [exact IH|].
        apply tracks_bind; [apply tracks_open_a|]. intros _.
        apply tracks_bind; [apply tracks_os_remove|]. intros _.
        unfold locks_remove. apply tracks_bind; [apply tracks_get_pm|]. intros pm.
        destruct (Py.list_remove lock_file (pm_locks pm));
          [apply tracks_mod_pm; reflexivity | apply tracks_raise].
Qed.

Lemma tracks_report_result fuel key value annotation :
  tracks (report_result fuel key value annotation).
Proof.
  unfold report_result. apply tracks_bind; [apply tracks_get_pm|]. intros pm.
  apply tracks_bind; [apply tracks_mod_pm; reflexivity|]. intros _.
  unfold _safe_write_to_file. apply tracks_bind; [apply tracks_get_pm|]. intros pm'.
  apply tracks_safe_write_loop.
Qed.

(** X18.  The status [stop_pipeline] leaves.  [stop_pipeline] sets the status it
    is given first and reports the results afterwards; when a report has
    to wait for the lock of the stats file, [_wait_for_lock] sets the status
    to [waiting] and then to [running], and nothing sets it back.  So,
    unless the wait has no end, the status after [complete] or [halt] is
    the one given exactly when the manager did not sleep, and [running]
    when it did, whether [stop_pipeline] returns or raises. *)
Theorem stop_pipeline_status fuel status s :
  ∃ evs,
    w_trace (st_os (snd (stop_pipeline fuel status s))) = (w_trace (st_os s) ++ evs)%list ∧
    (fst (stop_pipeline fuel status s) = OutOfFuel ∨
     pm_status (st_pm (snd (stop_pipeline fuel status s))) =
       if has_sleep evs then Running else status).
Proof.
  assert (Hrest : tracks (_cleanup false ;;
                          pm <- get_pm ;;
                          now <- time_time ;;
                          report_result fuel "Time" (str_timedelta (now - pm_starttime pm)) None ;;
                          now <- time_time ;;
                          report_result fuel "Success" (time_strftime now) None ;;
                          timestamp)).
  { apply tracks_bind; [apply tracks_cleanup|]. intros _.
    apply tracks_bind; [apply tracks_get_pm|]. intros pm.
    apply tracks_bind; [apply tracks_time_time|]. intros now.
    apply tracks_bind; [apply tracks_report_result|]. intros _.
    apply tracks_bind; [apply tracks_time_time|]. intros now'.
    apply tracks_bind; [apply tracks_report_result|]. intros _.
    apply tracks_timestamp. }
  unfold stop_pipeline.
  destruct (set_status_flag_eq status s) as (s1 & e1 & E & M & T & He1).
  rewrite (bind_Ret _ _ _ _ _ E). destruct (Hrest s1) as (e2 & T2 & S2).
  exists ((e1 ++ [EvCreate (_flag_file_path (st_pm s) (Some status))]) ++ e2)%list.
  split; [rewrite T2, T; rewrite <- !app_assoc; reflexivity|].
  destruct S2 as [S2|S2]; [left; exact S2 | right].
  rewrite S2, M. rewrite !has_sleep_app.
  assert (N : has_sleep e1 = false) by (destruct He1 as [-> | ->]; reflexivity).
  rewrite N. reflexivity.
Qed.

End StatusAtTheEnd.

(** A pipeline that completes while another process holds the lock of the
    stats file: [complete] returns, and the status is [running]. *)
Example complete_after_contention :
  let r := complete 3 (stats_contended_state 6) in
  fst r = Ret tt ∧
  pm_status (st_pm (snd r)) = Running ∧
  has_sleep (w_trace (st_os (snd r))) = true ∧
  is_file (w_fs (st_os (snd r))) "/out/pipe_running.flag" = true ∧
  is_file (w_fs (st_os (snd r))) "/out/pipe_completed.flag" = false.
Proof. vm_compute. repeat split; reflexivity. Qed.

(** * The exit handler *)

Section ExitHandler.

Context {X : Externals}.

(** X19.  [_exit_handler], registered with [atexit]: it makes the cleanup script
    remove itself when there is one, and then looks at the status.  A
    pipeline that has an exit status ([completed], [paused], [failed]) is
    left as it is and the handler returns.  Any other pipeline is failed:
    the handler raises "Unknown exit failure" and the status is [failed].
    No child is registered, and the other processes leave the cleanup
    script alone. *)
Theorem exit_handler_outcome m w :
  env_keeps w [cleanup_file m] →
  pm_procs m = [] →
  ∃ s' evs,
    _exit_handler {| st_pm := m; st_os := w |} =
      (if has_exit_status m then Ret tt else Raise (PyException "Unknown exit failure"), s') ∧
    pm_status (st_pm s') = (if has_exit_status m then pm_status m else Failed) ∧
    pm_locks (st_pm s') = pm_locks m ∧
    w_trace (st_os s') = (w_trace w ++ self_destruct m (w_fs w) ++ evs)%list ∧
    (has_exit_status m = false ∨ evs = []).
Proof.
  intros Hk Hp.
  assert (Hlast : ∀ w1, w_trace w1 = (w_trace w ++ self_destruct m (w_fs w))%list →
    ∃ s' evs,
      (pm <- get_pm ;;
       if negb (has_exit_status pm)
       then fail_pipeline (PyException "Unknown exit failure") false
       else ret tt) {| st_pm := m; st_os := w1 |} =
        (if has_exit_status m then Ret tt else Raise (PyException "Unknown exit failure"), s') ∧
      pm_status (st_pm s') = (if has_exit_status m then pm_status m else Failed) ∧
      pm_locks (st_pm s') = pm_locks m ∧
      w_trace (st_os s') = (w_trace w ++ self_destruct m (w_fs w) ++ evs)%list ∧
      (has_exit_status m = false ∨ evs = [])).
  { intros w1 T1. unfold bind at 1. cbn [get_pm st_pm].
    destruct (has_exit_status m) eqn:Hs; cbn [negb].
    - eexists _, []. split; [reflexivity|]. cbn [st_pm st_os ret].
      split; [reflexivity|]. split; [reflexivity|]. split; [|right; reflexivity].
      rewrite T1, app_nil_r. reflexivity.
    - destruct (fail_pipeline_outcome (PyException "Unknown exit failure") false
                  {| st_pm := m; st_os := w1 |} {| st_pm := m; st_os := w1 |})
        as (s' & evs & E & T & _ & _ & [L _] & _ & _ & _ & _ & St & _).
      + apply terminate_nothing. exact Hp.
      + discriminate.
      + exists s', evs. split; [exact E|]. split; [exact St|]. split; [exact L|].
        split; [|left; reflexivity]. rewrite T. cbn [st_os]. rewrite T1, <- app_assoc.
        reflexivity. }
  unfold _exit_handler. unfold bind at 1. cbn [get_pm st_pm].
  unfold bind at 1. rewrite os_path_isfile_eq.
  change (tick w) with (ticks 1 w).
  rewrite (is_file_ticks 1 w _ _ Hk) by left.
  unfold self_destruct in Hlast |- *.
  destruct (is_file (w_fs w) (cleanup_file m)).
  - unfold bind at 1. rewrite (bind_Ret _ _ _ _ _ (open_a_eq _ _ _ _)).
    set (w2 := log_ev _ _).
    assert (Hc : w_fs (tick w2) !! cleanup_file m ≠ None).
    { rewrite (lookup_tick w2 [cleanup_file m] (cleanup_file m));
        [|exact (env_keeps_ticks 1 w _ Hk) | left].
      unfold w2. cbn [w_fs log_ev set_fs]. rewrite lookup_insert_eq. discriminate. }
    unfold os_chmod, sys. cbn [st_os st_pm].
    destruct (w_fs (tick w2) !! cleanup_file m) as [nd|]; [|contradiction Hc; reflexivity].
    cbv beta iota. apply Hlast. unfold w2. cbn [w_trace tick log_ev set_fs]. rewrite ticks_trace.
    reflexivity.
  - unfold bind at 1. cbn [ret]. apply Hlast. rewrite ticks_trace, app_nil_r. reflexivity.
Qed.

End ExitHandler.

Lemma exit_handler_outcome_witness :
  ∃ s', _exit_handler fresh_state = (Raise (PyException "Unknown exit failure"), s') ∧
        pm_status (st_pm s') = Failed.
Proof.
  destruct (exit_handler_outcome pipe (st_os fresh_state)) as (s' & evs & E & S & _).
  - apply quiet_keeps. reflexivity.
  - reflexivity.
  - exists s'. split; [exact E | exact S].
Defined.

(** A pipeline that completed while the lock of the stats file was held:
    at exit the handler finds the status [running] and fails the pipeline. *)
Example completed_pipeline_fails_at_exit :
  let r := (complete 3 ;; _exit_handler) (stats_contended_state 6) in
  fst r = Raise (PyException "Unknown exit failure") ∧
  pm_status (st_pm (snd r)) = Failed ∧
  is_file (w_fs (st_os (snd r))) "/out/pipe_failed.flag" = true ∧
  is_file (w_fs (st_os (snd r))) "/out/pipe_completed.flag" = false.
Proof. vm_compute. repeat split; reflexivity. Qed.

Lemma run_without_wait_releases_lock_at_once_witness :
  let a := run_args (CmdStr "sleep 100 > log") (TargetStr "out.txt") in
  ∃ m' w' info,
    run 0 a nowait_state = (Ret 0%Z, {| st_pm := m'; st_os := w' |}) ∧
    pm_locks m' = [] ∧ pm_status m' = Running ∧
    procs_get 77 (pm_procs m') = Some info ∧
    pi_p info = {| c_pid := 77; c_polls := 5; c_returncode := 0 |} ∧
    w_fs w' !! out_lock = None ∧
    w_trace w' =
      [EvCreateExcl out_lock;
       EvAppend "/out/pipe_commands.sh" ("sleep 100 > log" +:+ NL +:+ NL);
       EvPopen (ShellCmd "sleep 100 > log"); EvRemove out_lock].
Proof.
  intros a.
  refine (run_without_wait_releases_lock_at_once 0 a (st_pm nowait_state)
            (st_os nowait_state) "out.txt" "sleep 100 > log" "sleep" ["100"; ">"; "log"]
            {| c_pid := 77; c_polls := 5; c_returncode := 0 |}
            _ _ _ _ _ _ _ _ _ _ _ _ _ _ _ _); try reflexivity.
  - vm_compute. discriminate.
  - apply quiet_keeps. reflexivity.
  - right. intros p Hp. inversion Hp.
Defined.

Lemma run_without_target_or_lock_fails_witness :
  ∃ s', run 0 bare_args fresh_state =
          (Raise (PyException "You must provide either a target or a lock_name."), s')
        ∧ pm_status (st_pm s') = Failed
        ∧ pm_locks (st_pm s') = [].
Proof.
  apply (run_without_target_or_lock_fails 0 bare_args fresh_state); reflexivity.
Defined.

(** * Signals *)

Lemma is_file_insert_file fs q c p :
  is_file fs p = true → is_file (<[q := File c]> fs) p = true.
Proof.
  unfold is_file. intros H. destruct (decide (q = p)) as [-> | Hn].
  - rewrite lookup_insert_eq. reflexivity.
  - rewrite lookup_insert_ne by exact Hn. exact H.
Qed.

(** [set_status_flag] leaves the files that are not the old flag file. *)
Lemma set_status_flag_keeps_files status m w ps :
  env_keeps w ps →
  (∀ p, p ∈ ps → p ≠ _flag_file_path m None ∧ is_file (w_fs w) p = true) →
  ∃ w', set_status_flag status {| st_pm := m; st_os := w |} =
          (Ret tt, {| st_pm := set_status status m; st_os := w' |}) ∧
        w_env w' = w_env w ∧
        ∀ p, p ∈ ps → is_file (w_fs w') p = true.
Proof.
  intros Hk Hps.
  assert (H1 : ∀ p, p ∈ ps → is_file (w_fs (tick w)) p = true).
  { intros p Hp. unfold is_file. rewrite (lookup_tick w ps p Hk Hp). apply Hps, Hp. }
  assert (Hrm : ∃ w1,
            try_except (os_remove (_flag_file_path m None)) (fun _ => Some (ret tt))
              {| st_pm := m; st_os := w |} = (Ret tt, {| st_pm := m; st_os := w1 |}) ∧
            w_env w1 = w_env w ∧ ∀ p, p ∈ ps → is_file (w_fs w1) p = true).
  { unfold try_except, os_remove, sys. cbn [st_os st_pm].
    destruct (w_fs (tick w) !! _flag_file_path m None) as [[c|]|] eqn:Eold; cbn [ret].
    - eexists. split; [reflexivity|]. split; [reflexivity|].
      intros p Hp. cbn [w_fs log_ev set_fs]. unfold is_file.
      rewrite lookup_delete_ne by (intros E; apply (Hps p Hp); auto).
      apply H1, Hp.
    - eexists. split; [reflexivity|]. split; [reflexivity|]. exact H1.
    - eexists. split; [reflexivity|]. split; [reflexivity|]. exact H1. }
  destruct Hrm as (w1 & E1 & A1 & F1).
  unfold set_status_flag. unfold bind at 1. cbn [get_pm st_pm].
  rewrite (bind_Ret _ _ _ _ _ E1).
  unfold bind at 1. cbn [mod_pm st_pm st_os]. unfold bind at 1. cbn [get_pm st_pm].
  unfold _create_file, open_w, sys. cbn [st_os st_pm].
  eexists. split; [reflexivity|]. split; [exact A1|].
  intros p Hp. cbn [w_fs log_ev set_fs]. apply is_file_insert_file.
  unfold is_file. cbn [tick w_fs]. rewrite A1, (Hk _ _ p Hp). apply F1, Hp.
Qed.

Section Signals.

Context {X : Externals}.

(** X21.  An interrupted pipeline leaves its lock recoverable.  The manager
    holds one lock, has no child and no cleanup entries, and is not failed;
    the recovery file of the lock is not there and can be created; the other
    processes leave the lock and its recovery file alone, and neither is the
    flag file of the current status.  Then the handler of SIGTERM and SIGINT
    raises [KeyboardInterrupt] with the name of the signal, the status is
    [failed], [locks] is empty, and on the disk the lock file is still there,
    now with its recovery file beside it: what a later call of [run] needs to
    take the lock over without waiting. *)
Theorem signal_handler_leaves_lock_recoverable signal_type lock m w :
  pm_procs m = [] → pm_locks m = [lock] →
  pm_cleanup_list m = [] → pm_cleanup_list_conditional m = [] →
  failed m = false →
  env_keeps w [lock; _recoverfile_from_lockfile m lock] →
  is_file (w_fs w) lock = true →
  w_fs w !! _recoverfile_from_lockfile m lock = None →
  w_deny w (_recoverfile_from_lockfile m lock) = None →
  _flag_file_path m None ≠ lock →
  _flag_file_path m None ≠ _recoverfile_from_lockfile m lock →
  ∃ s', _generic_signal_handler signal_type {| st_pm := m; st_os := w |} =
          (Raise (KeyboardInterrupt signal_type), s') ∧
        pm_status (st_pm s') = Failed ∧
        pm_locks (st_pm s') = [] ∧
        configuration (st_pm s') = configuration m ∧
        is_file (w_fs (st_os s')) lock = true ∧
        is_file (w_fs (st_os s')) (_recoverfile_from_lockfile m lock) = true.
Proof.
  intros Hp Hl Hc1 Hc2 Hf Hk Hlock Hrec Hd Hn1 Hn2.
  set (recover := _recoverfile_from_lockfile m lock) in *.
  unfold _generic_signal_handler, timestamp.
  unfold bind at 1. unfold bind at 1. cbn [time_time mod_pm st_pm st_os].
  set (m0 := set_last_timestamp (w_clock w) m).
  unfold fail_pipeline.
  rewrite (bind_Ret _ _ _ _ _ (terminate_nothing {| st_pm := m0; st_os := w |} Hp)).
  (* the recovery file *)
  set (w1 := log_ev (EvCreateExcl recover)
               (set_fs (<[recover := File EmptyString]> (w_fs (tick w))) (tick w))).
  assert (Erec : (pm <- get_pm ;; recover_each (pm_locks pm)) {| st_pm := m0; st_os := w |} =
                 (Ret tt, {| st_pm := set_locks [] m0; st_os := w1 |})).
  { unfold bind at 1. cbn [get_pm st_pm]. unfold m0 at 1. cbn [pm_locks set_last_timestamp].
    rewrite Hl. cbn [recover_each]. unfold bind at 1. cbn [get_pm st_pm].
    change (_recoverfile_from_lockfile m0 lock) with recover.
    unfold _create_file_racefree. unfold bind at 1.
    rewrite os_open_excl_eq.
    - unfold bind at 1. unfold m0 at 1. cbn [pm_locks set_last_timestamp].
      rewrite Hl, list_remove_head. cbn [mod_pm st_pm st_os]. reflexivity.
    - rewrite (lookup_tick w _ recover Hk) by (right; left). exact Hrec.
    - exact Hd. }
  rewrite (bind_Ret _ _ _ _ _ Erec).
  set (m1 := set_locks [] m0).
  rewrite (bind_Ret _ _ _ _ _ (cleanup_nothing true {| st_pm := m1; st_os := w1 |} Hc1 Hc2)).
  unfold bind at 1. cbn [get_pm st_pm].
  change (failed m1) with (failed m). rewrite Hf. cbn [negb].
  unfold timestamp. unfold bind at 1. unfold bind at 1. unfold bind at 1.
  cbn [time_time mod_pm st_pm st_os].
  set (m2 := set_last_timestamp (w_clock w1) m1).
  destruct (set_status_flag_keeps_files FAIL_FLAG m2 w1 [lock; recover])
    as (w2 & E2 & _ & F2).
  { exact Hk. }
  { intros p Hq. apply elem_of_cons in Hq as [-> | Hq].
    - split; [intros E; apply Hn1; symmetry; exact E|].
      unfold w1. cbn [w_fs log_ev set_fs]. apply is_file_insert_file.
      unfold is_file. rewrite (lookup_tick w _ lock Hk) by left. exact Hlock.
    - apply elem_of_cons in Hq as [-> | Hq]; [|inversion Hq].
      split; [intros E; apply Hn2; symmetry; exact E|].
      unfold w1, is_file. cbn [w_fs log_ev set_fs]. rewrite lookup_insert_eq. reflexivity. }
  rewrite E2. cbn [raise].
  eexists. split; [reflexivity|]. cbn [st_pm st_os].
  split; [reflexivity|]. split; [reflexivity|]. split; [reflexivity|].
  split; apply F2; [left | right; left].
Qed.

End Signals.

Lemma signal_handler_leaves_lock_recoverable_witness :
  ∃ s', _generic_signal_handler "SIGTERM" interrupted_state =
          (Raise (KeyboardInterrupt "SIGTERM"), s') ∧
        pm_status (st_pm s') = Failed ∧
        pm_locks (st_pm s') = [] ∧
        is_file (w_fs (st_os s')) out_lock = true ∧
        is_file (w_fs (st_os s')) "/out/recover.lock.out.txt" = true.
Proof.
  destruct (signal_handler_leaves_lock_recoverable "SIGTERM" out_lock
              (st_pm interrupted_state) (st_os interrupted_state))
    as (s' & E & S & L & _ & F1 & F2); try reflexivity.
  - apply quiet_keeps. reflexivity.
  - vm_compute. discriminate.
  - vm_compute. discriminate.
  - exists s'. split; [exact E|]. split; [exact S|]. split; [exact L|].
    split; [exact F1 | exact F2].
Defined.
